(** * live-document-ocr: the streaming text-extraction pipeline

    A shallow embedding of the backend router [api/extract-text.ts]
    (request routing, the three provider handlers, the two stream
    relays), of the client generator [extractTextFromImageStream] and of
    the binarization loop of [preprocessImage], with the properties of
    the specification settled against them.

    Platform services the source calls but does not define are modelled
    after their standards: [TextDecoder] after the WHATWG Encoding
    Standard (the UTF-8 decoder with replacement error mode), JS string
    methods after ECMA-262, the response object after Node's
    [http.ServerResponse].  [JSON.parse], [Number.prototype.toString]
    and the engine's error texts are parameters of the development. *)

From Stdlib Require Import ZArith NArith QArith List Bool Ascii String Strings.Byte DecimalString Floats Uint63 Lia.
From stdpp Require Import base option list gmap strings.
Import ListNotations.
Set Warnings "-register-all".

(** ** JS strings

    A JS string is a sequence of UTF-16 code units. *)

Abbreviation jsstring := (list N).

(** A source-code literal (ASCII) as a JS string. *)
Definition str (s : string) : jsstring :=
  map N_of_ascii (list_ascii_of_string s).
Arguments str : simpl never.

Definition jsstring_eqb (a b : jsstring) : bool :=
  bool_decide (a = b).

(** [s.startsWith(p)] *)
Fixpoint startsWith (p s : jsstring) : bool :=
  match p, s with
  | [], _ => true
  | _ :: _, [] => false
  | a :: p', b :: s' => N.eqb a b && startsWith p' s'
  end.

(** [s.substring(n)] for [n >= 0] *)
Definition substring (n : nat) (s : jsstring) : jsstring := drop n s.

(** ECMA-262 WhiteSpace and LineTerminator code units, the set
    [String.prototype.trim] strips. *)
Definition is_js_space (c : N) : bool :=
  ((9 <=? c) && (c <=? 13) || (c =? 32) || (c =? 0xA0) || (c =? 0x1680)
   || (0x2000 <=? c) && (c <=? 0x200A) || (c =? 0x2028) || (c =? 0x2029)
   || (c =? 0x202F) || (c =? 0x205F) || (c =? 0x3000) || (c =? 0xFEFF))%N.

Fixpoint trimStart (s : jsstring) : jsstring :=
  match s with
  | c :: s' => if is_js_space c then trimStart s' else s
  | [] => []
  end.

Definition trim (s : jsstring) : jsstring :=
  rev (trimStart (rev (trimStart s))).

(** [s.split('\n')]: always at least one piece. *)
Definition LF : N := 10%N.

Fixpoint split_lf (s : jsstring) : list jsstring :=
  match s with
  | [] => [[]]
  | c :: s' =>
      if N.eqb c LF then [] :: split_lf s'
      else match split_lf s' with
           | l :: ls => (c :: l) :: ls
           | [] => [[c]]
           end
  end.

(** [lines.pop() || ''] reads the last piece; the array keeps the rest. *)
Definition pop_value (lines : list jsstring) : jsstring := List.last lines [].
Definition pop_rest (lines : list jsstring) : list jsstring := removelast lines.

(** ** TextDecoder (WHATWG Encoding Standard, UTF-8, replacement mode) *)

Module Utf8.
Local Open Scope N_scope.

Record state := mkState {
  code_point : N;
  bytes_seen : N;
  bytes_needed : N;
  lower_boundary : N;
  upper_boundary : N
}.

Definition init : state := mkState 0 0 0 0x80 0xBF.

Definition REPLACEMENT : N := 0xFFFD.

(** The handler's step 3: a byte met with no sequence pending. *)
Definition lead (b : N) : state * list N :=
  if b <=? 0x7F then (init, [b])
  else if (0xC2 <=? b) && (b <=? 0xDF) then
    (mkState (N.land b 0x1F) 0 1 0x80 0xBF, [])
  else if (0xE0 <=? b) && (b <=? 0xEF) then
    (mkState (N.land b 0xF) 0 2
       (if b =? 0xE0 then 0xA0 else 0x80)
       (if b =? 0xED then 0x9F else 0xBF), [])
  else if (0xF0 <=? b) && (b <=? 0xF4) then
    (mkState (N.land b 0x7) 0 3
       (if b =? 0xF0 then 0x90 else 0x80)
       (if b =? 0xF4 then 0x8F else 0xBF), [])
  else (init, [REPLACEMENT]).

(** One byte through the handler; the scalar values it emits.  A byte
    outside the expected range ends the pending sequence with an error
    and is processed again from the initial state. *)
Definition handler (st : state) (b : N) : state * list N :=
  if bytes_needed st =? 0 then lead b
  else if negb ((lower_boundary st <=? b) && (b <=? upper_boundary st)) then
    let '(st', out) := lead b in (st', REPLACEMENT :: out)
  else
    let cp := N.lor (N.shiftl (code_point st) 6) (N.land b 0x3F) in
    let seen := bytes_seen st + 1 in
    if seen =? bytes_needed st then (init, [cp])
    else (mkState cp seen (bytes_needed st) 0x80 0xBF, []).

(** End of queue: a pending sequence is an error. *)
Definition finish (st : state) : state * list N :=
  if bytes_needed st =? 0 then (st, [])
  else (mkState (code_point st) (bytes_seen st) 0 (lower_boundary st) (upper_boundary st),
        [REPLACEMENT]).

(** A scalar value as UTF-16 code units. *)
Definition utf16 (cp : N) : jsstring :=
  if cp <? 0x10000 then [cp]
  else let c := cp - 0x10000 in
       [0xD800 + N.shiftr c 10; 0xDC00 + N.land c 0x3FF].

End Utf8.

Record TextDecoder := mkDecoder {
  td_state : Utf8.state;
  td_do_not_flush : bool;
  td_bom_seen : bool
}.

(** [new TextDecoder()] *)
Definition new_TextDecoder : TextDecoder := mkDecoder Utf8.init false false.

(** "serialize I/O queue": the first scalar value of a stream is dropped
    when it is the byte order mark (ignoreBOM is off by default). *)
Fixpoint serialize (bom_seen : bool) (scalars : list N) : bool * jsstring :=
  match scalars with
  | [] => (bom_seen, [])
  | c :: rest =>
      if negb bom_seen && N.eqb c 0xFEFF then serialize true rest
      else let '(b, out) := serialize true rest in (b, Utf8.utf16 c ++ out)
  end.

(** The decoder run over the bytes of one call. *)
Fixpoint run_bytes (st : Utf8.state) (bs : list Byte.byte) : Utf8.state * list N :=
  match bs with
  | [] => (st, [])
  | b :: bs' =>
      let '(st1, out1) := Utf8.handler st (Byte.to_N b) in
      let '(st2, out2) := run_bytes st1 bs' in
      (st2, out1 ++ out2)
  end.

(** [decoder.decode(value, { stream })]; [decoder.decode(value)] is
    [stream = false]. *)
Definition decode (td : TextDecoder) (value : list Byte.byte) (stream : bool)
  : TextDecoder * jsstring :=
  let st0 := if td_do_not_flush td then td_state td else Utf8.init in
  let bom0 := if td_do_not_flush td then td_bom_seen td else false in
  let '(st1, out1) := run_bytes st0 value in
  let '(st2, out2) := if stream then (st1, []) else Utf8.finish st1 in
  let '(bom, text) := serialize bom0 (out1 ++ out2) in
  (mkDecoder st2 stream bom, text).

(** Decoding a whole input at once. *)
Definition decode_all (input : list Byte.byte) : jsstring :=
  snd (decode new_TextDecoder input false).

Definition bytes (s : string) : list Byte.byte := list_byte_of_string s.

(** ** JS values

    What [JSON.parse] can return; [undefined] is the [None] of
    [option JSON].  A number is kept by its exact value. *)

Inductive JSON :=
| JNull
| JBool (b : bool)
| JNum (q : Q)
| JStr (s : jsstring)
| JArr (items : list JSON)
| JObj (fields : list (jsstring * JSON)).

Abbreviation JSValue := (option JSON).

Definition undefined : JSValue := None.

(** ToBoolean *)
Definition truthy (v : JSValue) : bool :=
  match v with
  | None | Some JNull => false
  | Some (JBool b) => b
  | Some (JNum q) => negb (Qeq_bool q 0)
  | Some (JStr s) => negb (jsstring_eqb s [])
  | Some (JArr _) | Some (JObj _) => true
  end.

(** An own property of a parsed object: the last binding of the key. *)
Fixpoint obj_get (k : jsstring) (fields : list (jsstring * JSON)) : JSValue :=
  match fields with
  | [] => None
  | (k', v) :: rest =>
      match obj_get k rest with
      | Some w => Some w
      | None => if jsstring_eqb k k' then Some v else None
      end
  end.

(** Thrown values: an [Error] with its message, or something that is
    not an [Error]. *)
Inductive exn :=
| JsError (message : jsstring)
| NonError.

(** Errors the engine raises; their texts belong to the engine. *)
Inductive engine_error :=
| NullishRead        (* property read on null or undefined *)
| NotAFunction       (* call of a value that is not a function *)
| InvalidChunk       (* res.write of neither string nor buffer *)
| JsonSyntax (input : jsstring).

(** A number in base 10, as a template literal prints it. *)
Definition show_N (n : N) : jsstring :=
  str (NilZero.string_of_uint (N.to_uint n)).

(** ** The response object and the world around one request *)

Record Res := mkRes {
  headersSent : bool;
  statusCode : N;
  headers : list (jsstring * list jsstring);
  written : list jsstring;       (* res.write chunks, in order *)
  sent : option JSON;            (* res.send body *)
  ended : bool
}.

Definition new_Res : Res := mkRes false 200 [] [] None false.

(** A call of [fetch]: the URL and the options.  [call_payload] is the
    object given to [JSON.stringify] for the request body. *)
Record Call := mkCall {
  call_url : jsstring;
  call_method : jsstring;
  call_headers : list (jsstring * jsstring);
  call_payload : JSON
}.

Record World := mkWorld {
  res : Res;
  fetched : list Call;           (* calls of fetch, in order *)
  parsed : list jsstring;        (* arguments of JSON.parse, in order *)
  logged : list jsstring         (* console.error labels, in order *)
}.

Definition new_World : World := mkWorld new_Res [] [] [].

(** Computations: state threaded through, exceptions as results. *)
Definition M (A : Type) : Type := World -> World * (exn + A).

Definition ret {A} (a : A) : M A := fun w => (w, inr a).
Definition throw {A} (e : exn) : M A := fun w => (w, inl e).
Definition bind {A B} (m : M A) (k : A -> M B) : M B :=
  fun w => match m w with
           | (w', inr a) => k a w'
           | (w', inl e) => (w', inl e)
           end.
Definition try_catch {A} (m : M A) (h : exn -> M A) : M A :=
  fun w => match m w with
           | (w', inr a) => (w', inr a)
           | (w', inl e) => h e w'
           end.
Definition modify_res (f : Res -> Res) : M unit :=
  fun w => (mkWorld (f (res w)) (fetched w) (parsed w) (logged w), inr tt).
Definition get_res : M Res := fun w => (w, inr (res w)).

Declare Scope js_scope.
Delimit Scope js_scope with js.
Notation "x <- m ;; k" := (bind m (fun x => k))
  (at level 100, m at next level, right associativity) : js_scope.
Notation "m ;;; k" := (bind m (fun _ => k))
  (at level 100, right associativity) : js_scope.
Local Open Scope js_scope.

Definition console_error (label : string) : M unit :=
  fun w => (mkWorld (res w) (fetched w) (parsed w) (logged w ++ [str label]), inr tt).

(** [res.setHeader], [res.status], [res.write], [res.send], [res.end] *)
Definition res_setHeader (name : string) (value : list jsstring) : M unit :=
  modify_res (fun r => mkRes (headersSent r) (statusCode r)
                             (headers r ++ [(str name, value)])
                             (written r) (sent r) (ended r)).

Definition res_status (code : N) : M unit :=
  modify_res (fun r => mkRes (headersSent r) code (headers r)
                             (written r) (sent r) (ended r)).

Definition res_end : M unit :=
  modify_res (fun r => mkRes true (statusCode r) (headers r)
                             (written r) (sent r) true).

Definition res_send (body : JSON) : M unit :=
  modify_res (fun r => mkRes true (statusCode r) (headers r)
                             (written r) (Some body) true).

(** ** Upstream responses *)

Inductive ReadEnd :=
| EndOfStream              (* read() resolves with done *)
| ReadFails (e : exn).     (* read() rejects *)

Record Body := mkBody {
  reads : list (list Byte.byte);   (* the values of the successive reads *)
  finish : ReadEnd
}.

Record Response := mkResponse {
  status : N;
  body : option Body
}.

(** [response.ok] *)
Definition ok (r : Response) : bool :=
  (200 <=? status r)%N && (status r <=? 299)%N.

(** What [response.text()] settles with: the whole body decoded, unless
    a read fails. *)
Definition body_text (r : Response) : exn + jsstring :=
  match body r with
  | None => inr []
  | Some b =>
      match finish b with
      | EndOfStream => inr (decode_all (concat (reads b)))
      | ReadFails e => inl e
      end
  end.

Record Request := mkRequest {
  method : option jsstring;
  req_body : JSValue
}.

(** Property reads.  The names the source reads are own properties of
    parsed objects only; an index also reads arrays and strings. *)
Definition own_prop (k : string) (v : JSON) : JSValue :=
  match v with
  | JObj fs => obj_get (str k) fs
  | _ => undefined
  end.

Definition own_index (i : nat) (v : JSON) : JSValue :=
  match v with
  | JArr items => items !! i
  | JStr s => (fun c => JStr [c]) <$> s !! i
  | JObj fs => obj_get (show_N (N.of_nat i)) fs
  | _ => undefined
  end.

(** [v?.k] and [v?.[i]] *)
Definition opt_prop (k : string) (v : JSValue) : JSValue :=
  match v with
  | None | Some JNull => undefined
  | Some j => own_prop k j
  end.

Definition opt_index (i : nat) (v : JSValue) : JSValue :=
  match v with
  | None | Some JNull => undefined
  | Some j => own_index i j
  end.

(** An object literal as [JSON.stringify] writes it: a property whose
    value is [undefined] is left out. *)
Definition obj_lit (fields : list (string * JSValue)) : JSON :=
  JObj (omap (fun '(k, v) => match v with
                             | Some j => Some (str k, j)
                             | None => None
                             end) fields).

Definition quote_mark : N := 34%N.

(** ** Prompts *)

Definition baseInstruction : jsstring :=
  str "You are an expert OCR engine. Extract all text from the image. Format the output as clean, semantic HTML. Use tags like `<p>`, `<h1>`, `<h2>`, `<ul>`, `<li>`, `<table>`, `<thead>`, `<tbody>`, `<tr>`, `<th>`, `<td>`, `<strong>`, and `<em>`. Preserve the original formatting as much as possible. Do not include `<html>`, `<head>`, or `<body>` tags in your response. Only output the extracted content as HTML.".

Definition is_string (s : string) (v : JSValue) : bool :=
  match v with
  | Some (JStr t) => jsstring_eqb t (str s)
  | _ => false
  end.

(** [switch (context)], by strict equality *)
Definition getOcrPrompt (context : JSValue) : jsstring :=
  if is_string "receipt" context then
    str "Extract all items, prices, and the total amount from this receipt. Structure the output as an HTML table. "
    ++ baseInstruction
  else if is_string "handwriting" context then
    str "Transcribe the handwritten text from this image. Use <p> and <br> tags to preserve the original line breaks and layout. "
    ++ baseInstruction
  else if is_string "book" context then
    str "Extract the text from this page of a book or article. Maintain the original paragraph structure, headings, and any lists accurately using appropriate HTML tags. "
    ++ baseInstruction
  else if is_string "whiteboard" context then
    str "Transcribe the text and diagrams from this whiteboard. Pay attention to the layout, bullet points, and any drawn structures to capture the content as accurately as possible using HTML. "
    ++ baseInstruction
  else if is_string "quiz" context then
    str "Extract the multiple-choice questions from this image. Format each question using an <ol> for the questions and a <ul> for the options. Preserve the lettering (e.g., A, B, C) for each option. "
    ++ baseInstruction
  else baseInstruction.

Section Backend.

(** [JSON.parse]: [None] when it throws a SyntaxError. *)
Variable JSON_parse : jsstring -> option JSON.
(** The message of each engine error. *)
Variable engine_message : engine_error -> jsstring.
(** [Number.prototype.toString] *)
Variable number_to_string : Q -> jsstring.
(** [process.env] *)
Variable env : gmap string jsstring.
(** What [fetch] settles with for a call: a rejection or a response. *)
Variable upstream : Call -> exn + Response.

Definition engine_throw {A} (e : engine_error) : M A :=
  throw (JsError (engine_message e)).

(** ToString, as a template literal applies it to a value. *)
Fixpoint to_string (v : JSON) : jsstring :=
  match v with
  | JNull => str "null"
  | JBool true => str "true"
  | JBool false => str "false"
  | JNum q => number_to_string q
  | JStr s => s
  | JArr items =>
      (fix join (l : list JSON) : jsstring :=
         match l with
         | [] => []
         | x :: l' =>
             match x with JNull => [] | _ => to_string x end
             ++ match l' with [] => [] | _ :: _ => str "," ++ join l' end
         end) items
  | JObj _ => str "[object Object]"
  end.

Definition ToString (v : JSValue) : jsstring :=
  match v with
  | Some j => to_string j
  | None => str "undefined"
  end.

(** [switch (task)] has the two cases and no default: any other task
    leaves the function without a return value. *)
Definition getTextTaskPrompt (task text : JSValue) : JSValue :=
  if is_string "summarize" task then
    Some (JStr (str "Summarize the following text in one or two paragraphs. Focus on the key points and main arguments. The text is: "
                ++ [quote_mark] ++ ToString text ++ [quote_mark]))
  else if is_string "title" task then
    Some (JStr (str "Generate a concise, descriptive title (5 words or less) for the following document. Do not use quotation marks in the title. The document text is: "
                ++ [quote_mark] ++ ToString text ++ [quote_mark]))
  else undefined.

(** [v.k] and [v[i]] *)
Definition get_prop (k : string) (v : JSValue) : M JSValue :=
  match v with
  | None | Some JNull => engine_throw NullishRead
  | Some j => ret (own_prop k j)
  end.

Definition get_index (i : nat) (v : JSValue) : M JSValue :=
  match v with
  | None | Some JNull => engine_throw NullishRead
  | Some j => ret (own_index i j)
  end.

(** [v?.trim()] *)
Definition opt_trim (v : JSValue) : M JSValue :=
  match v with
  | None | Some JNull => ret undefined
  | Some (JStr s) => ret (Some (JStr (trim s)))
  | Some _ => engine_throw NotAFunction
  end.

(** [v || ''] where a string is expected *)
Definition or_empty (v : JSValue) : JSON :=
  match v with
  | Some j => if truthy v then j else JStr []
  | None => JStr []
  end.

Definition JSON_parse_call (s : jsstring) : M JSON :=
  fun w =>
    let w' := mkWorld (res w) (fetched w) (parsed w ++ [s]) (logged w) in
    match JSON_parse s with
    | Some j => (w', inr j)
    | None => (w', inl (JsError (engine_message (JsonSyntax s))))
    end.

(** [res.write(chunk)]: a string is sent, and the headers with it; any
    other value is refused with a TypeError. *)
Definition res_write (chunk : JSValue) : M unit :=
  match chunk with
  | Some (JStr s) =>
      modify_res (fun r => mkRes true (statusCode r) (headers r)
                                 (written r ++ [s]) (sent r) (ended r))
  | _ => engine_throw InvalidChunk
  end.

(** [await fetch(url, { method: 'POST', headers, body: JSON.stringify(payload) })] *)
Definition fetch (url : jsstring) (hdrs : list (jsstring * jsstring))
    (payload : JSON) : M Response :=
  fun w =>
    let call := mkCall url (str "POST") hdrs payload in
    let w' := mkWorld (res w) (fetched w ++ [call]) (parsed w) (logged w) in
    match upstream call with
    | inr r => (w', inr r)
    | inl e => (w', inl e)
    end.

Definition json_headers : list (jsstring * jsstring) :=
  [(str "Content-Type", str "application/json")].

Definition bearer_headers (apiKey : jsstring) : list (jsstring * jsstring) :=
  [(str "Content-Type", str "application/json");
   (str "Authorization", str "Bearer " ++ apiKey)].

(** [await response.text()] *)
Definition response_text (r : Response) : M jsstring :=
  match body_text r with
  | inr t => ret t
  | inl e => throw e
  end.

(** [await response.json()] *)
Definition response_json (r : Response) : M JSON :=
  t <- response_text r ;;
  match JSON_parse t with
  | Some j => ret j
  | None => engine_throw (JsonSyntax t)
  end.

(** [if (!apiResponse.ok) throw new Error(`<label> ${status} ${text}`)] *)
Definition check_ok (label : string) (r : Response) : M unit :=
  if ok r then ret tt
  else t <- response_text r ;;
       throw (JsError (str label ++ show_N (status r) ++ str " " ++ t)).

(** [apiResponse.body!.getReader()] *)
Definition getReader (r : Response) : M Body :=
  match body r with
  | Some b => ret b
  | None => engine_throw NullishRead
  end.

(** *** The OpenAI-compatible stream relay *)

(** The body of [for (const line of lines)]. *)
Definition openai_line (line : jsstring) : M unit :=
  if startsWith (str "data: ") line then
    let data := substring 6 line in
    if jsstring_eqb (trim data) (str "[DONE]") then ret tt
    else
      try_catch
        (json <- JSON_parse_call data ;;
         choices <- get_prop "choices" (Some json) ;;
         first <- get_index 0 choices ;;
         let textChunk := opt_prop "content" (opt_prop "delta" first) in
         if truthy textChunk then res_write textChunk else ret tt)
        (fun _ => console_error "Error parsing stream JSON:")
  else ret tt.

Fixpoint for_each {A} (f : A -> M unit) (l : list A) : M unit :=
  match l with
  | [] => ret tt
  | x :: l' => f x ;;; for_each f l'
  end.

(** The [while (true)] loop over the reads of the body. *)
Fixpoint openai_loop (rs : list (list Byte.byte)) (fin : ReadEnd)
    (decoder : TextDecoder) (buffer : jsstring) : M unit :=
  match rs with
  | [] =>
      match fin with
      | EndOfStream => ret tt
      | ReadFails e => throw e
      end
  | value :: rs' =>
      let '(decoder', text) := decode decoder value true in
      let lines := split_lf (buffer ++ text) in
      for_each openai_line (pop_rest lines) ;;;
      openai_loop rs' fin decoder' (pop_value lines)
  end.

Definition openai_stream_payload (body : JSON) (model : string) : JSON :=
  obj_lit
    [("model", Some (JStr (str model)));
     ("messages", Some (JArr [obj_lit
        [("role", Some (JStr (str "user")));
         ("content", Some (JArr
            [obj_lit [("type", Some (JStr (str "text")));
                      ("text", Some (JStr (getOcrPrompt (own_prop "context" body))))];
             obj_lit [("type", Some (JStr (str "image_url")));
                      ("image_url", Some (obj_lit
                         [("url", Some (JStr
                             (str "data:" ++ ToString (own_prop "mimeType" body)
                              ++ str ";base64,"
                              ++ ToString (own_prop "image" body))))]))]]))]]));
     ("stream", Some (JBool true))].

Definition handleOpenAICompatibleStream (body : JSON) (apiUrl model : string)
    (apiKey : jsstring) : M unit :=
  let payload := openai_stream_payload body model in
  apiResponse <- fetch (str apiUrl) (bearer_headers apiKey) payload ;;
  check_ok "API error: " apiResponse ;;;
  res_setHeader "Content-Type" [str "text/plain; charset=utf-8"] ;;;
  reader <- getReader apiResponse ;;
  openai_loop (reads reader) (finish reader) new_TextDecoder [].

(** *** The Gemini stream relay *)

(** [chunk.replace(/^data: /, '')] *)
Definition strip_data_prefix (chunk : jsstring) : jsstring :=
  if startsWith (str "data: ") chunk then drop 6 chunk else chunk.

(** The [try] of one read: the whole decoded chunk is one JSON text. *)
Definition gemini_chunk (chunk : jsstring) : M unit :=
  try_catch
    (jsonArray <- JSON_parse_call (strip_data_prefix chunk) ;;
     first <- get_index 0 (Some jsonArray) ;;
     let textChunk :=
       opt_prop "text" (opt_index 0 (opt_prop "parts" (opt_prop "content"
         (opt_index 0 (opt_prop "candidates" first))))) in
     if truthy textChunk then res_write textChunk else ret tt)
    (fun _ => console_error "Error parsing Gemini stream chunk:").

Fixpoint gemini_loop (rs : list (list Byte.byte)) (fin : ReadEnd)
    (decoder : TextDecoder) : M unit :=
  match rs with
  | [] =>
      match fin with
      | EndOfStream => ret tt
      | ReadFails e => throw e
      end
  | value :: rs' =>
      let '(decoder', chunk) := decode decoder value false in
      gemini_chunk chunk ;;;
      gemini_loop rs' fin decoder'
  end.

Definition gemini_stream_url (apiKey : jsstring) : jsstring :=
  str "https://generativelanguage.googleapis.com/v1beta/models/gemini-pro-vision:streamGenerateContent?key="
  ++ apiKey.

Definition gemini_stream_payload (body : JSON) : JSON :=
  obj_lit
    [("contents", Some (JArr [obj_lit
        [("parts", Some (JArr
            [obj_lit [("text", Some (JStr (getOcrPrompt (own_prop "context" body))))];
             obj_lit [("inline_data", Some (obj_lit
                         [("mime_type", own_prop "mimeType" body);
                          ("data", own_prop "image" body)]))]]))]]))].

Definition handleGeminiStream (body : JSON) (apiKey : jsstring) : M unit :=
  let payload := gemini_stream_payload body in
  apiResponse <- fetch (gemini_stream_url apiKey) json_headers payload ;;
  check_ok "Gemini API error: " apiResponse ;;;
  res_setHeader "Content-Type" [str "text/plain; charset=utf-8"] ;;;
  reader <- getReader apiResponse ;;
  gemini_loop (reads reader) (finish reader) new_TextDecoder.

(** *** The text-task handlers *)

Definition text_prompt (body : JSON) : JSValue :=
  getTextTaskPrompt (own_prop "task" body) (own_prop "text" body).

Definition openai_text_payload (body : JSON) (model : string) : JSON :=
  obj_lit
    [("model", Some (JStr (str model)));
     ("messages", Some (JArr [obj_lit
        [("role", Some (JStr (str "user")));
         ("content", text_prompt body)]]));
     ("stream", Some (JBool false))].

Definition handleOpenAICompatibleText (body : JSON) (apiUrl model : string)
    (apiKey : jsstring) : M JSON :=
  let payload := openai_text_payload body model in
  apiResponse <- fetch (str apiUrl) (bearer_headers apiKey) payload ;;
  check_ok "API error: " apiResponse ;;;
  json <- response_json apiResponse ;;
  choices <- get_prop "choices" (Some json) ;;
  first <- get_index 0 choices ;;
  content <- opt_trim (opt_prop "content" (opt_prop "message" first)) ;;
  ret (or_empty content).

Definition gemini_text_url (apiKey : jsstring) : jsstring :=
  str "https://generativelanguage.googleapis.com/v1beta/models/gemini-1.5-flash:generateContent?key="
  ++ apiKey.

Definition gemini_text_payload (body : JSON) : JSON :=
  obj_lit
    [("contents", Some (JArr [obj_lit
        [("parts", Some (JArr [obj_lit [("text", text_prompt body)]]))]]))].

Definition handleGeminiText (body : JSON) (apiKey : jsstring) : M JSON :=
  let payload := gemini_text_payload body in
  apiResponse <- fetch (gemini_text_url apiKey) json_headers payload ;;
  check_ok "Gemini API error: " apiResponse ;;;
  json <- response_json apiResponse ;;
  candidates <- get_prop "candidates" (Some json) ;;
  text <- opt_trim (opt_prop "text" (opt_index 0 (opt_prop "parts"
            (opt_prop "content" (opt_index 0 candidates))))) ;;
  ret (or_empty text).

(** *** The main handler *)

Inductive Provider := Gemini | Deepseek | OpenAI.

(** [switch (body.llm)]: strict equality with the two string cases,
    everything else falls to [case 'gemini': default:]. *)
Definition select_provider (llm : JSValue) : Provider :=
  match llm with
  | Some (JStr s) =>
      if jsstring_eqb s (str "deepseek") then Deepseek
      else if jsstring_eqb s (str "openai") then OpenAI
      else Gemini
  | _ => Gemini
  end.

Definition credential_name (p : Provider) : string :=
  match p with
  | Gemini => "GEMINI_API_KEY"
  | Deepseek => "DEEPSEEK_API_KEY"
  | OpenAI => "OPENAI_API_KEY"
  end.

(** [const k = process.env.X; if (!k) throw new Error('X is not configured.')] *)
Definition require_key (p : Provider) : M jsstring :=
  match env !! credential_name p with
  | Some ((_ :: _) as k) => ret k
  | _ => throw (JsError (str (credential_name p) ++ str " is not configured."))
  end.

(** The text route; [body] is [req.body], known not to be null. *)
Definition text_route (body : JSON) : M unit :=
  result <-
    match select_provider (own_prop "llm" body) with
    | Deepseek =>
        deepseekApiKey <- require_key Deepseek ;;
        handleOpenAICompatibleText body "https://api.deepseek.com/chat/completions"
          "deepseek-chat" deepseekApiKey
    | OpenAI =>
        openaiApiKey <- require_key OpenAI ;;
        handleOpenAICompatibleText body "https://api.openai.com/v1/chat/completions"
          "gpt-4o-mini" openaiApiKey
    | Gemini =>
        geminiApiKey <- require_key Gemini ;;
        handleGeminiText body geminiApiKey
    end ;;
  res_status 200 ;;;
  res_send (JObj [(str "result", result)]).

(** The OCR route. *)
Definition image_route (body : JSON) : M unit :=
  match select_provider (own_prop "llm" body) with
  | Deepseek =>
      deepseekApiKey <- require_key Deepseek ;;
      handleOpenAICompatibleStream body "https://api.deepseek.com/chat/completions"
        "deepseek-vl-chat" deepseekApiKey
  | OpenAI =>
      openaiApiKey <- require_key OpenAI ;;
      handleOpenAICompatibleStream body "https://api.openai.com/v1/chat/completions"
        "gpt-4o" openaiApiKey
  | Gemini =>
      geminiApiKey <- require_key Gemini ;;
      handleGeminiStream body geminiApiKey
  end ;;;
  res_end.

(** [error instanceof Error ? error.message : "An unknown error occurred."] *)
Definition errorMessage (e : exn) : jsstring :=
  match e with
  | JsError m => m
  | NonError => str "An unknown error occurred."
  end.

Definition error_body (msg : jsstring) : JSON :=
  JObj [(str "error", JStr msg)].

(** The [try] block of the handler.  The first read of [req.body]
    throws when the body is null or undefined; after it the body is a
    value and its properties are read freely. *)
Definition handler_try (req : Request) : M unit :=
  match req_body req with
  | None | Some JNull => engine_throw NullishRead
  | Some body =>
      if truthy (own_prop "task" body) && truthy (own_prop "text" body) then
        text_route body
      else if truthy (own_prop "image" body) then
        image_route body
      else
        res_status 400 ;;;
        res_send (error_body (str "Invalid request body."))
  end.

(** The [catch] block of the handler. *)
Definition handler_catch (error : exn) : M unit :=
  console_error "Error in Vercel Serverless Function:" ;;;
  r <- get_res ;;
  if negb (headersSent r) then
    res_status 500 ;;;
    res_send (error_body (str "Error processing your request: " ++ errorMessage error))
  else
    console_error "Error occurred mid-stream. Closing connection." ;;;
    res_end.

Definition handler (req : Request) : M unit :=
  if negb (bool_decide (method req = Some (str "POST"))) then
    res_setHeader "Allow" [str "POST"] ;;;
    res_status 405 ;;;
    res_send (error_body (str "Method Not Allowed"))
  else
    try_catch (handler_try req) handler_catch.

(** One request served from a fresh response object. *)
Definition serve (req : Request) : World :=
  fst (handler req new_World).

End Backend.

(** ** The client generator [extractTextFromImageStream]

    A run of the generator: the chunks it yields, in order, and how it
    finishes (a return, or the error it throws). *)

Definition Generated : Type := list jsstring * (exn + unit).

Fixpoint client_loop (rs : list (list Byte.byte)) (fin : ReadEnd)
    (decoder : TextDecoder) : Generated :=
  match rs with
  | [] =>
      match fin with
      | EndOfStream => ([], inr tt)
      | ReadFails e => ([], inl e)
      end
  | value :: rs' =>
      let '(decoder', chunk) := decode decoder value false in
      let '(chunks, r) := client_loop rs' fin decoder' in
      (chunk :: chunks, r)
  end.

(** The body of the POST to [/api/extract-text]. *)
Definition extract_request (base64String mimeType context quality llm : jsstring)
  : JSON :=
  JObj [(str "image", JStr base64String); (str "mimeType", JStr mimeType);
        (str "context", JStr context); (str "quality", JStr quality);
        (str "llm", JStr llm)].

(** The [try] block.  [preprocessed] is what [preprocessImage] settles
    with, [backend] what [fetch] settles with for a request body. *)
Definition extract_try (preprocessed : exn + jsstring * jsstring)
    (context quality llm : jsstring) (backend : JSON -> exn + Response)
  : Generated :=
  match preprocessed with
  | inl e => ([], inl e)
  | inr (base64String, mimeType) =>
      match backend (extract_request base64String mimeType context quality llm) with
      | inl e => ([], inl e)
      | inr r =>
          if negb (ok r) then
            match body_text r with
            | inl e => ([], inl e)
            | inr errorText =>
                ([], inl (JsError (str "Backend error: " ++ show_N (status r)
                                   ++ str " " ++ errorText)))
            end
          else
            match body r with
            | None => ([], inl (JsError (str "Response body is empty.")))
            | Some b => client_loop (reads b) (finish b) new_TextDecoder
            end
      end
  end.

(** The [catch] block rethrows under a new message. *)
Definition extract_catch (e : exn) : exn :=
  match e with
  | JsError m => JsError (str "Extraction failed: " ++ m)
  | NonError => JsError (str "An unknown error occurred during text extraction.")
  end.

Definition extractTextFromImageStream (preprocessed : exn + jsstring * jsstring)
    (context quality llm : jsstring) (backend : JSON -> exn + Response)
  : Generated :=
  let '(chunks, r) := extract_try preprocessed context quality llm backend in
  (chunks, match r with inl e => inl (extract_catch e) | inr u => inr u end).

(** ** The binarization loop of [preprocessImage]

    [data] is the [Uint8ClampedArray] of [getImageData]: four bytes
    (red, green, blue, alpha) for every pixel. *)

(** [(sum / 3) > 128] in IEEE double arithmetic, for the sum of the
    three channels. *)
Definition avg_of_sum (sum : N) : float :=
  PrimFloat.div (PrimFloat.of_uint63 (Uint63.of_Z (Z.of_N sum))) 3%float.

Definition avg_gt_128 (sum : N) : bool :=
  PrimFloat.ltb 128%float (avg_of_sum sum).

(** One pass of the loop body at index [i].  A read past the end is
    [undefined], which makes the average NaN and the test false; a write
    past the end of a typed array is dropped. *)
Definition binarize_pixel (data : list Byte.byte) (i : nat) : list Byte.byte :=
  let color :=
    match data !! i, data !! (i + 1), data !! (i + 2) with
    | Some r, Some g, Some b =>
        if avg_gt_128 (Byte.to_N r + Byte.to_N g + Byte.to_N b) then Byte.xff
        else Byte.x00
    | _, _, _ => Byte.x00
    end in
  <[i + 2 := color]> (<[i + 1 := color]> (<[i := color]> data)).

(** [for (let i = 0; i < data.length; i += 4)] *)
Fixpoint binarize_from (fuel i : nat) (data : list Byte.byte) : list Byte.byte :=
  match fuel with
  | O => data
  | S fuel' =>
      if i <? length data then binarize_from fuel' (i + 4) (binarize_pixel data i)
      else data
  end.

Definition binarize (data : list Byte.byte) : list Byte.byte :=
  binarize_from (length data) 0 data.

(** ** A reference [JSON.parse]

    A recursive-descent reader of ECMA-404 texts, used to run the
    handlers on concrete streams.  The theorems below hold for every
    [JSON_parse]; this one instantiates them. *)

Module RefJSON.
Local Open Scope N_scope.

Definition is_ws (c : N) : bool :=
  (c =? 32) || (c =? 9) || (c =? 10) || (c =? 13).

Fixpoint skip_ws (s : jsstring) : jsstring :=
  match s with
  | c :: s' => if is_ws c then skip_ws s' else s
  | [] => []
  end.

Definition is_digit (c : N) : bool := (48 <=? c) && (c <=? 57).

Definition hex_value (c : N) : option N :=
  if is_digit c then Some (c - 48)
  else if (65 <=? c) && (c <=? 70) then Some (c - 55)
  else if (97 <=? c) && (c <=? 102) then Some (c - 87)
  else None.

(** A run of digits: its value, its length, and what follows. *)
Fixpoint read_digits (s : jsstring) (acc : N) (len : nat) : N * nat * jsstring :=
  match s with
  | c :: s' => if is_digit c then read_digits s' (10 * acc + (c - 48)) (S len)
               else (acc, len, s)
  | [] => (acc, len, [])
  end.

Definition pow10 (k : nat) : Z := Z.pow 10 (Z.of_nat k).

(** [-? int frac? exp?] *)
Definition read_number (s : jsstring) : option (Q * jsstring) :=
  let '(neg, s1) := match s with
                    | 45 :: r => (true, r)
                    | _ => (false, s)
                    end in
  let '(int, ilen, s2) := read_digits s1 0 0%nat in
  let leading_zero := match s1 with 48 :: _ => Nat.ltb 1 ilen | _ => false end in
  if Nat.eqb ilen 0 || leading_zero then None else
  let frac :=
    match s2 with
    | 46 :: r =>
        let '(f, flen, s3) := read_digits r 0 0%nat in
        if Nat.eqb flen 0 then None else Some (f, flen, s3)
    | _ => Some (0, 0%nat, s2)
    end in
  match frac with
  | None => None
  | Some (f, flen, s3) =>
      let exp :=
        match s3 with
        | 69 :: r | 101 :: r =>
            let '(eneg, r1) := match r with
                               | 45 :: r' => (true, r')
                               | 43 :: r' => (false, r')
                               | _ => (false, r)
                               end in
            let '(e, elen, s4) := read_digits r1 0 0%nat in
            if Nat.eqb elen 0 then None else Some (eneg, N.to_nat e, s4)
        | _ => Some (false, 0%nat, s3)
        end in
      match exp with
      | None => None
      | Some (eneg, e, s4) =>
          let mant := (Z.of_N int * pow10 flen + Z.of_N f)%Z in
          let mant := if neg then Z.opp mant else mant in
          let q := Qmake mant (Z.to_pos (pow10 flen)) in
          let scale := inject_Z (pow10 e) in
          Some (Qred (if eneg then Qdiv q scale else Qmult q scale), s4)
      end
  end.

Definition read_hex4 (s : jsstring) : option (N * jsstring) :=
  match s with
  | a :: b :: c :: d :: r =>
      match hex_value a, hex_value b, hex_value c, hex_value d with
      | Some x, Some y, Some z, Some w => Some (4096 * x + 256 * y + 16 * z + w, r)
      | _, _, _, _ => None
      end
  | _ => None
  end.

(** The characters of a string, after the opening quote. *)
Fixpoint read_string (fuel : nat) (s : jsstring) : option (jsstring * jsstring) :=
  match fuel with
  | O => None
  | S fuel' =>
      match s with
      | [] => None
      | 34 :: r => Some ([], r)
      | 92 :: e :: r =>
          let continue c r' :=
            match read_string fuel' r' with
            | Some (t, rest) => Some (c :: t, rest)
            | None => None
            end in
          match e with
          | 34 => continue 34 r
          | 92 => continue 92 r
          | 47 => continue 47 r
          | 98 => continue 8 r
          | 102 => continue 12 r
          | 110 => continue 10 r
          | 114 => continue 13 r
          | 116 => continue 9 r
          | 117 => match read_hex4 r with
                   | Some (c, r') => continue c r'
                   | None => None
                   end
          | _ => None
          end
      | c :: r =>
          if c <? 32 then None
          else match read_string fuel' r with
               | Some (t, rest) => Some (c :: t, rest)
               | None => None
               end
      end
  end.

Definition read_literal (word : string) (v : JSON) (s : jsstring)
  : option (JSON * jsstring) :=
  if startsWith (str word) s then Some (v, drop (String.length word) s) else None.

Fixpoint read_value (fuel : nat) (s : jsstring) : option (JSON * jsstring) :=
  match fuel with
  | O => None
  | S fuel' =>
      match skip_ws s with
      | 123 :: r =>
          match skip_ws r with
          | 125 :: r' => Some (JObj [], r')
          | r' => read_members fuel' r' []
          end
      | 91 :: r =>
          match skip_ws r with
          | 93 :: r' => Some (JArr [], r')
          | r' => read_elements fuel' r' []
          end
      | 34 :: r =>
          match read_string (S (length r)) r with
          | Some (t, rest) => Some (JStr t, rest)
          | None => None
          end
      | (116 :: _) as s' => read_literal "true" (JBool true) s'
      | (102 :: _) as s' => read_literal "false" (JBool false) s'
      | (110 :: _) as s' => read_literal "null" JNull s'
      | s' =>
          match read_number s' with
          | Some (q, rest) => Some (JNum q, rest)
          | None => None
          end
      end
  end
with read_elements (fuel : nat) (s : jsstring) (acc : list JSON)
  : option (JSON * jsstring) :=
  match fuel with
  | O => None
  | S fuel' =>
      match read_value fuel' s with
      | Some (v, rest) =>
          match skip_ws rest with
          | 44 :: r => read_elements fuel' r (acc ++ [v])
          | 93 :: r => Some (JArr (acc ++ [v]), r)
          | _ => None
          end
      | None => None
      end
  end
with read_members (fuel : nat) (s : jsstring) (acc : list (jsstring * JSON))
  : option (JSON * jsstring) :=
  match fuel with
  | O => None
  | S fuel' =>
      match skip_ws s with
      | 34 :: r =>
          match read_string (S (length r)) r with
          | Some (k, rest) =>
              match skip_ws rest with
              | 58 :: r1 =>
                  match read_value fuel' r1 with
                  | Some (v, rest1) =>
                      match skip_ws rest1 with
                      | 44 :: r2 => read_members fuel' r2 (acc ++ [(k, v)])
                      | 125 :: r2 => Some (JObj (acc ++ [(k, v)]), r2)
                      | _ => None
                      end
                  | None => None
                  end
              | _ => None
              end
          | None => None
          end
      | _ => None
      end
  end.

(** The whole text must be one value, white space around it allowed. *)
Definition parse (s : jsstring) : option JSON :=
  match read_value (S (length s)) s with
  | Some (v, rest) => match skip_ws rest with [] => Some v | _ => None end
  | None => None
  end.

End RefJSON.

(** ** OpenAI-compatible SSE streams, as the provider documents them

    An event is a [data: <json>] line followed by an empty line; the
    stream closes with [data: [DONE]]. *)

Inductive frame :=
| Data (payload : jsstring)    (* data: <payload> *)
| Done                         (* data: [DONE] *)
| Blank.                       (* the empty line that ends an event *)

(** The line of a frame, without its terminator. *)
Definition render (f : frame) : jsstring :=
  match f with
  | Data payload => str "data: " ++ payload
  | Done => str "data: [DONE]"
  | Blank => []
  end.

Definition sse_text (frames : list frame) : jsstring :=
  flat_map (fun f => render f ++ [LF]) frames.

(** [choices[0].delta.content] of a chat-completion chunk. *)
Definition delta_content (j : JSON) : JSValue :=
  opt_prop "content" (opt_prop "delta" (opt_index 0 (own_prop "choices" j))).

(** A chunk has an array of choices, and the content of its first delta,
    when there is one, is a string (or null). *)
Definition chunk_well_formed (j : JSON) : bool :=
  match own_prop "choices" j with
  | Some (JArr _) =>
      match delta_content j with
      | None | Some JNull | Some (JStr _) => true
      | Some _ => false
      end
  | _ => false
  end.

Definition has_LF (s : jsstring) : bool := existsb (N.eqb LF) s.

Definition is_sentinel (payload : jsstring) : bool :=
  jsstring_eqb (trim payload) (str "[DONE]").

(** [first_text] of a Gemini chunk:
    [[0].candidates[0].content.parts[0].text]. *)
Definition gemini_text (j : JSON) : JSValue :=
  opt_prop "text" (opt_index 0 (opt_prop "parts" (opt_prop "content"
    (opt_index 0 (opt_prop "candidates" (own_index 0 j)))))).

Section Frames.

Variable JSON_parse : jsstring -> option JSON.

(** A data frame is one line, is not the sentinel, and carries a
    well-formed chunk. *)
Definition frame_well_formed (f : frame) : bool :=
  match f with
  | Data payload =>
      negb (has_LF payload) && negb (is_sentinel payload) &&
      match JSON_parse payload with
      | Some j => chunk_well_formed j
      | None => false
      end
  | Done | Blank => true
  end.

(** The [delta.content] a frame contributes. *)
Definition frame_content (f : frame) : jsstring :=
  match f with
  | Data payload =>
      match JSON_parse payload with
      | Some j => match delta_content j with
                  | Some (JStr s) => s
                  | _ => []
                  end
      | None => []
      end
  | Done | Blank => []
  end.

(** The payloads of the data frames, in order. *)
Definition payloads (frames : list frame) : list jsstring :=
  flat_map (fun f => match f with Data p => [p] | _ => [] end) frames.

(** A data frame that delivers a non-empty fragment. *)
Definition frame_delivers (f : frame) : bool :=
  match f with
  | Data payload =>
      negb (has_LF payload) && negb (is_sentinel payload) &&
      match JSON_parse payload with
      | Some j => chunk_well_formed j &&
                  match delta_content j with
                  | Some (JStr (_ :: _)) => true
                  | _ => false
                  end
      | None => false
      end
  | Done | Blank => false
  end.

(** A data frame whose payload is not JSON. *)
Definition frame_malformed (f : frame) : bool :=
  match f with
  | Data payload =>
      negb (has_LF payload) && negb (is_sentinel payload) &&
      match JSON_parse payload with
      | Some _ => false
      | None => true
      end
  | Done | Blank => false
  end.

(** The same for the reads of a Gemini stream, each one frame. *)
Definition read_text (value : list Byte.byte) : jsstring :=
  strip_data_prefix (decode_all value).

Definition read_delivers (value : list Byte.byte) : bool :=
  match JSON_parse (read_text value) with
  | Some j => match gemini_text j with
              | Some (JStr (_ :: _)) => true
              | _ => false
              end
  | None => false
  end.

Definition read_malformed (value : list Byte.byte) : bool :=
  match JSON_parse (read_text value) with
  | Some _ => false
  | None => true
  end.

Definition read_content (value : list Byte.byte) : jsstring :=
  match JSON_parse (read_text value) with
  | Some j => match gemini_text j with
              | Some (JStr s) => s
              | _ => []
              end
  | None => []
  end.

End Frames.

(** ** What a run leaves behind

    The response after the fragments [ws] were written to it, and the
    world after a run that wrote [ws], gave [ps] to [JSON.parse] and
    logged [ls]. *)

Definition res_wrote (ws : list jsstring) (r : Res) : Res :=
  mkRes (headersSent r || negb (bool_decide (ws = [])))
        (statusCode r) (headers r) (written r ++ ws) (sent r) (ended r).

Definition effect (ws ps ls : list jsstring) (w : World) : World :=
  mkWorld (res_wrote ws (res w)) (fetched w) (parsed w ++ ps) (logged w ++ ls).

(** The fragment a content value gives rise to: none when it is empty. *)
Definition fragment_of (content : jsstring) : list jsstring :=
  match content with
  | [] => []
  | _ :: _ => [content]
  end.

(** The world once the upstream has answered [url] with success and the
    content type of the stream is set. *)
Definition streaming (call : Call) (w : World) : World :=
  mkWorld (mkRes (headersSent (res w)) (statusCode (res w))
                 (headers (res w)
                  ++ [(str "Content-Type", [str "text/plain; charset=utf-8"])])
                 (written (res w)) (sent (res w)) (ended (res w)))
          (fetched w ++ [call]) (parsed w) (logged w).

(** The data frames of a stream, and the lines that carry none. *)
Definition is_data (f : frame) : bool :=
  match f with Data _ => true | Done | Blank => false end.

Definition data_frames (frames : list frame) : list frame :=
  List.filter is_data frames.

Definition frame_inert (f : frame) : bool := negb (is_data f).

(** The response after [res.status(code).send(payload)], and after
    [res.end()]. *)
Definition replied (code : N) (payload : JSON) (r : Res) : Res :=
  mkRes true code (headers r) (written r) (Some payload) true.

Definition closed (r : Res) : Res :=
  mkRes true (statusCode r) (headers r) (written r) (sent r) true.

(** The world after the handler's [catch] answered a failure that came
    before any header was sent. *)
Definition failed (message : jsstring) (w : World) : World :=
  mkWorld (replied 500 (error_body (str "Error processing your request: " ++ message))
                   (res w))
          (fetched w) (parsed w)
          (logged w ++ [str "Error in Vercel Serverless Function:"]).

(** The prefix of the error a provider's non-success status raises. *)
Definition upstream_error_label (p : Provider) : string :=
  match p with
  | Gemini => "Gemini API error: "
  | Deepseek | OpenAI => "API error: "
  end.

(** The chat model each provider is asked for, per mode. *)
Definition stream_model (p : Provider) : string :=
  match p with
  | Deepseek => "deepseek-vl-chat"
  | OpenAI => "gpt-4o"
  | Gemini => "gemini-pro-vision"
  end.

Definition text_model (p : Provider) : string :=
  match p with
  | Deepseek => "deepseek-chat"
  | OpenAI => "gpt-4o-mini"
  | Gemini => "gemini-1.5-flash"
  end.

(** The endpoint each provider's handler calls, per mode. *)
Definition stream_url (p : Provider) (key : jsstring) : jsstring :=
  match p with
  | Deepseek => str "https://api.deepseek.com/chat/completions"
  | OpenAI => str "https://api.openai.com/v1/chat/completions"
  | Gemini => gemini_stream_url key
  end.

Definition text_url (p : Provider) (key : jsstring) : jsstring :=
  match p with
  | Deepseek => str "https://api.deepseek.com/chat/completions"
  | OpenAI => str "https://api.openai.com/v1/chat/completions"
  | Gemini => gemini_text_url key
  end.

(** A computation that calls no upstream. *)
Definition quiet {A} (m : M A) : Prop :=
  forall w, fetched (fst (m w)) = fetched w.

(** The credential of a provider is missing: unset, or set to the empty
    string. *)
Definition key_missing (env : gmap string jsstring) (p : Provider) : Prop :=
  env !! credential_name p = None \/ env !! credential_name p = Some [].

Section Providers.

Variable JSON_parse : jsstring -> option JSON.
Variable engine_message : engine_error -> jsstring.
Variable number_to_string : Q -> jsstring.
Variable upstream : Call -> exn + Response.

(** The handler a provider's [case] calls, once its key is read. *)
Definition stream_handler (p : Provider) (body : JSON) (key : jsstring) : M unit :=
  match p with
  | Deepseek =>
      handleOpenAICompatibleStream JSON_parse engine_message number_to_string
        upstream body "https://api.deepseek.com/chat/completions"
        "deepseek-vl-chat" key
  | OpenAI =>
      handleOpenAICompatibleStream JSON_parse engine_message number_to_string
        upstream body "https://api.openai.com/v1/chat/completions" "gpt-4o" key
  | Gemini =>
      handleGeminiStream JSON_parse engine_message upstream body key
  end.

Definition text_handler (p : Provider) (body : JSON) (key : jsstring) : M JSON :=
  match p with
  | Deepseek =>
      handleOpenAICompatibleText JSON_parse engine_message number_to_string
        upstream body "https://api.deepseek.com/chat/completions"
        "deepseek-chat" key
  | OpenAI =>
      handleOpenAICompatibleText JSON_parse engine_message number_to_string
        upstream body "https://api.openai.com/v1/chat/completions"
        "gpt-4o-mini" key
  | Gemini =>
      handleGeminiText JSON_parse engine_message number_to_string upstream body key
  end.

(** The call each stream handler makes. *)
Definition stream_call (p : Provider) (body : JSON) (key : jsstring) : Call :=
  match p with
  | Gemini =>
      mkCall (gemini_stream_url key) (str "POST") json_headers
             (gemini_stream_payload body)
  | Deepseek | OpenAI =>
      mkCall (stream_url p key) (str "POST") (bearer_headers key)
             (openai_stream_payload number_to_string body (stream_model p))
  end.

(** The read loop a provider's stream handler runs. *)
Definition stream_loop (p : Provider) (rs : list (list Byte.byte))
    (fin : ReadEnd) : M unit :=
  match p with
  | Gemini => gemini_loop JSON_parse engine_message rs fin new_TextDecoder
  | Deepseek | OpenAI =>
      openai_loop JSON_parse engine_message rs fin new_TextDecoder []
  end.

End Providers.

(** ** Sample inputs

    Concrete streams, requests and environments on which the handlers
    are run. *)

Module Sample.

Definition engine (e : engine_error) : jsstring := str "TypeError".

(** JSON texts are written with apostrophes where they have double
    quotes. *)
Fixpoint quoted (s : string) : string :=
  match s with
  | EmptyString => EmptyString
  | String c s' =>
      String (if Ascii.eqb c "'"%char then Ascii.ascii_of_nat 34 else c) (quoted s')
  end.

(** Two chunks; the first holds U+00E9. *)
Definition payload_1 : jsstring :=
  str (quoted "{'choices':[{'delta':{'content':'Caf") ++ [0xE9%N]
  ++ str (quoted "'}}]}").

Definition payload_2 : jsstring :=
  str (quoted "{'choices':[{'delta':{'content':' au lait'}}]}").

Definition payload_lost : jsstring :=
  str (quoted "{'choices':[{'delta':{'content':'lost'}}]}").

Definition frames : list frame :=
  [Data payload_1; Blank; Data payload_2; Blank; Done; Blank].

(** The bytes of [frames] on the wire: the source text is UTF-8, so the
    literal below holds U+00E9 as the two bytes C3 A9, at offsets 42
    and 43. *)
Definition wire : list Byte.byte :=
  bytes (quoted "data: {'choices':[{'delta':{'content':'Café'}}]}

data: {'choices':[{'delta':{'content':' au lait'}}]}

data: [DONE]

").

(** Three reads, the second ending between the two bytes of U+00E9. *)
Definition reads : list (list Byte.byte) :=
  [take 10 wire; take 33 (drop 10 wire); drop 43 wire].

(** The same stream with a frame that is not JSON in the middle. *)
Definition broken : frame := Data (str (quoted "{'choices':[{'delta':")).

Definition wire_broken : list Byte.byte :=
  bytes (quoted "data: {'choices':[{'delta':{'content':'Café'}}]}

data: {'choices':[{'delta':
data: {'choices':[{'delta':{'content':' au lait'}}]}

data: [DONE]

").

Definition reads_broken : list (list Byte.byte) :=
  [take 43 wire_broken; drop 43 wire_broken].

(** A stream whose last line has no line feed after it. *)
Definition wire_unterminated : list Byte.byte :=
  bytes (quoted "data: {'choices':[{'delta':{'content':' au lait'}}]}
data: {'choices':[{'delta':{'content':'lost'}}]}").

(** A stream of one fragment. *)
Definition wire_short : list Byte.byte :=
  bytes (quoted "data: {'choices':[{'delta':{'content':'Hi'}}]}
").

(** Gemini reads, each a JSON array. *)
Definition gemini_read (text : string) : list Byte.byte :=
  bytes (quoted ("[{'candidates':[{'content':{'parts':[{'text':'"
                 ++ text ++ "'}]}}]}]")).

Definition gemini_broken : list Byte.byte := bytes (quoted "[{'candidates':[{'con").

(** Requests and environments. *)
Definition post (fields : list (jsstring * JSON)) : Request :=
  mkRequest (Some (str "POST")) (Some (JObj fields)).

Definition ocr_body (llm : string) : JSON :=
  JObj [(str "image", JStr (str "AAAA")); (str "mimeType", JStr (str "image/png"));
        (str "llm", JStr (str llm))].

Definition ocr_request (llm : string) : Request :=
  mkRequest (Some (str "POST")) (Some (ocr_body llm)).

Definition no_keys : gmap string jsstring := ∅.

Definition all_keys : gmap string jsstring :=
  {[ "GEMINI_API_KEY"%string := str "g-key";
     "DEEPSEEK_API_KEY"%string := str "d-key";
     "OPENAI_API_KEY"%string := str "o-key" ]}.

(** An upstream that answers every call the same way. *)
Definition answers (st : N) (rs : list (list Byte.byte)) (fin : ReadEnd)
  : Call -> exn + Response :=
  fun _ => inr (mkResponse st (Some (mkBody rs fin))).

Definition unreachable : Call -> exn + Response :=
  fun _ => inl (JsError (str "fetch failed")).

(** Whole numbers printed in base 10; the samples hold no other. *)
Definition number (q : Q) : jsstring :=
  match Qnum q with
  | Z.neg n => str "-" ++ show_N (Npos n)
  | z => show_N (Z.to_N z)
  end.

(** Two pixels of image data. *)
Definition pixels : list Byte.byte :=
  [Byte.x80; Byte.x80; Byte.x81; Byte.x07; Byte.x80; Byte.x80; Byte.x80; Byte.x09].

End Sample.

(** ** The calls of the text handlers, and computations that leave the
    world as it is *)

Section TextCalls.

Variable number_to_string : Q -> jsstring.

(** The call each text handler makes. *)
Definition text_call (p : Provider) (body : JSON) (key : jsstring) : Call :=
  match p with
  | Gemini =>
      mkCall (gemini_text_url key) (str "POST") json_headers
             (gemini_text_payload number_to_string body)
  | Deepseek | OpenAI =>
      mkCall (text_url p key) (str "POST") (bearer_headers key)
             (openai_text_payload number_to_string body (text_model p))
  end.

End TextCalls.

Definition untouched {A} (m : M A) : Prop :=
  forall w, fst (m w) = w.

(** A string with no white space at either end. *)
Definition trimmed (s : jsstring) : Prop :=
  forall c, head s = Some c \/ last s = Some c -> is_js_space c = false.

(** Every value a computation returns satisfies [P]. *)
Definition returns {A} (m : M A) (P : A -> Prop) : Prop :=
  forall w w' v, m w = (w', inr v) -> P v.

(** The value a provider's answer holds at the path its text handler
    reads: [choices[0]?.message?.content], and
    [candidates?.[0]?.content?.parts?.[0]?.text].  Where a step of the
    handler's path is not optional and meets a nullish value, the
    handler throws and the value here is [undefined]. *)
Definition text_answer (p : Provider) (json : JSON) : JSValue :=
  match p with
  | Gemini =>
      opt_prop "text" (opt_index 0 (opt_prop "parts" (opt_prop "content"
        (opt_index 0 (own_prop "candidates" json)))))
  | Deepseek | OpenAI =>
      opt_prop "content" (opt_prop "message"
        (opt_index 0 (own_prop "choices" json)))
  end.

(** The statuses the handler answers with. *)
Definition handler_status (code : N) : Prop :=
  code = 200%N \/ code = 400%N \/ code = 405%N \/ code = 500%N.

(** The fragments of a stream are non-empty strings. *)
Definition fragments (ws : list jsstring) : Prop :=
  Forall (fun s : jsstring => s <> []) ws.

(** Bytes of the ASCII range. *)
Definition is_ascii (b : Byte.byte) : bool := (Byte.to_N b <=? 0x7F)%N.

(** ** The client call [processTextWithAI] *)

Section TextClient.

Variable JSON_parse : jsstring -> option JSON.
Variable engine_message : engine_error -> jsstring.

(** The body of the POST to [/api/extract-text]. *)
Definition process_request (text task llm : jsstring) : JSON :=
  JObj [(str "text", JStr text); (str "task", JStr task); (str "llm", JStr llm)].

(** The [try] block: what the call returns, or the error it throws.
    [data.result] of a body that is not an object with a [result] is
    [undefined]; of [null], it throws. *)
Definition process_try (text task llm : jsstring)
    (backend : JSON -> exn + Response) : exn + JSValue :=
  match backend (process_request text task llm) with
  | inl e => inl e
  | inr response =>
      if negb (ok response) then
        match body_text response with
        | inl e => inl e
        | inr errorText =>
            inl (JsError (str "AI processing error: " ++ show_N (status response)
                          ++ str " " ++ errorText))
        end
      else
        match body_text response with
        | inl e => inl e
        | inr t =>
            match JSON_parse t with
            | None => inl (JsError (engine_message (JsonSyntax t)))
            | Some JNull => inl (JsError (engine_message NullishRead))
            | Some data => inr (own_prop "result" data)
            end
        end
  end.

(** The [catch] block rethrows under a new message. *)
Definition process_catch (task : jsstring) (e : exn) : exn :=
  match e with
  | JsError m => JsError (str "AI task failed: " ++ m)
  | NonError =>
      JsError (str "An unknown error occurred during AI task '" ++ task ++ str "'.")
  end.

Definition processTextWithAI (text task llm : jsstring)
    (backend : JSON -> exn + Response) : exn + JSValue :=
  match process_try text task llm backend with
  | inl e => inl (process_catch task e)
  | inr result => inr result
  end.

End TextClient.

(** ** The component [App]: its state and the handlers of an extraction

    The state is the component's [useState] cells; a handler is a
    function of the state, its updates applied in the order the handler
    queues them.  A handler that awaits is run with no other event in
    between. *)

Module File.
Record t := mk { type : jsstring; size : N }.
End File.

Module HistoryItem.
Record t := mk { id : N; timestamp : jsstring; text : jsstring }.
End HistoryItem.

Inductive ToastType := ToastSuccess | ToastError | ToastInfo.

Record Toast := mkToast {
  toast_id : N;
  toast_message : jsstring;
  toast_type : ToastType
}.

Record AppState := mkApp {
  imageUrl : option jsstring;
  documentTitle : jsstring;
  livingDocument : jsstring;
  isLoading : bool;
  isSuggestingTitle : bool;
  isSummarizing : bool;
  extractionHistory : list HistoryItem.t;
  ocrContext : jsstring;
  ocrQuality : jsstring;
  selectedLlm : jsstring;
  hasUnsavedChanges : bool;
  toast : option Toast;
  expandedHistoryId : option N
}.

(** The state of the first render. *)
Definition initial_state : AppState :=
  mkApp None (str "Untitled Document") [] false false false []
        (str "general") (str "standard") (str "gemini") false None None.

Definition setImageUrl (v : option jsstring) (st : AppState) : AppState :=
  mkApp v (documentTitle st) (livingDocument st) (isLoading st)
        (isSuggestingTitle st) (isSummarizing st) (extractionHistory st)
        (ocrContext st) (ocrQuality st) (selectedLlm st) (hasUnsavedChanges st)
        (toast st) (expandedHistoryId st).

Definition setLivingDocument (f : jsstring -> jsstring) (st : AppState) : AppState :=
  mkApp (imageUrl st) (documentTitle st) (f (livingDocument st)) (isLoading st)
        (isSuggestingTitle st) (isSummarizing st) (extractionHistory st)
        (ocrContext st) (ocrQuality st) (selectedLlm st) (hasUnsavedChanges st)
        (toast st) (expandedHistoryId st).

Definition setIsLoading (v : bool) (st : AppState) : AppState :=
  mkApp (imageUrl st) (documentTitle st) (livingDocument st) v
        (isSuggestingTitle st) (isSummarizing st) (extractionHistory st)
        (ocrContext st) (ocrQuality st) (selectedLlm st) (hasUnsavedChanges st)
        (toast st) (expandedHistoryId st).

Definition setExtractionHistory
    (f : list HistoryItem.t -> list HistoryItem.t) (st : AppState) : AppState :=
  mkApp (imageUrl st) (documentTitle st) (livingDocument st) (isLoading st)
        (isSuggestingTitle st) (isSummarizing st) (f (extractionHistory st))
        (ocrContext st) (ocrQuality st) (selectedLlm st) (hasUnsavedChanges st)
        (toast st) (expandedHistoryId st).

Definition setHasUnsavedChanges (v : bool) (st : AppState) : AppState :=
  mkApp (imageUrl st) (documentTitle st) (livingDocument st) (isLoading st)
        (isSuggestingTitle st) (isSummarizing st) (extractionHistory st)
        (ocrContext st) (ocrQuality st) (selectedLlm st) v
        (toast st) (expandedHistoryId st).

Definition setToast (v : option Toast) (st : AppState) : AppState :=
  mkApp (imageUrl st) (documentTitle st) (livingDocument st) (isLoading st)
        (isSuggestingTitle st) (isSummarizing st) (extractionHistory st)
        (ocrContext st) (ocrQuality st) (selectedLlm st) (hasUnsavedChanges st)
        v (expandedHistoryId st).

(** [showToast]; [now] is [Date.now()]. *)
Definition showToast (now : N) (message : string) (type : ToastType)
    (st : AppState) : AppState :=
  setToast (Some (mkToast now (str message) type)) st.

Definition showToast_message (now : N) (message : jsstring) (type : ToastType)
    (st : AppState) : AppState :=
  setToast (Some (mkToast now message type)) st.

(** The rule between two extractions in the document. *)
Definition separator : jsstring := str "<br><br>---<br><br>".

(** [prevDoc ? '<br><br>---<br><br>' : ''] *)
Definition separator_after (prevDoc : jsstring) : jsstring :=
  if truthy (Some (JStr prevDoc)) then separator else [].

Definition MAX_FILE_SIZE : N := 10 * 1024 * 1024.

(** The body of [for await (const chunk of stream)], over the chunks the
    stream yields; [isFirstChunk] and [fullExtractedText] are the two
    locals of the handler. *)
Fixpoint consume (chunks : list jsstring) (isFirstChunk : bool)
    (fullExtractedText : jsstring) (st : AppState) : jsstring * AppState :=
  match chunks with
  | [] => (fullExtractedText, st)
  | chunk :: rest =>
      let st1 :=
        if isFirstChunk
        then setLivingDocument (fun prevDoc => prevDoc ++ separator_after prevDoc) st
        else st in
      consume rest false (fullExtractedText ++ chunk)
              (setLivingDocument (fun prevDoc => prevDoc ++ chunk) st1)
  end.

(** [handleFileReady].  [stream context quality llm] is the run of
    [extractTextFromImageStream] on the file; [tempImageUrl] is what
    [URL.createObjectURL] returns, [now] and [stamp] are [Date.now()]
    and [new Date().toLocaleString()] when the stream has ended,
    [toast_now] is [Date.now()] when the toast is shown. *)
Definition handleFileReady (stream : jsstring -> jsstring -> jsstring -> Generated)
    (tempImageUrl : jsstring) (now : N) (stamp : jsstring) (toast_now : N)
    (file : option File.t) (st : AppState) : AppState :=
  match file with
  | None => st
  | Some file =>
      if negb (startsWith (str "image/") (File.type file)) then
        showToast toast_now "Invalid file type. Please upload an image." ToastError st
      else if (MAX_FILE_SIZE <? File.size file)%N then
        showToast toast_now "File is too large. Please upload an image under 10MB."
                  ToastError st
      else
        let st := setIsLoading true st in
        let st := setImageUrl (Some tempImageUrl) st in
        let '(chunks, outcome) :=
          stream (ocrContext st) (ocrQuality st) (selectedLlm st) in
        let '(fullExtractedText, st) := consume chunks true [] st in
        let st :=
          match outcome with
          | inr _ =>
              if truthy (Some (JStr fullExtractedText)) then
                let newHistoryItem := HistoryItem.mk now stamp fullExtractedText in
                let st := setExtractionHistory
                            (fun prevHistory => newHistoryItem :: prevHistory) st in
                let st := setHasUnsavedChanges true st in
                showToast toast_now "Text extracted successfully!" ToastSuccess st
              else
                showToast toast_now "Extraction resulted in empty text." ToastInfo st
          | inl (JsError message) => showToast_message toast_now message ToastError st
          | inl NonError => showToast toast_now "An unknown error occurred." ToastError st
          end in
        setImageUrl None (setIsLoading false st)
  end.

(** [handleAppendToDocument] *)
Definition handleAppendToDocument (now : N) (text : jsstring) (st : AppState)
  : AppState :=
  let st := setLivingDocument
              (fun prevDoc => prevDoc ++ separator_after prevDoc ++ text) st in
  let st := setHasUnsavedChanges true st in
  showToast now "Appended to document." ToastInfo st.

(** ** The simulation script [verify_deepseek_mock.js]

    Its copies of the prompt function and of the OpenAI-compatible text
    handler, run against the same [fetch]. *)

Module Mock.
Section Script.

Variable JSON_parse : jsstring -> option JSON.
Variable engine_message : engine_error -> jsstring.
Variable number_to_string : Q -> jsstring.
Variable upstream : Call -> exn + Response.

(** [case 'title': default:] share the second prompt. *)
Definition getTextTaskPrompt (task text : JSValue) : JSValue :=
  if is_string "summarize" task then
    Some (JStr (str "Summarize the following text in one or two paragraphs. Focus on the key points and main arguments. The text is: "
                ++ [quote_mark] ++ ToString number_to_string text ++ [quote_mark]))
  else
    Some (JStr (str "Generate a concise, descriptive title (5 words or less) for the following document. Do not use quotation marks in the title. The document text is: "
                ++ [quote_mark] ++ ToString number_to_string text ++ [quote_mark])).

Definition handleOpenAICompatibleText (body : JSON) (apiUrl model : string)
    (apiKeyParam : jsstring) : M JSON :=
  let payload :=
    obj_lit
      [("model", Some (JStr (str model)));
       ("messages", Some (JArr [obj_lit
          [("role", Some (JStr (str "user")));
           ("content", getTextTaskPrompt (own_prop "task" body)
                                         (own_prop "text" body))]]));
       ("stream", Some (JBool false))] in
  apiResponse <- fetch upstream (str apiUrl) (bearer_headers apiKeyParam) payload ;;
  check_ok "API error: " apiResponse ;;;
  json <- response_json JSON_parse engine_message apiResponse ;;
  choices <- get_prop engine_message "choices" (Some json) ;;
  content <- opt_trim engine_message
               (opt_prop "content" (opt_prop "message" (opt_index 0 choices))) ;;
  ret (or_empty content).

End Script.
End Mock.

(** The colour the loop body computes at index [i]. *)
Definition pixel_color (data : list Byte.byte) (i : nat) : Byte.byte :=
  match data !! i, data !! (i + 1), data !! (i + 2) with
  | Some r, Some g, Some b =>
      if avg_gt_128 (Byte.to_N r + Byte.to_N g + Byte.to_N b) then Byte.xff
      else Byte.x00
  | _, _, _ => Byte.x00
  end.

(** ** Sample inputs of the text tasks and of the component *)

Module TextSample.

Definition body (task llm : string) : JSON :=
  JObj [(str "text", JStr (str "Hello world")); (str "task", JStr (str task));
        (str "llm", JStr (str llm))].

Definition request (task llm : string) : Request :=
  mkRequest (Some (str "POST")) (Some (body task llm)).

(** The answer of an OpenAI-compatible provider to a text task. *)
Definition openai_text : jsstring :=
  str (Sample.quoted "{'choices':[{'message':{'content':'  A Title '}}]}").

Definition openai_wire : list Byte.byte :=
  bytes (Sample.quoted "{'choices':[{'message':{'content':'  A Title '}}]}").

Definition openai_json : JSON :=
  JObj [(str "choices",
         JArr [JObj [(str "message",
                      JObj [(str "content", JStr (str "  A Title "))])]])].

(** The answer of the backend to the client. *)
Definition result_text : jsstring := str (Sample.quoted "{'result':'A Title'}").
Definition result_wire : list Byte.byte :=
  bytes (Sample.quoted "{'result':'A Title'}").

Definition backend (st : N) (rs : list (list Byte.byte)) (fin : ReadEnd)
  : JSON -> exn + Response :=
  fun _ => inr (mkResponse st (Some (mkBody rs fin))).

(** A file and two streams for the component. *)
Definition image : File.t := File.mk (str "image/png") 2048.
Definition document : File.t := File.mk (str "application/pdf") 2048.

Definition chunks : list jsstring := [str "<p>Caf"; str "e</p>"].

Definition ending : jsstring -> jsstring -> jsstring -> Generated :=
  fun _ _ _ => (chunks, inr tt).

Definition failing : jsstring -> jsstring -> jsstring -> Generated :=
  fun _ _ _ => (chunks, inl (JsError (str "Extraction failed: terminated"))).

End TextSample.

(** ** [sanitizeHtml]

    The two regular expressions are matched by the functions below, one
    for each, which return the length of the match that starts at the
    head of their argument.  Neither expression looks behind the start
    of a match, and each has one way to match at a given start: a
    greedy class stops at the first code unit outside it and what
    follows in the expression cannot match inside the class, a lazy
    [[\s\S]*?] stops at the first place where what follows matches.

    Under the flag [i] without [u], a code unit matches an ASCII letter
    of the pattern when it is that letter in either case; no code unit
    outside ASCII is canonicalized to an ASCII one.  [\w] is
    [[A-Za-z0-9_]], [.] is any code unit but the four line
    terminators. *)

Definition upper (c : N) : N :=
  if ((97 <=? c) && (c <=? 122))%N then (c - 32)%N else c.

Definition eq_ci (a b : N) : bool := (upper a =? upper b)%N.

(** The pattern [p], ASCII, matches at the head of [s]. *)
Fixpoint starts_ci (p s : jsstring) : bool :=
  match p, s with
  | [], _ => true
  | _ :: _, [] => false
  | a :: p', b :: s' => eq_ci a b && starts_ci p' s'
  end.

Definition is_word (c : N) : bool :=
  ((48 <=? c) && (c <=? 57) || (65 <=? c) && (c <=? 90) || (c =? 95)
   || (97 <=? c) && (c <=? 122))%N.

Definition is_line_terminator (c : N) : bool :=
  ((c =? 10) || (c =? 13) || (c =? 0x2028) || (c =? 0x2029))%N.

(** [[^>]*>]: the length up to and with the first [>]. *)
Fixpoint through_gt (s : jsstring) : option nat :=
  match s with
  | [] => None
  | c :: s' => if (c =? 62)%N then Some 1 else S <$> through_gt s'
  end.

(** [[\s\S]*?<\/script>]: the length up to and with the first
    [</script>]. *)
Fixpoint through_close (s : jsstring) : option nat :=
  match s with
  | [] => None
  | _ :: s' =>
      if starts_ci (str "</script>") s then Some 9 else S <$> through_close s'
  end.

(** [\b] after the [t] of [<script]: the end of the input, or a code
    unit that is not of a word. *)
Definition word_ends (s : jsstring) : bool :=
  match s with
  | [] => true
  | c :: _ => negb (is_word c)
  end.

(** [/<script\b[^>]*>[\s\S]*?<\/script>/i] at the head of [s]. *)
Definition match_script (s : jsstring) : option nat :=
  if starts_ci (str "<script") s && word_ends (drop 7 s) then
    match through_gt (drop 7 s) with
    | Some n1 =>
        match through_close (drop (7 + n1) s) with
        | Some n2 => Some (7 + n1 + n2)
        | None => None
        end
    | None => None
    end
  else None.

(** [\w*], greedy: the length of the run of word code units. *)
Fixpoint word_run (s : jsstring) : nat :=
  match s with
  | c :: s' => if is_word c then S (word_run s') else 0
  | [] => 0
  end.

(** [(?:(?!q).)*q] for a quote [q]: the length up to and with the next
    [q], when no line terminator comes before it. *)
Fixpoint through_quote (q : N) (s : jsstring) : option nat :=
  match s with
  | [] => None
  | c :: s' =>
      if (c =? q)%N then Some 1
      else if is_line_terminator c then None
      else S <$> through_quote q s'
  end.

(** [(Q?)(?:(?!\1).)*\1] after the [=], [Q] the class of the double
    and the single quote: a quoted value up to its closing quote;
    failing that, the group is empty and so is the match. *)
Definition value_length (s : jsstring) : nat :=
  match s with
  | q :: s' =>
      if ((q =? 34) || (q =? 39))%N then
        match through_quote q s' with
        | Some n => S n
        | None => 0
        end
      else 0
  | [] => 0
  end.

(** [/ on\w+=(Q?)(?:(?!\1).)*\1/i] at the head of [s]. *)
Definition match_handler (s : jsstring) : option nat :=
  if starts_ci (str " on") s then
    let n := word_run (drop 3 s) in
    match n, drop (3 + n) s with
    | S _, c :: rest =>
        if (c =? 61)%N then Some (3 + n + 1 + value_length rest) else None
    | _, _ => None
    end
  else None.

(** [s.replace(re, '')] for a global [re] whose matches are not empty:
    the code units of [s] from left to right, [skip] of them still
    inside the match being removed. *)
Fixpoint remove_from (re : jsstring -> option nat) (skip : nat) (s : jsstring)
  : jsstring :=
  match s with
  | [] => []
  | c :: s' =>
      match skip with
      | S k => remove_from re k s'
      | O =>
          match re s with
          | Some n => remove_from re (pred n) s'
          | None => c :: remove_from re 0 s'
          end
      end
  end.

Definition remove_all (re : jsstring -> option nat) (s : jsstring) : jsstring :=
  remove_from re 0 s.

Definition sanitizeHtml (html : JSValue) : jsstring :=
  match html with
  | Some (JStr s) =>
      let sanitized := remove_all match_script s in
      remove_all match_handler sanitized
  | _ => []
  end.

(** The text [p] occurs in [s], ASCII letters in either case. *)
Fixpoint occurs_ci (p s : jsstring) : bool :=
  starts_ci p s || match s with
                   | [] => false
                   | _ :: s' => occurs_ci p s'
                   end.

(** ** [handleSummarize] *)

Definition setIsSummarizing (v : bool) (st : AppState) : AppState :=
  mkApp (imageUrl st) (documentTitle st) (livingDocument st) (isLoading st)
        (isSuggestingTitle st) v (extractionHistory st)
        (ocrContext st) (ocrQuality st) (selectedLlm st) (hasUnsavedChanges st)
        (toast st) (expandedHistoryId st).

Section Summaries.

Variable JSON_parse : jsstring -> option JSON.
Variable engine_message : engine_error -> jsstring.
Variable number_to_string : Q -> jsstring.
(** The [textContent] of a [div] whose [innerHTML] is the argument. *)
Variable textContent : jsstring -> jsstring.

Definition handleSummarize (backend : JSON -> exn + Response) (toast_now : N)
    (st : AppState) : AppState :=
  if negb (truthy (Some (JStr (livingDocument st)))) then
    showToast toast_now "Cannot summarize an empty document." ToastInfo st
  else
    let st := setIsSummarizing true st in
    let plainText :=
      if truthy (Some (JStr (textContent (livingDocument st))))
      then textContent (livingDocument st) else [] in
    let st :=
      match processTextWithAI JSON_parse engine_message plainText
              (str "summarize") (selectedLlm st) backend with
      | inr summary =>
          let summaryHtml :=
            str "<h2>Summary</h2><p>" ++ ToString number_to_string summary
            ++ str "</p><br><hr><br>" in
          let st := setLivingDocument (fun prevDoc => summaryHtml ++ prevDoc) st in
          let st := setHasUnsavedChanges true st in
          showToast toast_now "Summary added to document!" ToastSuccess st
      | inl (JsError message) => showToast_message toast_now message ToastError st
      | inl NonError =>
          showToast toast_now "Failed to generate summary." ToastError st
      end in
    setIsSummarizing false st.

End Summaries.

(** ** Streams as a provider sends them

    The fragments the frames of a stream give rise to, one for every
    frame whose content is a non-empty string, and the same for the
    reads of a Gemini stream. *)

Section Fragments.

Variable JSON_parse : jsstring -> option JSON.

Definition frame_fragments (frames : list frame) : list jsstring :=
  flat_map (fun f => fragment_of (frame_content JSON_parse f)) frames.

Definition read_fragments (reads : list (list Byte.byte)) : list jsstring :=
  flat_map (fun value => fragment_of (read_content JSON_parse value)) reads.

(** A read that is a JSON value other than [null], whose first text,
    when there is one, is a string (or null). *)
Definition read_well_formed (value : list Byte.byte) : bool :=
  match JSON_parse (read_text value) with
  | None | Some JNull => false
  | Some j =>
      match gemini_text j with
      | None | Some JNull | Some (JStr _) => true
      | Some _ => false
      end
  end.

End Fragments.

(** A chat completion as the OpenAI-compatible providers stream it: a
    first chunk with the role and an empty content, a chunk with
    content, a last chunk with the finish reason and an empty delta. *)

Module ChatSample.

Definition role_chunk : jsstring :=
  str (Sample.quoted "{'choices':[{'delta':{'role':'assistant','content':''}}]}").

Definition content_chunk : jsstring :=
  str (Sample.quoted "{'choices':[{'delta':{'content':'Hi'}}]}").

Definition finish_chunk : jsstring :=
  str (Sample.quoted "{'choices':[{'delta':{},'finish_reason':'stop'}]}").

Definition pre : list frame := [Data role_chunk; Blank; Data content_chunk; Blank].

Definition post : list frame := [Data finish_chunk; Blank; Done; Blank].

(** The stream with a frame that is not JSON before the last chunk. *)
Definition wire_broken : list Byte.byte :=
  bytes (Sample.quoted "data: {'choices':[{'delta':{'role':'assistant','content':''}}]}

data: {'choices':[{'delta':{'content':'Hi'}}]}

data: {'choices':[{'delta':
data: {'choices':[{'delta':{},'finish_reason':'stop'}]}

data: [DONE]

").

Definition reads_broken : list (list Byte.byte) :=
  [take 70 wire_broken; drop 70 wire_broken].

(** Gemini reads: one with text, one with the finish reason only. *)
Definition gemini_finish : list Byte.byte :=
  bytes (Sample.quoted "[{'candidates':[{'finishReason':'STOP'}]}]").

End ChatSample.

(** * Properties *)

(** ** Lines *)

Lemma split_lf_nonempty (s : jsstring) : split_lf s <> [].
Proof.
  destruct s as [|c s]; cbn [split_lf]; [discriminate|].
  destruct (N.eqb c LF); [discriminate|].
  destruct (split_lf s); discriminate.
Qed.

Lemma pop_rest_cons (l : jsstring) (ls : list jsstring) :
  ls <> [] -> pop_rest (l :: ls) = l :: pop_rest ls.
Proof. destruct ls; [congruence | reflexivity]. Qed.

Lemma pop_value_cons (l : jsstring) (ls : list jsstring) :
  ls <> [] -> pop_value (l :: ls) = pop_value ls.
Proof. destruct ls; [congruence | reflexivity]. Qed.

Lemma pop_rest_app (a b : list jsstring) :
  b <> [] -> pop_rest (a ++ b) = a ++ pop_rest b.
Proof.
  intros Hb. induction a as [|x a IH]; [reflexivity|].
  simpl app. rewrite pop_rest_cons, IH; [reflexivity|].
  destruct a; simpl; [assumption | discriminate].
Qed.

Lemma pop_value_app (a b : list jsstring) :
  b <> [] -> pop_value (a ++ b) = pop_value b.
Proof.
  intros Hb. induction a as [|x a IH]; [reflexivity|].
  simpl app. rewrite pop_value_cons; [assumption|].
  destruct a; simpl; [assumption | discriminate].
Qed.

(** Splitting a text given in two parts: the complete lines of the
    first part, then the lines of its last piece continued by the
    second part. *)
Lemma split_lf_app (a b : jsstring) :
  split_lf (a ++ b) =
  pop_rest (split_lf a) ++ split_lf (pop_value (split_lf a) ++ b).
Proof.
  induction a as [|c a IH]; [reflexivity|].
  cbn [app split_lf]. destruct (N.eqb c LF) eqn:Hc.
  - rewrite pop_rest_cons, pop_value_cons by apply split_lf_nonempty.
    cbn [app]. now rewrite IH.
  - rewrite IH. destruct (split_lf a) as [|l ls] eqn:Ha.
    + now apply split_lf_nonempty in Ha.
    + destruct ls as [|l2 ls].
      * cbn [pop_rest pop_value removelast List.last app split_lf].
        now rewrite Hc.
      * rewrite !pop_rest_cons, !pop_value_cons by discriminate.
        reflexivity.
Qed.

Lemma has_LF_app (a b : jsstring) : has_LF (a ++ b) = has_LF a || has_LF b.
Proof. apply existsb_app. Qed.

Lemma split_lf_line (l : jsstring) :
  has_LF l = false -> split_lf l = [l].
Proof.
  unfold has_LF. induction l as [|c l IH]; [reflexivity|].
  cbn [existsb split_lf]. rewrite (N.eqb_sym c LF).
  destruct (N.eqb LF c); cbn [orb]; intros H; [discriminate|].
  now rewrite IH.
Qed.

Lemma split_lf_terminated (l s : jsstring) :
  has_LF l = false -> split_lf (l ++ LF :: s) = l :: split_lf s.
Proof.
  unfold has_LF. induction l as [|c l IH].
  - intros _. cbn [app split_lf]. now rewrite N.eqb_refl.
  - cbn [existsb app split_lf]. rewrite (N.eqb_sym c LF).
    destruct (N.eqb LF c); cbn [orb]; intros H; [discriminate|].
    now rewrite IH.
Qed.

(** No piece of a split holds a line feed. *)
Lemma split_lf_pieces (s : jsstring) :
  Forall (fun l => has_LF l = false) (split_lf s).
Proof.
  unfold has_LF. induction s as [|c s IH]; [repeat constructor|].
  cbn [split_lf]. destruct (N.eqb c LF) eqn:Hc.
  - constructor; [reflexivity | assumption].
  - destruct (split_lf s) as [|l ls]; [repeat constructor|].
    + cbn [existsb]. now rewrite N.eqb_sym, Hc.
    + inversion IH; subst. constructor; [|assumption].
      cbn [existsb]. now rewrite N.eqb_sym, Hc.
Qed.

Lemma pop_value_no_LF (s : jsstring) : has_LF (pop_value (split_lf s)) = false.
Proof.
  pose proof (split_lf_pieces s) as H.
  pose proof (split_lf_nonempty s) as Hne.
  induction (split_lf s) as [|l ls IH]; [congruence|].
  inversion H; subst. destruct ls; [assumption|].
  rewrite pop_value_cons by discriminate. apply IH; [assumption | discriminate].
Qed.

(** ** Decoding in stream mode does not depend on the reads *)

Lemma run_bytes_app (st : Utf8.state) (a b : list Byte.byte) :
  run_bytes st (a ++ b) =
  let '(st1, o1) := run_bytes st a in
  let '(st2, o2) := run_bytes st1 b in
  (st2, o1 ++ o2).
Proof.
  revert st. induction a as [|x a IH]; intros st; simpl.
  - destruct (run_bytes st b); reflexivity.
  - destruct (Utf8.handler st (Byte.to_N x)) as [st1 o1].
    rewrite IH. destruct (run_bytes st1 a) as [st2 o2].
    destruct (run_bytes st2 b) as [st3 o3].
    now rewrite app_assoc.
Qed.

Lemma serialize_app (bom : bool) (a b : list N) :
  serialize bom (a ++ b) =
  let '(bom1, t1) := serialize bom a in
  let '(bom2, t2) := serialize bom1 b in
  (bom2, t1 ++ t2).
Proof.
  revert bom. induction a as [|c a IH]; intros bom; simpl.
  - destruct (serialize bom b); reflexivity.
  - destruct (negb bom && N.eqb c 0xFEFF).
    + apply IH.
    + rewrite IH. destruct (serialize true a) as [b1 t1].
      destruct (serialize b1 b) as [b2 t2]. now rewrite <- app_assoc.
Qed.

(** [decode(a ++ b, {stream: true})] is [decode(a, {stream: true})]
    followed by [decode(b, {stream: true})], decoder state and text. *)
Lemma decode_stream_app (td : TextDecoder) (a b : list Byte.byte) :
  decode td (a ++ b) true =
  let '(td1, t1) := decode td a true in
  let '(td2, t2) := decode td1 b true in
  (td2, t1 ++ t2).
Proof.
  unfold decode. rewrite run_bytes_app.
  destruct (run_bytes _ a) as [st1 o1].
  rewrite !app_nil_r.
  destruct (serialize _ o1) as [b1 t1] eqn:H1.
  cbn [td_do_not_flush td_state td_bom_seen].
  destruct (run_bytes st1 b) as [st2 o2].
  rewrite !app_nil_r, serialize_app, H1.
  destruct (serialize b1 o2) as [b2 t2]. reflexivity.
Qed.

(** A decoder that was not left in stream mode starts over. *)
Lemma decode_flushed (td : TextDecoder) (value : list Byte.byte) :
  td_do_not_flush td = false ->
  decode td value false = decode new_TextDecoder value false.
Proof. intros H. unfold decode. rewrite H. reflexivity. Qed.

Lemma decode_flushed_after (td : TextDecoder) (value : list Byte.byte) :
  td_do_not_flush (fst (decode td value false)) = false.
Proof.
  unfold decode. destruct (run_bytes _ value) as [st1 o1].
  destruct (Utf8.finish st1) as [st2 o2].
  destruct (serialize _ _). reflexivity.
Qed.

(** ** Worlds *)

Lemma res_wrote_nil (r : Res) : res_wrote [] r = r.
Proof.
  destruct r as [hs sc hd wr sn en]. unfold res_wrote. cbn.
  now rewrite orb_false_r, app_nil_r.
Qed.

Lemma effect_nil (w : World) : effect [] [] [] w = w.
Proof.
  destruct w as [r f p l]. unfold effect. cbn [res fetched parsed logged].
  now rewrite res_wrote_nil, !app_nil_r.
Qed.

Lemma res_wrote_wrote (ws1 ws2 : list jsstring) (r : Res) :
  res_wrote ws2 (res_wrote ws1 r) = res_wrote (ws1 ++ ws2) r.
Proof.
  unfold res_wrote. cbn. f_equal; [|now rewrite app_assoc].
  destruct ws1, ws2; cbn; rewrite ?orb_false_r, ?orb_true_r; reflexivity.
Qed.

Lemma effect_effect (ws1 ps1 ls1 ws2 ps2 ls2 : list jsstring) (w : World) :
  effect ws2 ps2 ls2 (effect ws1 ps1 ls1 w) =
  effect (ws1 ++ ws2) (ps1 ++ ps2) (ls1 ++ ls2) w.
Proof.
  unfold effect. cbn.
  now rewrite res_wrote_wrote, !app_assoc.
Qed.

Lemma startsWith_app (p s : jsstring) : startsWith p (p ++ s) = true.
Proof.
  induction p as [|c p IH]; [reflexivity|].
  cbn [app startsWith]. now rewrite N.eqb_refl, IH.
Qed.

(** ** The OpenAI-compatible relay, line by line *)

Section Relay.

Variable JSON_parse : jsstring -> option JSON.
Variable engine_message : engine_error -> jsstring.

Local Abbreviation line_step := (openai_line JSON_parse engine_message).
Local Abbreviation loop := (openai_loop JSON_parse engine_message).
Local Abbreviation parse_error := "Error parsing stream JSON:"%string.

Lemma for_each_app {A} (f : A -> M unit) (a b : list A) (w : World) :
  for_each f (a ++ b) w = bind (for_each f a) (fun _ => for_each f b) w.
Proof.
  revert w. induction a as [|x a IH]; intros w.
  - reflexivity.
  - cbn [app for_each]. unfold bind in *.
    destruct (f x w) as [w1 [e|[]]]; [reflexivity|]. apply IH.
Qed.

Lemma try_catch_bind {A B} (m : M A) (k : A -> M B) (h : exn -> M B) (w : World) :
  try_catch (bind m k) h w =
  match m w with
  | (w', inr a) => try_catch (k a) h w'
  | (w', inl e) => h e w'
  end.
Proof. unfold try_catch, bind. destruct (m w) as [w' [e|a]]; reflexivity. Qed.

Lemma console_error_effect (label : string) (w : World) :
  console_error label w = (effect [] [] [str label] w, inr tt).
Proof.
  unfold console_error, effect. now rewrite res_wrote_nil, app_nil_r.
Qed.

Lemma ret_effect (w : World) : ret tt w = (effect [] [] [] w, inr tt).
Proof. now rewrite effect_nil. Qed.

Lemma res_write_effect (s : jsstring) (w : World) :
  res_write engine_message (Some (JStr s)) w = (effect [s] [] [] w, inr tt).
Proof.
  unfold res_write, modify_res, effect, res_wrote. cbn.
  now rewrite orb_true_r, !app_nil_r.
Qed.

(** Writing the text chunk when it is truthy either writes one string
    or throws. *)
Lemma write_if_truthy (v : JSValue) (w : World) :
  (exists ws, (if truthy v then res_write engine_message v else ret tt) w
              = (effect ws [] [] w, inr tt)) \/
  (exists e, (if truthy v then res_write engine_message v else ret tt) w
             = (w, inl e)).
Proof.
  destruct (truthy v) eqn:Ht.
  - destruct v as [[| | |s| |]|]; try discriminate Ht;
      try (right; eexists; reflexivity).
    left. exists [s]. apply res_write_effect.
  - left. exists []. apply ret_effect.
Qed.

(** A property read throws or returns. *)
Lemma get_prop_cases (k : string) (v : JSValue) (w : World) :
  (exists e, get_prop engine_message k v w = (w, inl e)) \/
  (exists r, get_prop engine_message k v w = (w, inr r)).
Proof.
  destruct v as [[]|]; cbn; eauto.
Qed.

Lemma get_index_cases (i : nat) (v : JSValue) (w : World) :
  (exists e, get_index engine_message i v w = (w, inl e)) \/
  (exists r, get_index engine_message i v w = (w, inr r)).
Proof.
  destruct v as [[]|]; cbn; eauto.
Qed.

(** The [try] of a data line, after [JSON.parse] returned [j]. *)
Lemma openai_try_effect (j : JSON) (w : World) :
  exists ws ls,
    try_catch
      (choices <- get_prop engine_message "choices" (Some j) ;;
       first <- get_index engine_message 0 choices ;;
       if truthy (opt_prop "content" (opt_prop "delta" first))
       then res_write engine_message (opt_prop "content" (opt_prop "delta" first))
       else ret tt)%js
      (fun _ => console_error parse_error) w
    = (effect ws [] ls w, inr tt).
Proof.
  assert (Hlog : exists ws ls,
             console_error parse_error w = (effect ws [] ls w, inr tt)).
  { exists [], [str parse_error]. apply console_error_effect. }
  unfold try_catch, bind.
  destruct (get_prop_cases "choices" (Some j) w) as [[e ->]|[choices ->]];
    [exact Hlog|].
  destruct (get_index_cases 0 choices w) as [[e ->]|[first ->]];
    [exact Hlog|].
  destruct (write_if_truthy (opt_prop "content" (opt_prop "delta" first)) w)
    as [[ws ->]|[e ->]]; [|exact Hlog].
  exists ws, []. reflexivity.
Qed.

(** What a line does: it never throws; it gives at most its payload to
    [JSON.parse], and never the sentinel. *)
Lemma openai_line_effect (line : jsstring) (w : World) :
  exists ws ps ls,
    line_step line w = (effect ws ps ls w, inr tt) /\
    Forall (fun p => is_sentinel p = false) ps.
Proof.
  unfold openai_line. cbv zeta.
  destruct (startsWith _ line).
  2:{ exists [], [], []. now rewrite effect_nil. }
  fold (is_sentinel (substring 6 line)).
  destruct (is_sentinel (substring 6 line)) eqn:Hs.
  { exists [], [], []. now rewrite effect_nil. }
  assert (Hp : Forall (fun p => is_sentinel p = false) [substring 6 line])
    by (repeat constructor; assumption).
  rewrite try_catch_bind. unfold JSON_parse_call.
  destruct (JSON_parse (substring 6 line)) as [j|].
  - destruct (openai_try_effect j
        (mkWorld (res w) (fetched w) (parsed w ++ [substring 6 line]) (logged w)))
      as (ws & ls & ->).
    exists ws, [substring 6 line], ls. split; [|assumption].
    unfold effect. cbn. now rewrite app_nil_r.
  - exists [], [substring 6 line], [str parse_error]. split; [|assumption].
    rewrite console_error_effect. unfold effect. cbn.
    now rewrite !res_wrote_nil, !app_nil_r.
Qed.

Lemma for_each_line_effect (lines : list jsstring) (w : World) :
  exists ws ps ls,
    for_each line_step lines w = (effect ws ps ls w, inr tt) /\
    Forall (fun p => is_sentinel p = false) ps.
Proof.
  revert w. induction lines as [|line lines IH]; intros w.
  - exists [], [], []. cbn. now rewrite effect_nil.
  - cbn [for_each]. unfold bind.
    destruct (openai_line_effect line w) as (ws1 & ps1 & ls1 & -> & H1).
    destruct (IH (effect ws1 ps1 ls1 w)) as (ws2 & ps2 & ls2 & -> & H2).
    exists (ws1 ++ ws2), (ps1 ++ ps2), (ls1 ++ ls2).
    rewrite effect_effect. split; [reflexivity|].
    apply Forall_app; split; assumption.
Qed.

(** The loop over the reads is the line handler run over the complete
    lines of the whole decoded text; the last, unterminated piece of the
    text is left in the buffer when the stream ends. *)
Lemma openai_loop_lines (rs : list (list Byte.byte)) (td : TextDecoder)
    (buffer : jsstring) (w : World) :
  has_LF buffer = false ->
  loop rs EndOfStream td buffer w =
  for_each line_step
    (pop_rest (split_lf (buffer ++ snd (decode td (concat rs) true)))) w.
Proof.
  revert td buffer w. induction rs as [|value rs IH]; intros td buffer w Hb.
  - cbn [openai_loop concat].
    assert (Ht : snd (decode td [] true) = []).
    { unfold decode. cbn. destruct (td_do_not_flush td); reflexivity. }
    rewrite Ht, app_nil_r, split_lf_line by assumption. reflexivity.
  - cbn [openai_loop concat]. rewrite decode_stream_app.
    destruct (decode td value true) as [td1 t1].
    destruct (decode td1 (concat rs) true) as [td2 t2] eqn:H2.
    cbn [snd]. rewrite app_assoc, (split_lf_app (buffer ++ t1) t2).
    rewrite pop_rest_app by apply split_lf_nonempty.
    rewrite for_each_app. unfold bind.
    destruct (for_each_line_effect (pop_rest (split_lf (buffer ++ t1))) w)
      as (ws & ps & ls & -> & _).
    rewrite IH by apply pop_value_no_LF. now rewrite H2.
Qed.

(** Whatever the reads, a loop that reaches the end of the stream
    returns, having written, parsed and logged. *)
Lemma openai_loop_effect (rs : list (list Byte.byte)) (td : TextDecoder)
    (buffer : jsstring) (w : World) :
  exists ws ps ls, loop rs EndOfStream td buffer w = (effect ws ps ls w, inr tt).
Proof.
  revert td buffer w. induction rs as [|value rs IH]; intros td buffer w.
  - exists [], [], []. cbn. now rewrite effect_nil.
  - cbn [openai_loop]. destruct (decode td value true) as [td1 t1].
    unfold bind.
    destruct (for_each_line_effect (pop_rest (split_lf (buffer ++ t1))) w)
      as (ws1 & ps1 & ls1 & -> & _).
    destruct (IH td1 (pop_value (split_lf (buffer ++ t1))) (effect ws1 ps1 ls1 w))
      as (ws2 & ps2 & ls2 & ->).
    exists (ws1 ++ ws2), (ps1 ++ ps2), (ls1 ++ ls2). now rewrite effect_effect.
Qed.

(** The same loop when the last read fails: the same world, and the
    failure as the result. *)
Lemma openai_loop_fails (rs : list (list Byte.byte)) (e : exn) (td : TextDecoder)
    (buffer : jsstring) (w : World) :
  loop rs (ReadFails e) td buffer w =
  (fst (loop rs EndOfStream td buffer w), inl e) /\
  snd (loop rs EndOfStream td buffer w) = inr tt.
Proof.
  revert td buffer w. induction rs as [|value rs IH]; intros td buffer w.
  - split; reflexivity.
  - cbn [openai_loop]. destruct (decode td value true) as [td1 t1].
    unfold bind.
    destruct (for_each_line_effect (pop_rest (split_lf (buffer ++ t1))) w)
      as (ws & ps & ls & -> & _).
    apply IH.
Qed.

End Relay.

(** ** Frames *)

Lemma data_prefix_dropped (payload : jsstring) :
  substring 6 (str "data: " ++ payload) = payload.
Proof. reflexivity. Qed.

Lemma sentinel_is_sentinel : is_sentinel (str "[DONE]") = true.
Proof. vm_compute. reflexivity. Qed.

Lemma concat_fragment_of (content : jsstring) :
  concat (fragment_of content) = content.
Proof. destruct content; [reflexivity|]. apply app_nil_r. Qed.

Lemma pop_value_terminated (c : jsstring) :
  pop_value (split_lf (c ++ [LF])) = [].
Proof.
  rewrite split_lf_app.
  rewrite split_lf_terminated by apply pop_value_no_LF.
  rewrite pop_value_app by discriminate. reflexivity.
Qed.

(** The lines of a text that ends in an unterminated piece. *)
Lemma split_lf_unterminated (complete tail : jsstring) :
  complete = [] \/ (exists c, complete = c ++ [LF]) ->
  has_LF tail = false ->
  split_lf (complete ++ tail) = pop_rest (split_lf complete) ++ [tail].
Proof.
  intros Hc Ht. rewrite split_lf_app.
  assert (Hv : pop_value (split_lf complete) = []).
  { destruct Hc as [->|[c ->]]; [reflexivity | apply pop_value_terminated]. }
  rewrite Hv. cbn [app]. now rewrite (split_lf_line tail).
Qed.

Lemma payloads_cons (f : frame) (frames : list frame) :
  payloads (f :: frames) = payloads [f] ++ payloads frames.
Proof. unfold payloads. cbn [flat_map]. now rewrite app_nil_r. Qed.

Lemma payloads_app (a b : list frame) :
  payloads (a ++ b) = payloads a ++ payloads b.
Proof. apply flat_map_app. Qed.

Section FrameRelay.

Variable JSON_parse : jsstring -> option JSON.
Variable engine_message : engine_error -> jsstring.

Local Abbreviation line_step := (openai_line JSON_parse engine_message).
Local Abbreviation loop := (openai_loop JSON_parse engine_message).
Local Abbreviation parse_error := "Error parsing stream JSON:"%string.

(** The [try] on a well-formed chunk writes its content, when there is
    some, and nothing else. *)
Lemma openai_try_well_formed (j : JSON) (w : World) :
  chunk_well_formed j = true ->
  try_catch
    (choices <- get_prop engine_message "choices" (Some j) ;;
     first <- get_index engine_message 0 choices ;;
     if truthy (opt_prop "content" (opt_prop "delta" first))
     then res_write engine_message (opt_prop "content" (opt_prop "delta" first))
     else ret tt)%js
    (fun _ => console_error parse_error) w
  = (effect (fragment_of match delta_content j with
                         | Some (JStr s) => s
                         | _ => []
                         end) [] [] w, inr tt).
Proof.
  unfold chunk_well_formed, delta_content.
  destruct (own_prop "choices" j) as [[| | | |items|]|] eqn:Hc;
    try discriminate.
  destruct j as [| | | | |fs]; try discriminate Hc.
  unfold try_catch, bind, get_prop, ret. rewrite Hc.
  unfold get_index, ret. cbn [opt_index].
  destruct (opt_prop "content" (opt_prop "delta" (own_index 0 (JArr items))))
    as [[| | |s| |]|]; try discriminate; intros _; cbn [truthy].
  - now rewrite effect_nil.
  - destruct s as [|c s].
    + cbn. now rewrite effect_nil.
    + cbn [truthy jsstring_eqb negb fragment_of].
      replace (negb (jsstring_eqb (c :: s) [])) with true by reflexivity.
      now rewrite res_write_effect.
  - now rewrite effect_nil.
Qed.

Lemma openai_line_well_formed (f : frame) (w : World) :
  frame_well_formed JSON_parse f = true ->
  line_step (render f) w =
  (effect (fragment_of (frame_content JSON_parse f)) (payloads [f]) [] w, inr tt).
Proof.
  destruct f as [payload| |]; cbn [frame_well_formed render].
  - intros H. apply andb_prop in H as [H Hj]. apply andb_prop in H as [_ Hs].
    apply negb_true_iff in Hs.
    unfold openai_line. rewrite startsWith_app, data_prefix_dropped.
    fold (is_sentinel payload). rewrite Hs.
    rewrite try_catch_bind. unfold JSON_parse_call. cbn [frame_content].
    destruct (JSON_parse payload) as [j|]; [|discriminate].
    rewrite openai_try_well_formed by assumption.
    unfold effect. cbn. now rewrite !app_nil_r.
  - intros _. unfold openai_line.
    replace (startsWith (str "data: ") (str "data: [DONE]")) with true
      by (vm_compute; reflexivity).
    replace (jsstring_eqb (trim (substring 6 (str "data: [DONE]"))) (str "[DONE]"))
      with true by (vm_compute; reflexivity).
    cbn. now rewrite effect_nil.
  - intros _. cbn. now rewrite effect_nil.
Qed.

Lemma frame_line_no_LF (f : frame) :
  match f with Data p => has_LF p = false | _ => True end ->
  has_LF (render f) = false.
Proof.
  destruct f as [p| |]; cbn [render]; intros H.
  - rewrite has_LF_app, H. vm_compute. reflexivity.
  - vm_compute. reflexivity.
  - reflexivity.
Qed.

Lemma split_lf_sse_text (frames : list frame) :
  Forall (fun f => match f with Data p => has_LF p = false | _ => True end) frames ->
  split_lf (sse_text frames) = map render frames ++ [[]].
Proof.
  induction 1 as [|f frames Hf _ IH]; [reflexivity|].
  unfold sse_text in *. cbn [flat_map map app].
  rewrite <- app_assoc. cbn [app].
  rewrite split_lf_terminated by (apply frame_line_no_LF; assumption).
  now rewrite IH.
Qed.

Lemma well_formed_no_LF (frames : list frame) :
  forallb (frame_well_formed JSON_parse) frames = true ->
  Forall (fun f => match f with Data p => has_LF p = false | _ => True end) frames.
Proof.
  induction frames as [|f frames IH]; [constructor|].
  cbn [forallb]. intros H. apply andb_prop in H as [Hf H].
  constructor; [|now apply IH].
  destruct f as [p| |]; [|exact I|exact I].
  cbn in Hf. apply andb_prop in Hf as [Hf _]. apply andb_prop in Hf as [Hf _].
  now apply negb_true_iff in Hf.
Qed.

Lemma well_formed_not_sentinel (frames : list frame) :
  forallb (frame_well_formed JSON_parse) frames = true ->
  Forall (fun p => is_sentinel p = false) (payloads frames).
Proof.
  induction frames as [|f frames IH]; [constructor|].
  cbn [forallb]. intros H. apply andb_prop in H as [Hf H].
  unfold payloads. cbn [flat_map]. apply Forall_app. split; [|now apply IH].
  destruct f as [p| |]; [|constructor|constructor].
  repeat constructor. cbn in Hf.
  apply andb_prop in Hf as [Hf _]. apply andb_prop in Hf as [_ Hf].
  now apply negb_true_iff in Hf.
Qed.

(** The line handler over the lines of well-formed frames. *)
Lemma for_each_well_formed (frames : list frame) (w : World) :
  forallb (frame_well_formed JSON_parse) frames = true ->
  for_each line_step (map render frames) w =
  (effect (flat_map (fun f => fragment_of (frame_content JSON_parse f)) frames)
          (payloads frames) [] w, inr tt).
Proof.
  revert w. induction frames as [|f frames IH]; intros w H.
  - cbn. now rewrite effect_nil.
  - cbn [forallb] in H. apply andb_prop in H as [Hf H].
    cbn [map for_each]. unfold bind.
    rewrite openai_line_well_formed by assumption.
    rewrite IH by assumption.
    rewrite effect_effect, (payloads_cons f frames). reflexivity.
Qed.

Lemma concat_fragments (frames : list frame) :
  concat (flat_map (fun f => fragment_of (frame_content JSON_parse f)) frames) =
  flat_map (frame_content JSON_parse) frames.
Proof.
  induction frames as [|f frames IH]; [reflexivity|].
  cbn [flat_map]. now rewrite concat_app, concat_fragment_of, IH.
Qed.

End FrameRelay.

(** ** The OpenAI-compatible handler on a well-formed stream *)

Section OpenAIStream.

Variable JSON_parse : jsstring -> option JSON.
Variable engine_message : engine_error -> jsstring.
Variable number_to_string : Q -> jsstring.
Variable upstream : Call -> exn + Response.

Local Abbreviation line_step := (openai_line JSON_parse engine_message).
Local Abbreviation loop := (openai_loop JSON_parse engine_message).
Local Abbreviation handle :=
  (handleOpenAICompatibleStream JSON_parse engine_message number_to_string upstream).

(** The call the handler makes. *)
Local Abbreviation call_of input apiUrl model apiKey :=
  (mkCall (str apiUrl) (str "POST") (bearer_headers apiKey)
          (openai_stream_payload number_to_string input model)).

(** With a successful answer the handler is its read loop. *)
Lemma handle_openai_success (input : JSON) (apiUrl model : string)
    (apiKey : jsstring) (st : N) (b : Body) (w : World) :
  upstream (call_of input apiUrl model apiKey) = inr (mkResponse st (Some b)) ->
  ok (mkResponse st (Some b)) = true ->
  handle input apiUrl model apiKey w =
  loop (reads b) (finish b) new_TextDecoder []
       (streaming (call_of input apiUrl model apiKey) w).
Proof.
  intros Hu Hok. unfold handleOpenAICompatibleStream. cbv zeta.
  unfold bind at 1, fetch. cbv zeta.
  rewrite Hu. unfold bind at 1, check_ok. rewrite Hok.
  unfold ret at 1. unfold bind at 1, res_setHeader, modify_res.
  unfold bind, getReader, ret. cbn [body res fetched parsed logged].
  reflexivity.
Qed.


(** C10.  When the decoded stream ends in a piece [tail] with no line
    feed after it, the loop is the line handler run over the lines of
    the text before that piece: [tail], still in the buffer when the
    upstream signals the end, is neither parsed nor written, and any
    stream with the same terminated lines runs the same. *)
Theorem C10_unterminated_last_line_is_discarded
    (rs : list (list Byte.byte)) (complete tail : jsstring) (w : World) :
  snd (decode new_TextDecoder (concat rs) true) = complete ++ tail ->
  complete = [] \/ (exists c, complete = c ++ [LF]) ->
  has_LF tail = false ->
  loop rs EndOfStream new_TextDecoder [] w =
    for_each line_step (pop_rest (split_lf complete)) w /\
  forall rs' tail',
    snd (decode new_TextDecoder (concat rs') true) = complete ++ tail' ->
    has_LF tail' = false ->
    loop rs' EndOfStream new_TextDecoder [] w =
    loop rs EndOfStream new_TextDecoder [] w.
Proof.
  intros Htext Hc Ht.
  assert (Hrun : forall rs' tail',
             snd (decode new_TextDecoder (concat rs') true) = complete ++ tail' ->
             has_LF tail' = false ->
             loop rs' EndOfStream new_TextDecoder [] w =
             for_each line_step (pop_rest (split_lf complete)) w).
  { intros rs' tail' Htext' Ht'.
    rewrite openai_loop_lines by reflexivity.
    cbn [app]. rewrite Htext', split_lf_unterminated by assumption.
    rewrite pop_rest_app by discriminate. cbn [pop_rest removelast].
    now rewrite app_nil_r. }
  split.
  - now apply (Hrun rs tail).
  - intros rs' tail' Htext' Ht'.
    rewrite (Hrun rs' tail'), (Hrun rs tail) by assumption. reflexivity.
Qed.

End OpenAIStream.

(** ** One malformed frame *)

Section Malformed.

Variable JSON_parse : jsstring -> option JSON.
Variable engine_message : engine_error -> jsstring.

Local Abbreviation line_step := (openai_line JSON_parse engine_message).
Local Abbreviation loop := (openai_loop JSON_parse engine_message).
Local Abbreviation gloop := (gemini_loop JSON_parse engine_message).
Local Abbreviation delivers := (frame_delivers JSON_parse).
Local Abbreviation content := (frame_content JSON_parse).

Lemma delivers_fragment (f : frame) :
  delivers f || frame_inert f = true ->
  fragment_of (content f) = map content (data_frames [f]).
Proof.
  destruct f as [p| |]; [|reflexivity|reflexivity].
  cbn [frame_delivers frame_inert is_data negb frame_content data_frames
       List.filter map].
  rewrite orb_false_r. intros H. apply andb_prop in H as [_ H].
  destruct (JSON_parse p) as [j|]; [|discriminate].
  apply andb_prop in H as [_ H].
  destruct (delta_content j) as [[| | |[|c s]| |]|]; try discriminate.
  reflexivity.
Qed.

Lemma data_frames_app (a b : list frame) :
  data_frames (a ++ b) = data_frames a ++ data_frames b.
Proof. apply List.filter_app. Qed.

(** Frames that each deliver a fragment or carry no data: one fragment
    for every data frame. *)
Lemma delivering_fragments (frames : list frame) :
  forallb (fun f => delivers f || frame_inert f) frames = true ->
  frame_fragments JSON_parse frames = map content (data_frames frames).
Proof.
  intros H. unfold frame_fragments.
  induction frames as [|f frames IH]; [reflexivity|].
  cbn [forallb] in H. apply andb_prop in H as [Hf H].
  cbn [flat_map]. rewrite (delivers_fragment f Hf), (IH H), <- map_app.
  now rewrite <- data_frames_app.
Qed.

(** No frame gives more than one fragment, and only a data frame gives
    one. *)
Lemma frame_fragments_length (frames : list frame) :
  length (frame_fragments JSON_parse frames) <= length (data_frames frames).
Proof.
  unfold frame_fragments.
  induction frames as [|f frames IH]; [reflexivity|].
  cbn [flat_map]. rewrite length_app.
  change (data_frames (f :: frames))
    with (data_frames ([f] ++ frames)).
  rewrite data_frames_app, length_app.
  apply Nat.add_le_mono; [|exact IH].
  destruct f as [p| |]; cbn [frame_content]; [|cbn; lia|cbn; lia].
  cbn [data_frames List.filter is_data length].
  destruct (JSON_parse p) as [j|]; [|cbn; lia].
  destruct (delta_content j) as [[| | |[|c s]| |]|]; cbn; lia.
Qed.

Lemma frame_fragments_app (a b : list frame) :
  frame_fragments JSON_parse (a ++ b) =
  frame_fragments JSON_parse a ++ frame_fragments JSON_parse b.
Proof. unfold frame_fragments. now rewrite flat_map_app. Qed.

(** A malformed data frame is given to [JSON.parse], logged and skipped. *)
Lemma openai_line_malformed (f : frame) (w : World) :
  frame_malformed JSON_parse f = true ->
  line_step (render f) w =
  (effect [] (payloads [f]) [str "Error parsing stream JSON:"] w, inr tt).
Proof.
  destruct f as [p| |]; try discriminate. cbn [frame_malformed render].
  intros H. apply andb_prop in H as [H Hj]. apply andb_prop in H as [_ Hs].
  apply negb_true_iff in Hs.
  unfold openai_line. rewrite startsWith_app, data_prefix_dropped.
  fold (is_sentinel p). rewrite Hs.
  rewrite try_catch_bind. unfold JSON_parse_call.
  destruct (JSON_parse p); [discriminate|].
  rewrite console_error_effect. unfold effect. cbn.
  now rewrite !res_wrote_nil, !app_nil_r.
Qed.

Lemma stream_lines_no_LF (pre post : list frame) (bad : frame) :
  forallb (frame_well_formed JSON_parse) (pre ++ post) = true ->
  frame_malformed JSON_parse bad = true ->
  Forall (fun f => match f with Data p => has_LF p = false | _ => True end)
         (pre ++ bad :: post).
Proof.
  intros H Hbad. rewrite forallb_app in H. apply andb_prop in H as [Hpre Hpost].
  apply Forall_app. split; [now apply (well_formed_no_LF JSON_parse)|].
  constructor; [|now apply (well_formed_no_LF JSON_parse)].
  destruct bad as [p| |]; try exact I. cbn in Hbad.
  apply andb_prop in Hbad as [Hbad _]. apply andb_prop in Hbad as [Hbad _].
  now apply negb_true_iff in Hbad.
Qed.

(** The OpenAI-compatible loop over a stream of well-formed frames with
    one malformed frame among them. *)
Lemma openai_one_malformed (pre post : list frame) (bad : frame)
    (rs : list (list Byte.byte)) (w : World) :
  forallb (frame_well_formed JSON_parse) (pre ++ post) = true ->
  frame_malformed JSON_parse bad = true ->
  snd (decode new_TextDecoder (concat rs) true) = sse_text (pre ++ bad :: post) ->
  loop rs EndOfStream new_TextDecoder [] w =
  (effect (frame_fragments JSON_parse (pre ++ post))
          (payloads (pre ++ bad :: post))
          [str "Error parsing stream JSON:"] w, inr tt).
Proof.
  intros H Hbad Htext.
  rewrite openai_loop_lines by reflexivity. cbn [app]. rewrite Htext.
  rewrite split_lf_sse_text by (apply stream_lines_no_LF; assumption).
  rewrite pop_rest_app by discriminate. cbn [pop_rest removelast].
  rewrite app_nil_r, map_app. cbn [map].
  rewrite forallb_app in H. apply andb_prop in H as [Hpre Hpost].
  rewrite for_each_app. unfold bind.
  rewrite for_each_well_formed by assumption.
  cbn [for_each]. unfold bind.
  rewrite openai_line_malformed by assumption.
  rewrite for_each_well_formed by assumption.
  rewrite !effect_effect, frame_fragments_app.
  rewrite payloads_app, (payloads_cons bad post), !app_nil_r.
  reflexivity.
Qed.

End Malformed.

Section GeminiRelay.

Variable JSON_parse : jsstring -> option JSON.
Variable engine_message : engine_error -> jsstring.

Local Abbreviation chunk_step := (gemini_chunk JSON_parse engine_message).
Local Abbreviation gloop := (gemini_loop JSON_parse engine_message).
Local Abbreviation chunk_error := "Error parsing Gemini stream chunk:"%string.

(** Every read is decoded on its own: [decode(value)] flushes. *)
Lemma gemini_loop_step (value : list Byte.byte) (rs : list (list Byte.byte))
    (fin : ReadEnd) (td : TextDecoder) (w : World) :
  td_do_not_flush td = false ->
  exists td',
    td_do_not_flush td' = false /\
    gloop (value :: rs) fin td w =
    bind (chunk_step (decode_all value)) (fun _ => gloop rs fin td') w.
Proof.
  intros Hf. cbn [gemini_loop]. rewrite (decode_flushed td value Hf).
  unfold decode_all.
  pose proof (decode_flushed_after new_TextDecoder value) as Hafter.
  destruct (decode new_TextDecoder value false) as [td' chunk].
  exists td'. split; [exact Hafter | reflexivity].
Qed.

(** A chunk never throws out of its [try]. *)
Lemma gemini_chunk_effect (chunk : jsstring) (w : World) :
  exists ws ps ls, chunk_step chunk w = (effect ws ps ls w, inr tt).
Proof.
  unfold gemini_chunk. cbv zeta. rewrite try_catch_bind. unfold JSON_parse_call.
  set (w1 := mkWorld _ _ _ _).
  assert (Hlog : exists ws ps ls,
             console_error chunk_error w1 = (effect ws ps ls w, inr tt)).
  { exists [], [strip_data_prefix chunk], [str chunk_error].
    rewrite console_error_effect. subst w1. unfold effect. cbn.
    now rewrite !res_wrote_nil, !app_nil_r. }
  destruct (JSON_parse (strip_data_prefix chunk)) as [j|]; [|exact Hlog].
  rewrite try_catch_bind.
  destruct (get_index_cases engine_message 0 (Some j) w1) as [[e ->]|[first ->]];
    [exact Hlog|].
  unfold try_catch.
  match goal with
  | |- context [truthy ?t] =>
      destruct (write_if_truthy engine_message t w1) as [[ws ->]|[e ->]];
      [|exact Hlog]
  end.
  exists ws, [strip_data_prefix chunk], []. subst w1. unfold effect. cbn.
  now rewrite !app_nil_r.
Qed.

Lemma gemini_chunk_malformed (value : list Byte.byte) (w : World) :
  read_malformed JSON_parse value = true ->
  chunk_step (decode_all value) w =
  (effect [] [read_text value] [str chunk_error] w, inr tt).
Proof.
  unfold read_malformed, read_text, gemini_chunk. cbv zeta.
  rewrite try_catch_bind. unfold JSON_parse_call.
  destruct (JSON_parse (strip_data_prefix (decode_all value))); [discriminate|].
  intros _. rewrite console_error_effect. unfold effect. cbn.
  now rewrite !res_wrote_nil, !app_nil_r.
Qed.

(** A well-formed read is parsed, and written when its text is a
    non-empty string. *)
Lemma gemini_chunk_well_formed (value : list Byte.byte) (w : World) :
  read_well_formed JSON_parse value = true ->
  chunk_step (decode_all value) w =
  (effect (fragment_of (read_content JSON_parse value)) [read_text value] [] w,
   inr tt).
Proof.
  unfold read_well_formed, read_content, read_text, gemini_chunk. cbv zeta.
  rewrite try_catch_bind. unfold JSON_parse_call.
  destruct (JSON_parse (strip_data_prefix (decode_all value))) as [j|];
    [|discriminate].
  unfold gemini_text. intros H.
  rewrite try_catch_bind. unfold get_index, ret.
  destruct j as [| | | | |]; try discriminate H.
  all: unfold try_catch.
  all: match goal with
       | |- context [truthy ?t] =>
           destruct t as [[| | |[|c0 s0]| |]|]; try discriminate H
       end.
  all: cbn [truthy fragment_of];
       try replace (negb (jsstring_eqb [] [])) with false by reflexivity;
       try replace (negb (jsstring_eqb (c0 :: s0) [])) with true by reflexivity.
  all: try (rewrite res_write_effect; unfold effect; cbn; now rewrite !app_nil_r).
  all: unfold ret, effect; cbn [res fetched parsed logged];
       now rewrite res_wrote_nil, !app_nil_r.
Qed.

Lemma read_fragments_app (a b : list (list Byte.byte)) :
  read_fragments JSON_parse (a ++ b) =
  read_fragments JSON_parse a ++ read_fragments JSON_parse b.
Proof. unfold read_fragments. now rewrite flat_map_app. Qed.

Lemma gemini_loop_well_formed (rs : list (list Byte.byte)) (td : TextDecoder)
    (w : World) :
  td_do_not_flush td = false ->
  forallb (read_well_formed JSON_parse) rs = true ->
  gloop rs EndOfStream td w =
  (effect (read_fragments JSON_parse rs) (map read_text rs) [] w, inr tt).
Proof.
  revert td w. induction rs as [|value rs IH]; intros td w Hf H.
  - cbn. now rewrite effect_nil.
  - cbn [forallb] in H. apply andb_prop in H as [Hv H].
    destruct (gemini_loop_step value rs EndOfStream td w Hf) as (td' & Hf' & ->).
    unfold bind. rewrite gemini_chunk_well_formed by assumption.
    rewrite IH by assumption. now rewrite effect_effect.
Qed.

(** The Gemini loop over well-formed reads of which one is malformed. *)
Lemma gemini_one_malformed_among (pre post : list (list Byte.byte))
    (bad : list Byte.byte) (td : TextDecoder) (w : World) :
  td_do_not_flush td = false ->
  forallb (read_well_formed JSON_parse) (pre ++ post) = true ->
  read_malformed JSON_parse bad = true ->
  gloop (pre ++ bad :: post) EndOfStream td w =
  (effect (read_fragments JSON_parse (pre ++ post))
          (map read_text (pre ++ bad :: post))
          [str chunk_error] w, inr tt).
Proof.
  intros Hf H Hbad. rewrite forallb_app in H. apply andb_prop in H as [Hpre Hpost].
  rewrite read_fragments_app.
  revert td w Hf. induction pre as [|value pre IH]; intros td w Hf.
  - cbn [app].
    destruct (gemini_loop_step bad post EndOfStream td w Hf) as (td' & Hf' & ->).
    unfold bind. rewrite gemini_chunk_malformed by assumption.
    rewrite gemini_loop_well_formed by assumption.
    now rewrite effect_effect.
  - cbn [forallb] in Hpre. apply andb_prop in Hpre as [Hv Hpre].
    cbn [app].
    destruct (gemini_loop_step value (pre ++ bad :: post) EndOfStream td w Hf)
      as (td' & Hf' & ->).
    unfold bind. rewrite gemini_chunk_well_formed by assumption.
    rewrite (IH Hpre) by assumption. rewrite effect_effect.
    unfold read_fragments. cbn [flat_map map app].
    now rewrite <- !app_assoc.
Qed.

(** Reads that each deliver a fragment: one fragment for every read. *)
Lemma delivering_reads (rs : list (list Byte.byte)) :
  forallb (read_delivers JSON_parse) rs = true ->
  read_fragments JSON_parse rs = map (read_content JSON_parse) rs.
Proof.
  unfold read_fragments. induction rs as [|value rs IH]; [reflexivity|].
  cbn [forallb]. intros H. apply andb_prop in H as [Hv H].
  cbn [flat_map map]. rewrite (IH H). f_equal.
  unfold read_delivers, read_content in *.
  destruct (JSON_parse (read_text value)) as [j|]; [|discriminate].
  destruct (gemini_text j) as [[| | |[|c s]| |]|]; try discriminate.
  reflexivity.
Qed.

Lemma read_fragments_length (rs : list (list Byte.byte)) :
  length (read_fragments JSON_parse rs) <= length rs.
Proof.
  unfold read_fragments. induction rs as [|value rs IH]; [reflexivity|].
  cbn [flat_map length]. rewrite length_app.
  assert (length (fragment_of (read_content JSON_parse value)) <= 1)
    by (destruct (read_content JSON_parse value); cbn; lia).
  lia.
Qed.

Lemma gemini_loop_effect (rs : list (list Byte.byte)) (td : TextDecoder)
    (w : World) :
  exists ws ps ls, gloop rs EndOfStream td w = (effect ws ps ls w, inr tt).
Proof.
  revert td w. induction rs as [|value rs IH]; intros td w.
  - exists [], [], []. cbn. now rewrite effect_nil.
  - cbn [gemini_loop]. destruct (decode td value false) as [td1 chunk].
    unfold bind.
    destruct (gemini_chunk_effect chunk w) as (ws1 & ps1 & ls1 & ->).
    destruct (IH td1 (effect ws1 ps1 ls1 w)) as (ws2 & ps2 & ls2 & ->).
    exists (ws1 ++ ws2), (ps1 ++ ps2), (ls1 ++ ls2). now rewrite effect_effect.
Qed.

(** The loop when the last read fails. *)
Lemma gemini_loop_fails (rs : list (list Byte.byte)) (e : exn) (td : TextDecoder)
    (w : World) :
  gloop rs (ReadFails e) td w = (fst (gloop rs EndOfStream td w), inl e) /\
  snd (gloop rs EndOfStream td w) = inr tt.
Proof.
  revert td w. induction rs as [|value rs IH]; intros td w.
  - split; reflexivity.
  - cbn [gemini_loop]. destruct (decode td value false) as [td1 chunk].
    unfold bind.
    destruct (gemini_chunk_effect chunk w) as (ws & ps & ls & ->).
    apply IH.
Qed.

End GeminiRelay.

(** C3.  A stream of well-formed frames, with one frame whose payload
    is not JSON among them, is processed to its end: the handler
    returns normally, the malformed frame is given to [JSON.parse],
    logged once and skipped, and the fragments written are the
    non-empty contents of the other frames, in order.  A well-formed
    frame without content gives no fragment, so the fragments are at
    most as many as the [N] other data frames, and exactly one for each
    of them when each carries non-empty content.  The same holds for
    the reads of a Gemini stream, where every read is a frame. *)
Theorem C3_one_malformed_frame_is_skipped
    (JSON_parse : jsstring -> option JSON)
    (engine_message : engine_error -> jsstring)
    (pre post : list frame) (bad : frame) (rs : list (list Byte.byte))
    (gpre gpost : list (list Byte.byte)) (gbad : list Byte.byte) (w : World) :
  forallb (frame_well_formed JSON_parse) (pre ++ post) = true ->
  frame_malformed JSON_parse bad = true ->
  snd (decode new_TextDecoder (concat rs) true) = sse_text (pre ++ bad :: post) ->
  forallb (read_well_formed JSON_parse) (gpre ++ gpost) = true ->
  read_malformed JSON_parse gbad = true ->
  let openai :=
    openai_loop JSON_parse engine_message rs EndOfStream new_TextDecoder [] w in
  let gemini :=
    gemini_loop JSON_parse engine_message (gpre ++ gbad :: gpost) EndOfStream
                new_TextDecoder w in
  (snd openai = inr tt /\
   written (res (fst openai)) =
     written (res w) ++ frame_fragments JSON_parse (pre ++ post) /\
   parsed (fst openai) = parsed w ++ payloads (pre ++ bad :: post) /\
   logged (fst openai) = logged w ++ [str "Error parsing stream JSON:"] /\
   length (frame_fragments JSON_parse (pre ++ post))
     <= length (data_frames (pre ++ post)) /\
   (forallb (fun f => frame_delivers JSON_parse f || frame_inert f) (pre ++ post)
      = true ->
    written (res (fst openai)) =
      written (res w)
      ++ map (frame_content JSON_parse) (data_frames (pre ++ post)) /\
    length (written (res (fst openai))) =
      length (written (res w)) + length (data_frames (pre ++ post)))) /\
  (snd gemini = inr tt /\
   written (res (fst gemini)) =
     written (res w) ++ read_fragments JSON_parse (gpre ++ gpost) /\
   parsed (fst gemini) = parsed w ++ map read_text (gpre ++ gbad :: gpost) /\
   logged (fst gemini) = logged w ++ [str "Error parsing Gemini stream chunk:"] /\
   length (read_fragments JSON_parse (gpre ++ gpost)) <= length (gpre ++ gpost) /\
   (forallb (read_delivers JSON_parse) (gpre ++ gpost) = true ->
    written (res (fst gemini)) =
      written (res w) ++ map (read_content JSON_parse) (gpre ++ gpost) /\
    length (written (res (fst gemini))) =
      length (written (res w)) + length (gpre ++ gpost))).
Proof.
  intros H Hbad Htext Hg Hgbad openai gemini. subst openai gemini.
  rewrite (openai_one_malformed JSON_parse engine_message pre post bad rs w)
    by assumption.
  rewrite (gemini_one_malformed_among JSON_parse engine_message gpre gpost gbad)
    by (assumption || reflexivity).
  cbn [fst snd effect res res_wrote written parsed logged].
  split; (split; [reflexivity|]); (split; [reflexivity|]);
    (split; [reflexivity|]); (split; [reflexivity|]).
  - split; [apply frame_fragments_length|]. intros Hall.
    rewrite (delivering_fragments JSON_parse _ Hall).
    split; [reflexivity|]. now rewrite length_app, length_map.
  - split; [apply read_fragments_length|]. intros Hall.
    rewrite (delivering_reads JSON_parse _ Hall).
    split; [reflexivity|]. now rewrite length_app, length_map.
Qed.

(** C3, as the specification states it, fails: the stream below has
    three well-formed data frames and one frame that is not JSON, and
    the response gets one fragment, not three; the first chunk holds an
    empty content and the last one none.  Likewise two well-formed
    Gemini reads around a malformed one give one fragment. *)
Lemma C3_frames_without_content_give_no_fragment :
  let good := ChatSample.pre ++ ChatSample.post in
  let served :=
    serve RefJSON.parse Sample.engine Sample.number Sample.all_keys
      (Sample.answers 200 ChatSample.reads_broken EndOfStream)
      (Sample.ocr_request "openai") in
  let greads := [Sample.gemini_read "A"; ChatSample.gemini_finish] in
  let gemini :=
    gemini_loop RefJSON.parse Sample.engine
      [Sample.gemini_read "A"; Sample.gemini_broken; ChatSample.gemini_finish]
      EndOfStream new_TextDecoder new_World in
  (forallb (frame_well_formed RefJSON.parse) good = true /\
   frame_malformed RefJSON.parse Sample.broken = true /\
   snd (decode new_TextDecoder (concat ChatSample.reads_broken) true) =
     sse_text (ChatSample.pre ++ Sample.broken :: ChatSample.post) /\
   length (data_frames good) = 3 /\
   written (res served) = [str "Hi"] /\
   statusCode (res served) = 200%N /\ ended (res served) = true) /\
  (forallb (read_well_formed RefJSON.parse) greads = true /\
   read_malformed RefJSON.parse Sample.gemini_broken = true /\
   length greads = 2 /\
   snd gemini = inr tt /\
   written (res (fst gemini)) = [str "A"]).
Proof. vm_compute. repeat split. Qed.

(** ** Reads that cut a character in two *)

(** C2.  The two bytes of U+00E9 delivered in two reads.  Decoded at
    once they are one character, and so they are through the
    OpenAI-compatible loop's [decode(value, {stream: true})]; the client
    generator and the Gemini loop call [decode(value)] on every read and
    get a replacement character for each half. *)
Theorem C2_split_character_is_replaced :
  let whole := [Byte.xc3; Byte.xa9] in
  let split := [[Byte.xc3]; [Byte.xa9]] in
  let backend rs := fun _ : JSON =>
    inr (mkResponse 200 (Some (mkBody rs EndOfStream))) : exn + Response in
  let extract :=
    extractTextFromImageStream (inr (str "AAAA", str "image/png"))
      (str "general") (str "standard") (str "gemini") in
  decode_all whole = [0xE9%N] /\
  extract (backend [whole]) = ([[0xE9%N]], inr tt) /\
  extract (backend split) = ([[0xFFFD%N]; [0xFFFD%N]], inr tt) /\
  (let '(td, t1) := decode new_TextDecoder [Byte.xc3] false in
   t1 ++ snd (decode td [Byte.xa9] false)) = [0xFFFD%N; 0xFFFD%N] /\
  (let '(td, t1) := decode new_TextDecoder [Byte.xc3] true in
   t1 ++ snd (decode td [Byte.xa9] true)) = [0xE9%N].
Proof. vm_compute. repeat split. Qed.

(** ** Binarization *)

Lemma avg_gt_128_below (n : nat) :
  forallb (fun s => Bool.eqb (avg_gt_128 (N.of_nat s)) (384 <? N.of_nat s)%N)
          (seq 0 n) = true ->
  forall s, (s < N.of_nat n)%N -> avg_gt_128 s = (384 <? s)%N.
Proof.
  intros H s Hs. rewrite forallb_forall in H.
  specialize (H (N.to_nat s)). rewrite N2Nat.id in H.
  apply eqb_prop, H, in_seq. lia.
Qed.

(** On the sums three bytes can reach, the double-precision test
    [sum / 3 > 128] is the exact one. *)
Lemma avg_gt_128_exact (s : N) :
  (s <= 765)%N -> avg_gt_128 s = (384 <? s)%N.
Proof.
  intros Hs. apply (avg_gt_128_below 766); [vm_compute; reflexivity | lia].
Qed.

Lemma byte_sum_bound (r g b : Byte.byte) :
  (Byte.to_N r + Byte.to_N g + Byte.to_N b <= 765)%N.
Proof.
  pose proof (Byte.to_N_bounded r). pose proof (Byte.to_N_bounded g).
  pose proof (Byte.to_N_bounded b). lia.
Qed.

Lemma binarize_pixel_length (data : list Byte.byte) (i : nat) :
  length (binarize_pixel data i) = length data.
Proof. unfold binarize_pixel. now rewrite !length_insert. Qed.

Lemma binarize_pixel_other (data : list Byte.byte) (i j : nat) :
  j < i \/ i + 2 < j ->
  binarize_pixel data i !! j = data !! j.
Proof.
  intros H. unfold binarize_pixel.
  rewrite !list_lookup_insert_ne by lia. reflexivity.
Qed.

Lemma binarize_pixel_channel (data : list Byte.byte) (i c : nat)
    (r g b : Byte.byte) :
  data !! i = Some r -> data !! (i + 1) = Some g -> data !! (i + 2) = Some b ->
  c < 3 ->
  binarize_pixel data i !! (i + c) =
  Some (if (384 <? Byte.to_N r + Byte.to_N g + Byte.to_N b)%N
        then Byte.xff else Byte.x00).
Proof.
  intros Hr Hg Hb Hc. unfold binarize_pixel. rewrite Hr, Hg, Hb.
  rewrite avg_gt_128_exact by apply byte_sum_bound.
  apply lookup_lt_Some in Hb.
  destruct c as [|[|[|c]]]; [| | |lia].
  - rewrite Nat.add_0_r, !list_lookup_insert_ne by lia.
    apply list_lookup_insert_eq. lia.
  - rewrite list_lookup_insert_ne by lia.
    apply list_lookup_insert_eq. rewrite length_insert. lia.
  - apply list_lookup_insert_eq. rewrite !length_insert. lia.
Qed.

Lemma binarize_from_length (fuel i : nat) (data : list Byte.byte) :
  length (binarize_from fuel i data) = length data.
Proof.
  revert i data. induction fuel as [|fuel IH]; intros i data; [reflexivity|].
  cbn [binarize_from]. destruct (i <? length data); [|reflexivity].
  now rewrite IH, binarize_pixel_length.
Qed.

(** The loop at index [i] leaves what is below [i] alone. *)
Lemma binarize_from_below (fuel i j : nat) (data : list Byte.byte) :
  j < i -> binarize_from fuel i data !! j = data !! j.
Proof.
  revert i data. induction fuel as [|fuel IH]; intros i data Hj; [reflexivity|].
  cbn [binarize_from]. destruct (i <? length data); [|reflexivity].
  rewrite IH by lia. apply binarize_pixel_other. lia.
Qed.

(** The pixel [k] steps ahead of the loop index. *)
Lemma binarize_from_pixel (k fuel i : nat) (data : list Byte.byte)
    (r g b a : Byte.byte) :
  k < fuel ->
  data !! (i + 4 * k) = Some r -> data !! (i + 4 * k + 1) = Some g ->
  data !! (i + 4 * k + 2) = Some b -> data !! (i + 4 * k + 3) = Some a ->
  let color := if (384 <? Byte.to_N r + Byte.to_N g + Byte.to_N b)%N
               then Byte.xff else Byte.x00 in
  let out := binarize_from fuel i data in
  out !! (i + 4 * k) = Some color /\ out !! (i + 4 * k + 1) = Some color /\
  out !! (i + 4 * k + 2) = Some color /\ out !! (i + 4 * k + 3) = Some a.
Proof.
  revert fuel i data. induction k as [|k IH]; intros fuel i data Hk Hr Hg Hb Ha.
  - destruct fuel as [|fuel]; [lia|]. cbn [binarize_from].
    rewrite Nat.mul_0_r, Nat.add_0_r in *.
    pose proof (lookup_lt_Some _ _ _ Hr) as Hlen.
    apply Nat.ltb_lt in Hlen. rewrite Hlen. cbv zeta.
    rewrite !binarize_from_below by lia.
    rewrite <- (Nat.add_0_r i) at 1.
    rewrite !(binarize_pixel_channel data i _ r g b) by (assumption || lia).
    rewrite binarize_pixel_other by lia. auto.
  - destruct fuel as [|fuel]; [lia|]. cbn [binarize_from].
    pose proof (lookup_lt_Some _ _ _ Hr) as Hlen.
    assert (Hi : (i <? length data) = true) by (apply Nat.ltb_lt; lia).
    rewrite Hi.
    replace (i + 4 * S k) with (i + 4 + 4 * k) in * by lia.
    apply IH; [lia | | | |]; rewrite binarize_pixel_other by lia; assumption.
Qed.

(** C4.  After the binarization loop every pixel has its red, green and
    blue bytes all 255 or all 0, 255 exactly when the mean of the three
    bytes it had is above 128, and its alpha byte is the one it had; the
    buffer keeps its length. *)
Theorem C4_binarize_channels_and_alpha
    (data : list Byte.byte) (p : nat) (r g b a : Byte.byte) :
  data !! (4 * p) = Some r -> data !! (4 * p + 1) = Some g ->
  data !! (4 * p + 2) = Some b -> data !! (4 * p + 3) = Some a ->
  let out := binarize data in
  let mean := (Z.of_N (Byte.to_N r + Byte.to_N g + Byte.to_N b) # 3)%Q in
  length out = length data /\
  exists color,
    out !! (4 * p) = Some color /\ out !! (4 * p + 1) = Some color /\
    out !! (4 * p + 2) = Some color /\ out !! (4 * p + 3) = Some a /\
    (color = Byte.xff \/ color = Byte.x00) /\
    (color = Byte.xff <-> (128 < mean)%Q).
Proof.
  intros Hr Hg Hb Ha out mean. subst out. split.
  - apply binarize_from_length.
  - pose proof (lookup_lt_Some _ _ _ Ha) as Hlen.
    destruct (binarize_from_pixel p (length data) 0 data r g b a)
      as (H0 & H1 & H2 & H3); [lia | assumption..|].
    cbn [Nat.add] in *. unfold binarize.
    eexists. split; [exact H0|]. split; [exact H1|]. split; [exact H2|].
    split; [exact H3|]. split.
    + destruct (384 <? _)%N; auto.
    + subst mean. unfold Qlt. cbn [Qnum Qden].
      destruct (384 <? _)%N eqn:E.
      * apply N.ltb_lt in E. split; [lia | reflexivity].
      * apply N.ltb_ge in E. split; [discriminate | lia].
Qed.

(** ** The main handler *)

Section Handler.

Variable JSON_parse : jsstring -> option JSON.
Variable engine_message : engine_error -> jsstring.
Variable number_to_string : Q -> jsstring.
Variable env : gmap string jsstring.
Variable upstream : Call -> exn + Response.

Local Abbreviation handle :=
  (handler JSON_parse engine_message number_to_string env upstream).
Local Abbreviation try_block :=
  (handler_try JSON_parse engine_message number_to_string env upstream).
Local Abbreviation to_text :=
  (text_route JSON_parse engine_message number_to_string env upstream).
Local Abbreviation to_image :=
  (image_route JSON_parse engine_message number_to_string env upstream).

Lemma handler_post (req : Request) (w : World) :
  method req = Some (str "POST") ->
  handle req w = try_catch (try_block req) handler_catch w.
Proof.
  intros H. unfold handler. now rewrite bool_decide_eq_true_2.
Qed.

(** The handler on a POST with a body: one of three ways. *)
Lemma handler_routes (req : Request) (j : JSON) (w : World) :
  method req = Some (str "POST") ->
  req_body req = Some j -> j <> JNull ->
  handle req w =
  if truthy (own_prop "task" j) && truthy (own_prop "text" j)
  then try_catch (to_text j) handler_catch w
  else if truthy (own_prop "image" j)
       then try_catch (to_image j) handler_catch w
       else (mkWorld (replied 400 (error_body (str "Invalid request body.")) (res w))
                     (fetched w) (parsed w) (logged w), inr tt).
Proof.
  intros Hm Hb Hj. rewrite handler_post by assumption.
  unfold try_catch at 1, handler_try. rewrite Hb.
  destruct j; [congruence|..];
    (destruct (truthy (own_prop "task" _) && truthy (own_prop "text" _));
     [reflexivity|]);
    (destruct (truthy (own_prop "image" _)); reflexivity).
Qed.

(** C5, as the handler has it.  For a POST whose body is not null, the
    handler takes the text-task route exactly when [task] and [text] are
    both truthy, the OCR route exactly when it does not and [image] is
    truthy, and otherwise answers 400 with a JSON error body, nothing
    fetched. *)
Theorem C5_mode_by_truthy_fields (req : Request) (j : JSON) (w : World) :
  method req = Some (str "POST") ->
  req_body req = Some j -> j <> JNull ->
  let text_mode := truthy (own_prop "task" j) && truthy (own_prop "text" j) in
  let ocr_mode := negb text_mode && truthy (own_prop "image" j) in
  handle req w =
    (if text_mode then try_catch (to_text j) handler_catch w
     else if ocr_mode then try_catch (to_image j) handler_catch w
     else (mkWorld (replied 400 (error_body (str "Invalid request body.")) (res w))
                   (fetched w) (parsed w) (logged w), inr tt)) /\
  (text_mode = false -> ocr_mode = false ->
   statusCode (res (fst (handle req w))) = 400%N /\
   fetched (fst (handle req w)) = fetched w).
Proof.
  intros Hm Hb Hj text_mode ocr_mode.
  pose proof (handler_routes req j w Hm Hb Hj) as Heq.
  fold text_mode in Heq. subst ocr_mode.
  destruct text_mode; cbn [negb andb].
  - split; [exact Heq | discriminate].
  - destruct (truthy (own_prop "image" j)).
    + split; [exact Heq | discriminate].
    + split; [exact Heq|]. intros _ _. rewrite Heq. split; reflexivity.
Qed.

End Handler.

(** C5, as the specification states it, fails: a body with both [task]
    and [text] present, [text] the empty string, is answered 400. *)
Lemma C5_present_but_empty_text_is_rejected :
  let j := JObj [(str "task", JStr (str "title")); (str "text", JStr [])] in
  let req := mkRequest (Some (str "POST")) (Some j) in
  let w := serve RefJSON.parse Sample.engine Sample.number Sample.no_keys
                 Sample.unreachable req in
  own_prop "task" j <> None /\ own_prop "text" j <> None /\
  statusCode (res w) = 400%N /\
  sent (res w) = Some (error_body (str "Invalid request body.")) /\
  fetched w = [].
Proof. vm_compute. repeat split; discriminate. Qed.

(** ** Routes and providers *)

Section Routes.

Variable JSON_parse : jsstring -> option JSON.
Variable engine_message : engine_error -> jsstring.
Variable number_to_string : Q -> jsstring.
Variable env : gmap string jsstring.
Variable upstream : Call -> exn + Response.

Local Abbreviation to_text :=
  (text_route JSON_parse engine_message number_to_string env upstream).
Local Abbreviation to_image :=
  (image_route JSON_parse engine_message number_to_string env upstream).
Local Abbreviation run_stream :=
  (stream_handler JSON_parse engine_message number_to_string upstream).
Local Abbreviation run_text :=
  (text_handler JSON_parse engine_message number_to_string upstream).
Local Abbreviation loop_of := (stream_loop JSON_parse engine_message).
Local Abbreviation call_of := (stream_call number_to_string).

Lemma image_route_provider (input : JSON) (w : World) :
  let p := select_provider (own_prop "llm" input) in
  to_image input w =
  bind (bind (require_key env p) (run_stream p input)) (fun _ => res_end) w.
Proof.
  cbv zeta. unfold image_route.
  destruct (select_provider (own_prop "llm" input)); reflexivity.
Qed.

Lemma text_route_provider (input : JSON) (w : World) :
  let p := select_provider (own_prop "llm" input) in
  to_text input w =
  bind (bind (require_key env p) (run_text p input))
       (fun result => bind (res_status 200)
                        (fun _ => res_send (JObj [(str "result", result)]))) w.
Proof.
  cbv zeta. unfold text_route.
  destruct (select_provider (own_prop "llm" input)); reflexivity.
Qed.

Lemma require_key_present (p : Provider) (k : jsstring) (w : World) :
  env !! credential_name p = Some k -> k <> [] ->
  require_key env p w = (w, inr k).
Proof.
  intros H Hk. unfold require_key. rewrite H.
  destruct k; [congruence | reflexivity].
Qed.

Lemma require_key_missing (p : Provider) (w : World) :
  key_missing env p ->
  require_key env p w =
  (w, inl (JsError (str (credential_name p) ++ str " is not configured."))).
Proof. intros [H|H]; unfold require_key; rewrite H; reflexivity. Qed.

(** The [catch] block before and after the headers are sent. *)
Lemma handler_catch_before (e : exn) (w : World) :
  headersSent (res w) = false ->
  handler_catch e w = (failed (errorMessage e) w, inr tt).
Proof.
  intros H. unfold handler_catch, bind, console_error, get_res.
  cbn [res]. rewrite H. reflexivity.
Qed.

Lemma handler_catch_after (e : exn) (w : World) :
  headersSent (res w) = true ->
  handler_catch e w =
  (mkWorld (closed (res w)) (fetched w) (parsed w)
           (logged w ++ [str "Error in Vercel Serverless Function:"]
                     ++ [str "Error occurred mid-stream. Closing connection."]),
   inr tt).
Proof.
  intros H. unfold handler_catch, bind, console_error, get_res.
  cbn [res]. rewrite H. cbn. now rewrite <- app_assoc.
Qed.

(** A non-success status: the handler throws the status and the body
    text, having fetched once and written nothing. *)
Lemma stream_handler_status_error (p : Provider) (input : JSON) (key : jsstring)
    (resp : Response) (t : jsstring) (w : World) :
  upstream (call_of p input key) = inr resp ->
  ok resp = false -> body_text resp = inr t ->
  run_stream p input key w =
  (mkWorld (res w) (fetched w ++ [call_of p input key]) (parsed w) (logged w),
   inl (JsError (str (upstream_error_label p) ++ show_N (status resp)
                 ++ str " " ++ t))).
Proof.
  intros Hu Hok Ht.
  destruct p;
    cbn [stream_handler stream_call stream_url stream_model
         upstream_error_label] in *.
  all: unfold handleGeminiStream, handleOpenAICompatibleStream; cbv zeta.
  all: unfold bind at 1, fetch; cbv zeta.
  all: rewrite Hu.
  all: unfold bind at 1, check_ok; rewrite Hok.
  all: unfold bind at 1, response_text; rewrite Ht.
  all: reflexivity.
Qed.

(** A success status: the handler is its read loop. *)
Lemma stream_handler_success (p : Provider) (input : JSON) (key : jsstring)
    (st : N) (b : Body) (w : World) :
  upstream (call_of p input key) = inr (mkResponse st (Some b)) ->
  ok (mkResponse st (Some b)) = true ->
  run_stream p input key w =
  loop_of p (reads b) (finish b) (streaming (call_of p input key) w).
Proof.
  intros Hu Hok.
  destruct p;
    cbn [stream_handler stream_call stream_url stream_model
         stream_loop] in *.
  all: unfold handleGeminiStream, handleOpenAICompatibleStream; cbv zeta.
  all: unfold bind at 1, fetch; cbv zeta.
  all: rewrite Hu.
  all: unfold bind at 1, check_ok; rewrite Hok.
  all: unfold ret at 1; unfold bind at 1, res_setHeader, modify_res.
  all: unfold bind, getReader, ret; cbn [body res fetched parsed logged].
  all: reflexivity.
Qed.

(** The loop to the end of the stream, and the same loop cut by a
    failing read: the same writes either way. *)
Lemma stream_loop_ends (p : Provider) (rs : list (list Byte.byte)) (w : World) :
  exists ws ps ls,
    loop_of p rs EndOfStream w = (effect ws ps ls w, inr tt) /\
    forall e, loop_of p rs (ReadFails e) w = (effect ws ps ls w, inl e).
Proof.
  destruct p; cbn [loop_of].
  - destruct (gemini_loop_effect JSON_parse engine_message rs new_TextDecoder w)
      as (ws & ps & ls & H).
    exists ws, ps, ls. split; [exact H|]. intros e.
    destruct (gemini_loop_fails JSON_parse engine_message rs e new_TextDecoder w)
      as [-> _]. now rewrite H.
  - destruct (openai_loop_effect JSON_parse engine_message rs new_TextDecoder [] w)
      as (ws & ps & ls & H).
    exists ws, ps, ls. split; [exact H|]. intros e.
    destruct (openai_loop_fails JSON_parse engine_message rs e new_TextDecoder [] w)
      as [-> _]. now rewrite H.
  - destruct (openai_loop_effect JSON_parse engine_message rs new_TextDecoder [] w)
      as (ws & ps & ls & H).
    exists ws, ps, ls. split; [exact H|]. intros e.
    destruct (openai_loop_fails JSON_parse engine_message rs e new_TextDecoder [] w)
      as [-> _]. now rewrite H.
Qed.

End Routes.

(** ** Calls to the upstream *)

Section Quiet.

Variable JSON_parse : jsstring -> option JSON.
Variable engine_message : engine_error -> jsstring.
Variable number_to_string : Q -> jsstring.
Variable env : gmap string jsstring.
Variable upstream : Call -> exn + Response.

Local Abbreviation run_stream :=
  (stream_handler JSON_parse engine_message number_to_string upstream).
Local Abbreviation run_text :=
  (text_handler JSON_parse engine_message number_to_string upstream).
Local Abbreviation loop_of := (stream_loop JSON_parse engine_message).

Lemma quiet_ret {A} (a : A) : quiet (ret a).
Proof. intros w. reflexivity. Qed.

Lemma quiet_throw {A} (e : exn) : quiet (@throw A e).
Proof. intros w. reflexivity. Qed.

Lemma quiet_bind {A B} (m : M A) (k : A -> M B) :
  quiet m -> (forall a, quiet (k a)) -> quiet (bind m k).
Proof.
  intros Hm Hk w. unfold bind. specialize (Hm w).
  destruct (m w) as [w1 [e|a]]; [exact Hm|].
  rewrite Hk. exact Hm.
Qed.

Lemma quiet_modify_res (f : Res -> Res) : quiet (modify_res f).
Proof. intros w. reflexivity. Qed.

Lemma quiet_console_error (label : string) : quiet (console_error label).
Proof. intros w. reflexivity. Qed.

Lemma quiet_get_prop (k : string) (v : JSValue) :
  quiet (get_prop engine_message k v).
Proof. intros w. destruct v as [[]|]; reflexivity. Qed.

Lemma quiet_get_index (i : nat) (v : JSValue) :
  quiet (get_index engine_message i v).
Proof. intros w. destruct v as [[]|]; reflexivity. Qed.

Lemma quiet_opt_trim (v : JSValue) : quiet (opt_trim engine_message v).
Proof. intros w. destruct v as [[]|]; reflexivity. Qed.

Lemma quiet_response_text (r : Response) : quiet (response_text r).
Proof. intros w. unfold response_text. destruct (body_text r); reflexivity. Qed.

Lemma quiet_response_json (r : Response) :
  quiet (response_json JSON_parse engine_message r).
Proof.
  apply quiet_bind; [apply quiet_response_text|].
  intros t w. destruct (JSON_parse t); reflexivity.
Qed.

Lemma quiet_check_ok (label : string) (r : Response) : quiet (check_ok label r).
Proof.
  unfold check_ok. destruct (ok r); [apply quiet_ret|].
  apply quiet_bind; [apply quiet_response_text|]. intros t. apply quiet_throw.
Qed.

Lemma quiet_getReader (r : Response) : quiet (getReader engine_message r).
Proof. intros w. unfold getReader. destruct (body r); reflexivity. Qed.

Lemma quiet_stream_loop (p : Provider) (rs : list (list Byte.byte))
    (fin : ReadEnd) : quiet (loop_of p rs fin).
Proof.
  intros w.
  destruct (stream_loop_ends JSON_parse engine_message p rs w)
    as (ws & ps & ls & Hend & Hfail).
  destruct fin as [|e]; [rewrite Hend | rewrite Hfail]; reflexivity.
Qed.

Lemma quiet_handler_catch (e : exn) : quiet (handler_catch e).
Proof.
  intros w. unfold handler_catch, bind, console_error, get_res. cbn [res].
  destruct (headersSent (res w)); reflexivity.
Qed.

Lemma quiet_try_catch {A} (m : M A) (h : exn -> M A) (w : World) (urls : list jsstring) :
  map call_url (fetched (fst (m w))) = map call_url (fetched w) ++ urls ->
  (forall e, quiet (h e)) ->
  map call_url (fetched (fst (try_catch m h w))) = map call_url (fetched w) ++ urls.
Proof.
  intros Hm Hh. unfold try_catch. destruct (m w) as [w1 [e|a]]; [|exact Hm].
  rewrite Hh. exact Hm.
Qed.

(** A fetch followed by no other. *)
Lemma fetch_then_quiet {A} (url : jsstring) (hdrs : list (jsstring * jsstring))
    (payload : JSON) (k : Response -> M A) (w : World) :
  (forall r, quiet (k r)) ->
  map call_url (fetched (fst (bind (fetch upstream url hdrs payload) k w)))
  = map call_url (fetched w) ++ [url].
Proof.
  intros Hk. unfold bind, fetch. cbv zeta.
  destruct (upstream _) as [e|r]; cbn [fst fetched].
  - now rewrite map_app.
  - rewrite Hk. cbn [fetched]. now rewrite map_app.
Qed.

(** Each handler calls its provider's endpoint once, whatever comes
    back. *)
Lemma text_handler_fetched (p : Provider) (input : JSON) (key : jsstring)
    (w : World) :
  map call_url (fetched (fst (run_text p input key w)))
  = map call_url (fetched w) ++ [text_url p key].
Proof.
  destruct p; cbn [text_handler text_url];
    unfold handleGeminiText, handleOpenAICompatibleText; cbv zeta;
    apply fetch_then_quiet; intros r;
    (apply quiet_bind; [apply quiet_check_ok|]); intros _;
    (apply quiet_bind; [apply quiet_response_json|]); intros json;
    (apply quiet_bind; [apply quiet_get_prop|]); intros v.
  - apply quiet_bind; [apply quiet_opt_trim|]. intros t. apply quiet_ret.
  - apply quiet_bind; [apply quiet_get_index|]. intros first.
    apply quiet_bind; [apply quiet_opt_trim|]. intros t. apply quiet_ret.
  - apply quiet_bind; [apply quiet_get_index|]. intros first.
    apply quiet_bind; [apply quiet_opt_trim|]. intros t. apply quiet_ret.
Qed.

Lemma stream_handler_fetched (p : Provider) (input : JSON) (key : jsstring)
    (w : World) :
  map call_url (fetched (fst (run_stream p input key w)))
  = map call_url (fetched w) ++ [stream_url p key].
Proof.
  assert (Hloop : forall rs fin,
             quiet (match p with
                    | Gemini => gemini_loop JSON_parse engine_message rs fin
                                  new_TextDecoder
                    | _ => openai_loop JSON_parse engine_message rs fin
                             new_TextDecoder []
                    end)).
  { intros rs fin. pose proof (quiet_stream_loop p rs fin) as H.
    destruct p; exact H. }
  destruct p; cbn [stream_handler stream_url];
    unfold handleGeminiStream, handleOpenAICompatibleStream; cbv zeta;
    apply fetch_then_quiet; intros r;
    (apply quiet_bind; [apply quiet_check_ok|]); intros _;
    (apply quiet_bind; [apply quiet_modify_res|]); intros _;
    (apply quiet_bind; [apply quiet_getReader|]); intros reader;
    apply Hloop.
Qed.

End Quiet.

(** ** Credentials, provider selection and upstream failures *)

Section Serving.

Variable JSON_parse : jsstring -> option JSON.
Variable engine_message : engine_error -> jsstring.
Variable number_to_string : Q -> jsstring.
Variable env : gmap string jsstring.
Variable upstream : Call -> exn + Response.

Local Abbreviation served :=
  (serve JSON_parse engine_message number_to_string env upstream).
Local Abbreviation to_text :=
  (text_route JSON_parse engine_message number_to_string env upstream).
Local Abbreviation to_image :=
  (image_route JSON_parse engine_message number_to_string env upstream).
Local Abbreviation call_of := (stream_call number_to_string).

(** A route whose provider has no key fails in the [catch] block before
    anything else happens. *)
Lemma route_without_key (input : JSON) (w : World) :
  key_missing env (select_provider (own_prop "llm" input)) ->
  headersSent (res w) = false ->
  let message :=
    str (credential_name (select_provider (own_prop "llm" input)))
    ++ str " is not configured." in
  try_catch (to_text input) handler_catch w = (failed message w, inr tt) /\
  try_catch (to_image input) handler_catch w = (failed message w, inr tt).
Proof.
  intros Hk Hh message. unfold try_catch.
  rewrite text_route_provider, image_route_provider. unfold bind.
  rewrite require_key_missing by assumption.
  now rewrite handler_catch_before.
Qed.

(** C7.  When the credential of the selected provider is missing, the
    request, in either mode, is answered 500 with an error that names
    the provider's key, and no upstream is called. *)
Theorem C7_missing_credential_fails_before_any_fetch
    (req : Request) (j : JSON) :
  method req = Some (str "POST") ->
  req_body req = Some j -> j <> JNull ->
  truthy (own_prop "task" j) && truthy (own_prop "text" j)
    || truthy (own_prop "image" j) = true ->
  key_missing env (select_provider (own_prop "llm" j)) ->
  let key_name := credential_name (select_provider (own_prop "llm" j)) in
  served req = failed (str key_name ++ str " is not configured.") new_World /\
  statusCode (res (served req)) = 500%N /\
  sent (res (served req)) =
    Some (error_body (str "Error processing your request: "
                      ++ str key_name ++ str " is not configured.")) /\
  fetched (served req) = [].
Proof.
  intros Hm Hb Hj Hmode Hk key_name.
  assert (Hs : served req =
               failed (str key_name ++ str " is not configured.") new_World).
  { unfold serve. rewrite (handler_routes _ _ _ _ _ req j new_World Hm Hb Hj).
    destruct (route_without_key j new_World Hk eq_refl) as [Htext Himage].
    destruct (truthy (own_prop "task" j) && truthy (own_prop "text" j)).
    - now rewrite Htext.
    - cbn [orb] in Hmode. rewrite Hmode. now rewrite Himage. }
  rewrite Hs. repeat split.
Qed.



End Serving.

(** ** A stream that fails under way *)

(** Serving an OCR request whose provider answers with success: the
    world after the read loop, and how the handler closes it. *)
Lemma serve_stream (JSON_parse : jsstring -> option JSON)
    (engine_message : engine_error -> jsstring)
    (number_to_string : Q -> jsstring) (env : gmap string jsstring)
    (upstream : Call -> exn + Response)
    (req : Request) (j : JSON) (key : jsstring) (st : N)
    (rs : list (list Byte.byte)) (fin : ReadEnd) :
  method req = Some (str "POST") ->
  req_body req = Some j -> j <> JNull ->
  truthy (own_prop "task" j) && truthy (own_prop "text" j) = false ->
  truthy (own_prop "image" j) = true ->
  let p := select_provider (own_prop "llm" j) in
  let call := stream_call number_to_string p j key in
  env !! credential_name p = Some key -> key <> [] ->
  upstream call = inr (mkResponse st (Some (mkBody rs fin))) ->
  ok (mkResponse st (Some (mkBody rs fin))) = true ->
  serve JSON_parse engine_message number_to_string env upstream req =
  fst (try_catch
         (bind (stream_loop JSON_parse engine_message p rs fin)
               (fun _ => res_end))
         handler_catch (streaming call new_World)).
Proof.
  intros Hm Hb Hj Htext Himage p call Hkey Hne Hu Hok.
  unfold serve. rewrite (handler_routes _ _ _ _ _ req j new_World Hm Hb Hj).
  rewrite Htext, Himage. unfold try_catch.
  rewrite image_route_provider. unfold bind. fold p.
  rewrite (require_key_present env p key) by assumption.
  now rewrite (stream_handler_success _ _ _ _ p j key st (mkBody rs fin)).
Qed.



(** ** The theorems on the sample inputs *)


Lemma C3_sample_stream :
  let pre := ChatSample.pre in
  let post := ChatSample.post in
  let gpre := [Sample.gemini_read "A"] in
  let gpost := [ChatSample.gemini_finish; Sample.gemini_read "B"] in
  let openai :=
    openai_loop RefJSON.parse Sample.engine ChatSample.reads_broken EndOfStream
                new_TextDecoder [] new_World in
  let gemini :=
    gemini_loop RefJSON.parse Sample.engine
      (gpre ++ Sample.gemini_broken :: gpost) EndOfStream new_TextDecoder
      new_World in
  (snd openai = inr tt /\
   written (res (fst openai)) =
     written (res new_World) ++ frame_fragments RefJSON.parse (pre ++ post) /\
   parsed (fst openai) =
     parsed new_World ++ payloads (pre ++ Sample.broken :: post) /\
   logged (fst openai) = logged new_World ++ [str "Error parsing stream JSON:"] /\
   length (frame_fragments RefJSON.parse (pre ++ post))
     <= length (data_frames (pre ++ post)) /\
   (forallb (fun f => frame_delivers RefJSON.parse f || frame_inert f)
            (pre ++ post) = true ->
    written (res (fst openai)) =
      written (res new_World)
      ++ map (frame_content RefJSON.parse) (data_frames (pre ++ post)) /\
    length (written (res (fst openai))) =
      length (written (res new_World)) + length (data_frames (pre ++ post)))) /\
  (snd gemini = inr tt /\
   written (res (fst gemini)) =
     written (res new_World) ++ read_fragments RefJSON.parse (gpre ++ gpost) /\
   parsed (fst gemini) =
     parsed new_World ++ map read_text (gpre ++ Sample.gemini_broken :: gpost) /\
   logged (fst gemini) =
     logged new_World ++ [str "Error parsing Gemini stream chunk:"] /\
   length (read_fragments RefJSON.parse (gpre ++ gpost)) <= length (gpre ++ gpost) /\
   (forallb (read_delivers RefJSON.parse) (gpre ++ gpost) = true ->
    written (res (fst gemini)) =
      written (res new_World) ++ map (read_content RefJSON.parse) (gpre ++ gpost) /\
    length (written (res (fst gemini))) =
      length (written (res new_World)) + length (gpre ++ gpost))).
Proof.
  apply (C3_one_malformed_frame_is_skipped RefJSON.parse Sample.engine
           ChatSample.pre ChatSample.post Sample.broken ChatSample.reads_broken
           [Sample.gemini_read "A"]
           [ChatSample.gemini_finish; Sample.gemini_read "B"]
           Sample.gemini_broken new_World);
    vm_compute; reflexivity.
Defined.

Lemma C4_sample_pixels :
  let out := binarize Sample.pixels in
  let mean := (Z.of_N (Byte.to_N Byte.x80 + Byte.to_N Byte.x80
                       + Byte.to_N Byte.x81) # 3)%Q in
  length out = length Sample.pixels /\
  exists color,
    out !! (4 * 0) = Some color /\ out !! (4 * 0 + 1) = Some color /\
    out !! (4 * 0 + 2) = Some color /\ out !! (4 * 0 + 3) = Some Byte.x07 /\
    (color = Byte.xff \/ color = Byte.x00) /\
    (color = Byte.xff <-> (128 < mean)%Q).
Proof.
  apply (C4_binarize_channels_and_alpha Sample.pixels 0
           Byte.x80 Byte.x80 Byte.x81 Byte.x07); reflexivity.
Defined.

Lemma C5_sample_request :
  let j := Sample.ocr_body "openai" in
  let req := Sample.ocr_request "openai" in
  let handle := handler RefJSON.parse Sample.engine Sample.number Sample.no_keys
                  Sample.unreachable in
  let text_mode := truthy (own_prop "task" j) && truthy (own_prop "text" j) in
  let ocr_mode := negb text_mode && truthy (own_prop "image" j) in
  handle req new_World =
    (if text_mode
     then try_catch (text_route RefJSON.parse Sample.engine Sample.number
                       Sample.no_keys Sample.unreachable j)
            handler_catch new_World
     else if ocr_mode
          then try_catch (image_route RefJSON.parse Sample.engine Sample.number
                            Sample.no_keys Sample.unreachable j)
                 handler_catch new_World
          else (mkWorld (replied 400 (error_body (str "Invalid request body."))
                           (res new_World))
                  (fetched new_World) (parsed new_World) (logged new_World),
                inr tt)) /\
  (text_mode = false -> ocr_mode = false ->
   statusCode (res (fst (handle req new_World))) = 400%N /\
   fetched (fst (handle req new_World)) = fetched new_World).
Proof.
  apply (C5_mode_by_truthy_fields RefJSON.parse Sample.engine Sample.number
           Sample.no_keys Sample.unreachable (Sample.ocr_request "openai")
           (Sample.ocr_body "openai") new_World);
    [reflexivity | reflexivity | discriminate].
Defined.


Lemma C7_sample_request :
  let served := serve RefJSON.parse Sample.engine Sample.number Sample.no_keys
                  Sample.unreachable (Sample.ocr_request "deepseek") in
  let key_name :=
    credential_name (select_provider (own_prop "llm" (Sample.ocr_body "deepseek"))) in
  served = failed (str key_name ++ str " is not configured.") new_World /\
  statusCode (res served) = 500%N /\
  sent (res served) =
    Some (error_body (str "Error processing your request: "
                      ++ str key_name ++ str " is not configured.")) /\
  fetched served = [].
Proof.
  apply (C7_missing_credential_fails_before_any_fetch RefJSON.parse Sample.engine
           Sample.number Sample.no_keys Sample.unreachable
           (Sample.ocr_request "deepseek") (Sample.ocr_body "deepseek"));
    [reflexivity | reflexivity | discriminate | reflexivity
    | left; vm_compute; reflexivity].
Defined.



Lemma C10_sample_stream :
  let complete := str "data: " ++ Sample.payload_2 ++ [LF] in
  let run rs :=
    openai_loop RefJSON.parse Sample.engine rs EndOfStream new_TextDecoder []
                new_World in
  run [Sample.wire_unterminated] =
    for_each (openai_line RefJSON.parse Sample.engine)
             (pop_rest (split_lf complete)) new_World /\
  forall rs' tail',
    snd (decode new_TextDecoder (concat rs') true) = complete ++ tail' ->
    has_LF tail' = false ->
    run rs' = run [Sample.wire_unterminated].
Proof.
  apply (C10_unterminated_last_line_is_discarded RefJSON.parse Sample.engine
           [Sample.wire_unterminated]
           (str "data: " ++ Sample.payload_2 ++ [LF])
           (str "data: " ++ Sample.payload_lost)
           new_World).
  - vm_compute. reflexivity.
  - right. exists (str "data: " ++ Sample.payload_2).
    now rewrite <- app_assoc.
  - vm_compute. reflexivity.
Defined.

(** * Further properties of the backend *)

(** ** Requests the handler turns away at once *)

Section Rejections.

Variable JSON_parse : jsstring -> option JSON.
Variable engine_message : engine_error -> jsstring.
Variable number_to_string : Q -> jsstring.
Variable env : gmap string jsstring.
Variable upstream : Call -> exn + Response.

Local Abbreviation served :=
  (serve JSON_parse engine_message number_to_string env upstream).

(** X1.  A request whose method is not POST is answered 405 with an
    [Allow: POST] header and a JSON error body, whatever its body;
    nothing is fetched, parsed or logged. *)
Theorem X1_other_methods_are_answered_405 (req : Request) :
  method req <> Some (str "POST") ->
  served req =
  mkWorld (mkRes true 405 [(str "Allow", [str "POST"])] []
                 (Some (error_body (str "Method Not Allowed"))) true)
          [] [] [].
Proof.
  intros H. unfold serve, handler. now rewrite bool_decide_eq_false_2.
Qed.

(** X2.  A POST whose body is missing or null does not reach the 400
    answer: the first property read throws, and the request is answered
    500 with the engine's message, nothing fetched. *)
Theorem X2_post_without_body_is_answered_500 (req : Request) :
  method req = Some (str "POST") ->
  req_body req = None \/ req_body req = Some JNull ->
  served req = failed (engine_message NullishRead) new_World /\
  statusCode (res (served req)) = 500%N /\
  fetched (served req) = [].
Proof.
  intros Hm Hb.
  assert (Hs : served req = failed (engine_message NullishRead) new_World).
  { unfold serve. rewrite handler_post by assumption.
    unfold try_catch, handler_try.
    destruct Hb as [-> | ->]; reflexivity. }
  rewrite Hs. repeat split.
Qed.

End Rejections.

(** ** What a handler can do to the world *)

Section Outcomes.

Variable JSON_parse : jsstring -> option JSON.
Variable engine_message : engine_error -> jsstring.
Variable number_to_string : Q -> jsstring.
Variable env : gmap string jsstring.
Variable upstream : Call -> exn + Response.

Local Abbreviation run_stream :=
  (stream_handler JSON_parse engine_message number_to_string upstream).
Local Abbreviation run_text :=
  (text_handler JSON_parse engine_message number_to_string upstream).
Local Abbreviation stream_call_of := (stream_call number_to_string).
Local Abbreviation text_call_of := (text_call number_to_string).

Lemma untouched_ret {A} (a : A) : untouched (ret a).
Proof. intros w. reflexivity. Qed.

Lemma untouched_throw {A} (e : exn) : untouched (@throw A e).
Proof. intros w. reflexivity. Qed.

Lemma untouched_bind {A B} (m : M A) (k : A -> M B) :
  untouched m -> (forall a, untouched (k a)) -> untouched (bind m k).
Proof.
  intros Hm Hk w. unfold bind. specialize (Hm w).
  destruct (m w) as [w1 [e|a]]; cbn [fst] in *; [exact Hm|].
  now rewrite Hk.
Qed.

Lemma untouched_get_prop (k : string) (v : JSValue) :
  untouched (get_prop engine_message k v).
Proof. intros w. destruct v as [[]|]; reflexivity. Qed.

Lemma untouched_get_index (i : nat) (v : JSValue) :
  untouched (get_index engine_message i v).
Proof. intros w. destruct v as [[]|]; reflexivity. Qed.

Lemma untouched_opt_trim (v : JSValue) : untouched (opt_trim engine_message v).
Proof. intros w. destruct v as [[]|]; reflexivity. Qed.

Lemma untouched_response_json (r : Response) :
  untouched (response_json JSON_parse engine_message r).
Proof.
  apply untouched_bind.
  - intros w. unfold response_text. destruct (body_text r); reflexivity.
  - intros t w. destruct (JSON_parse t); reflexivity.
Qed.

Lemma untouched_check_ok (label : string) (r : Response) :
  untouched (check_ok label r).
Proof.
  unfold check_ok. destruct (ok r); [apply untouched_ret|].
  apply untouched_bind; [|intros t; apply untouched_throw].
  intros w. unfold response_text. destruct (body_text r); reflexivity.
Qed.

(** After its one call, a text handler leaves the world alone. *)
Lemma text_handler_outcome (p : Provider) (input : JSON) (key : jsstring)
    (w : World) :
  fst (run_text p input key w) =
  mkWorld (res w) (fetched w ++ [text_call_of p input key]) (parsed w) (logged w).
Proof.
  assert (Hfetch : forall url hdrs payload (k : Response -> M JSON),
             (forall r, untouched (k r)) ->
             fst (bind (fetch upstream url hdrs payload) k w) =
             mkWorld (res w)
                     (fetched w ++ [mkCall url (str "POST") hdrs payload])
                     (parsed w) (logged w)).
  { intros url hdrs payload k Hk. unfold bind, fetch. cbv zeta.
    destruct (upstream _) as [e|r]; [reflexivity | apply Hk]. }
  destruct p; cbn [text_handler text_call text_url text_model];
    unfold handleGeminiText, handleOpenAICompatibleText; cbv zeta;
    apply Hfetch; intros r;
    (apply untouched_bind; [apply untouched_check_ok|]); intros _;
    (apply untouched_bind; [apply untouched_response_json|]); intros json;
    (apply untouched_bind; [apply untouched_get_prop|]); intros v.
  - apply untouched_bind; [apply untouched_opt_trim|]. intros t.
    apply untouched_ret.
  - apply untouched_bind; [apply untouched_get_index|]. intros first.
    apply untouched_bind; [apply untouched_opt_trim|]. intros t.
    apply untouched_ret.
  - apply untouched_bind; [apply untouched_get_index|]. intros first.
    apply untouched_bind; [apply untouched_opt_trim|]. intros t.
    apply untouched_ret.
Qed.

(** After its one call, a stream handler at most sets the content type
    and writes fragments; the headers count as sent exactly when a
    fragment was written. *)
Lemma stream_handler_outcome (p : Provider) (input : JSON) (key : jsstring)
    (w : World) :
  exists hs ws ps ls,
    fst (run_stream p input key w) =
    mkWorld (mkRes (headersSent (res w) || negb (bool_decide (ws = [])))
                   (statusCode (res w)) (headers (res w) ++ hs)
                   (written (res w) ++ ws) (sent (res w)) (ended (res w)))
            (fetched w ++ [stream_call_of p input key])
            (parsed w ++ ps) (logged w ++ ls).
Proof.
  assert (Hquiet : exists hs ws ps ls,
             mkWorld (res w) (fetched w ++ [stream_call_of p input key])
                     (parsed w) (logged w) =
             mkWorld (mkRes (headersSent (res w) || negb (bool_decide (ws = [])))
                            (statusCode (res w)) (headers (res w) ++ hs)
                            (written (res w) ++ ws) (sent (res w)) (ended (res w)))
                     (fetched w ++ [stream_call_of p input key])
                     (parsed w ++ ps) (logged w ++ ls)).
  { exists [], [], [], []. destruct w as [[hs0 sc hd wr sn en] f pa lg].
    cbn. now rewrite orb_false_r, !app_nil_r. }
  destruct (upstream (stream_call_of p input key)) as [e|[st [b|]]] eqn:Hu.
  - (* fetch rejects *)
    replace (fst (run_stream p input key w)) with
      (mkWorld (res w) (fetched w ++ [stream_call_of p input key])
               (parsed w) (logged w)); [exact Hquiet|].
    destruct p; cbn [stream_handler stream_call stream_url stream_model] in *;
      unfold handleGeminiStream, handleOpenAICompatibleStream; cbv zeta;
      unfold bind at 1, fetch; cbv zeta; rewrite Hu; reflexivity.
  - destruct (ok (mkResponse st (Some b))) eqn:Hok.
    + (* the read loop *)
      rewrite (stream_handler_success _ _ _ _ p input key st b w Hu Hok).
      destruct (stream_loop_ends JSON_parse engine_message p (reads b)
                  (streaming (stream_call_of p input key) w))
        as (ws & ps & ls & Hend & Hfail).
      exists [(str "Content-Type", [str "text/plain; charset=utf-8"])], ws, ps, ls.
      destruct (finish b) as [|e]; [rewrite Hend | rewrite Hfail]; reflexivity.
    + (* a status error *)
      replace (fst (run_stream p input key w)) with
        (mkWorld (res w) (fetched w ++ [stream_call_of p input key])
                 (parsed w) (logged w)); [exact Hquiet|].
      destruct p; cbn [stream_handler stream_call stream_url stream_model] in *;
        unfold handleGeminiStream, handleOpenAICompatibleStream; cbv zeta;
        unfold bind at 1, fetch; cbv zeta; rewrite Hu;
        unfold bind at 1, check_ok; rewrite Hok;
        unfold bind at 1, response_text;
        destruct (body_text _); reflexivity.
  - destruct (ok (mkResponse st None)) eqn:Hok.
    + (* no body to read *)
      exists [(str "Content-Type", [str "text/plain; charset=utf-8"])], [], [], [].
      destruct p; cbn [stream_handler stream_call stream_url stream_model] in *;
        unfold handleGeminiStream, handleOpenAICompatibleStream; cbv zeta;
        unfold bind at 1, fetch; cbv zeta; rewrite Hu;
        unfold bind at 1, check_ok; rewrite Hok;
        unfold ret at 1; unfold bind at 1, res_setHeader, modify_res;
        unfold bind, getReader, engine_throw, throw;
        cbn [body res fetched parsed logged fst headersSent statusCode headers
             written sent ended];
        now rewrite orb_false_r, !app_nil_r.
    + replace (fst (run_stream p input key w)) with
        (mkWorld (res w) (fetched w ++ [stream_call_of p input key])
                 (parsed w) (logged w)); [exact Hquiet|].
      destruct p; cbn [stream_handler stream_call stream_url stream_model] in *;
        unfold handleGeminiStream, handleOpenAICompatibleStream; cbv zeta;
        unfold bind at 1, fetch; cbv zeta; rewrite Hu;
        unfold bind at 1, check_ok; rewrite Hok;
        unfold bind at 1, response_text;
        destruct (body_text _); reflexivity.
Qed.

End Outcomes.

(** ** Every request gets one answer *)

Section Answers.

Variable JSON_parse : jsstring -> option JSON.
Variable engine_message : engine_error -> jsstring.
Variable number_to_string : Q -> jsstring.
Variable env : gmap string jsstring.
Variable upstream : Call -> exn + Response.

Local Abbreviation handle :=
  (handler JSON_parse engine_message number_to_string env upstream).
Local Abbreviation served :=
  (serve JSON_parse engine_message number_to_string env upstream).
Local Abbreviation to_text :=
  (text_route JSON_parse engine_message number_to_string env upstream).
Local Abbreviation to_image :=
  (image_route JSON_parse engine_message number_to_string env upstream).
Local Abbreviation run_stream :=
  (stream_handler JSON_parse engine_message number_to_string upstream).
Local Abbreviation run_text :=
  (text_handler JSON_parse engine_message number_to_string upstream).

(** The two shapes of an answer: a JSON body with nothing streamed, or a
    stream under status 200 with no JSON body. *)
Local Abbreviation answered w' :=
  ((exists code payload hs,
       res w' = mkRes true code hs [] (Some payload) true /\
       handler_status code) \/
   (exists hs ws, res w' = mkRes true 200 hs ws None true)).

Lemma require_key_cases (p : Provider) (w : World) :
  (exists k, env !! credential_name p = Some k /\ k <> [] /\
             require_key env p w = (w, inr k)) \/
  (exists e, require_key env p w = (w, inl e)).
Proof.
  unfold require_key. destruct (env !! credential_name p) as [[|c k]|].
  - right. eauto.
  - left. exists (c :: k). repeat split. discriminate.
  - right. eauto.
Qed.

Lemma text_route_outcome (input : JSON) :
  exists w', try_catch (to_text input) handler_catch new_World = (w', inr tt) /\
             length (fetched w') <= 1 /\ answered w'.
Proof.
  unfold try_catch. rewrite text_route_provider. cbv zeta. unfold bind at 1.
  unfold bind at 1.
  destruct (require_key_cases (select_provider (own_prop "llm" input)) new_World)
    as [(k & _ & _ & ->) | (e & ->)].
  - pose proof (text_handler_outcome JSON_parse engine_message number_to_string
                  upstream (select_provider (own_prop "llm" input)) input k
                  new_World) as Hw.
    destruct (run_text _ input k new_World) as [w1 [e|result]];
      cbn [fst] in Hw; subst w1.
    + rewrite handler_catch_before by reflexivity.
      eexists. split; [reflexivity|]. split; [cbn; lia|].
      left. do 3 eexists. split; [reflexivity|]. unfold handler_status. auto.
    + eexists. split; [reflexivity|]. split; [cbn; lia|].
      left. do 3 eexists. split; [reflexivity|]. unfold handler_status. auto.
  - rewrite handler_catch_before by reflexivity.
    eexists. split; [reflexivity|]. split; [cbn; lia|].
    left. do 3 eexists. split; [reflexivity|]. unfold handler_status. auto.
Qed.

Lemma image_route_outcome (input : JSON) :
  exists w', try_catch (to_image input) handler_catch new_World = (w', inr tt) /\
             length (fetched w') <= 1 /\ answered w'.
Proof.
  unfold try_catch. rewrite image_route_provider. cbv zeta. unfold bind at 1.
  unfold bind at 1.
  destruct (require_key_cases (select_provider (own_prop "llm" input)) new_World)
    as [(k & _ & _ & ->) | (e & ->)].
  - destruct (stream_handler_outcome JSON_parse engine_message number_to_string
                upstream (select_provider (own_prop "llm" input)) input k
                new_World) as (hs & ws & ps & ls & Hw).
    destruct (run_stream _ input k new_World) as [w1 [e|[]]];
      cbn [fst] in Hw; subst w1.
    + destruct ws as [|fragment ws].
      * rewrite handler_catch_before by reflexivity.
        eexists. split; [reflexivity|]. split; [cbn; lia|].
        left. do 3 eexists. split; [reflexivity|]. unfold handler_status. auto.
      * rewrite handler_catch_after by reflexivity.
        eexists. split; [reflexivity|]. split; [cbn; lia|].
        right. do 2 eexists. reflexivity.
    + eexists. split; [reflexivity|]. split; [cbn; lia|].
      right. do 2 eexists. reflexivity.
  - rewrite handler_catch_before by reflexivity.
    eexists. split; [reflexivity|]. split; [cbn; lia|].
    left. do 3 eexists. split; [reflexivity|]. unfold handler_status. auto.
Qed.

(** The handler on any request. *)
Lemma handler_outcome (req : Request) :
  exists w', handle req new_World = (w', inr tt) /\
             length (fetched w') <= 1 /\ answered w'.
Proof.
  destruct (decide (method req = Some (str "POST"))) as [Hm|Hm].
  - destruct (req_body req) as [j|] eqn:Hb.
    + assert (j = JNull \/ j <> JNull) as [->|Hj]
        by (destruct j; (left; reflexivity) || (right; discriminate)).
      * rewrite handler_post by assumption. unfold try_catch, handler_try.
        rewrite Hb. eexists. split; [reflexivity|]. split; [cbn; lia|].
        left. do 3 eexists. split; [reflexivity|]. unfold handler_status. auto.
      * rewrite (handler_routes _ _ _ _ _ req j new_World Hm Hb Hj).
        destruct (truthy (own_prop "task" j) && truthy (own_prop "text" j));
          [apply text_route_outcome|].
        destruct (truthy (own_prop "image" j)); [apply image_route_outcome|].
        eexists. split; [reflexivity|]. split; [cbn; lia|].
        left. do 3 eexists. split; [reflexivity|]. unfold handler_status. auto.
    + rewrite handler_post by assumption. unfold try_catch, handler_try.
      rewrite Hb. eexists. split; [reflexivity|]. split; [cbn; lia|].
      left. do 3 eexists. split; [reflexivity|]. unfold handler_status. auto.
  - unfold handler. rewrite bool_decide_eq_false_2 by assumption.
    eexists. split; [reflexivity|]. split; [cbn; lia|].
    left. do 3 eexists. split; [reflexivity|]. unfold handler_status. auto.
Qed.

(** X3.  Whatever the request, the environment and the upstream, the
    handler does not throw, and it leaves the response with its headers
    sent and ended. *)
Theorem X3_handler_always_answers (req : Request) :
  snd (handle req new_World) = inr tt /\
  headersSent (res (served req)) = true /\
  ended (res (served req)) = true.
Proof.
  unfold serve. destruct (handler_outcome req) as (w' & -> & _ & Hres).
  cbn [fst snd]. split; [reflexivity|].
  destruct Hres as [(code & payload & hs & -> & _) | (hs & ws & ->)];
    split; reflexivity.
Qed.

(** X4.  An answer is either a JSON body under status 200, 400, 405 or
    500 with no fragment written, or fragments under status 200 with
    no JSON body: a JSON body never follows a fragment. *)
Theorem X4_answer_is_a_body_or_a_stream (req : Request) :
  let r := res (served req) in
  handler_status (statusCode r) /\
  ((sent r <> None /\ written r = []) \/
   (sent r = None /\ statusCode r = 200%N)).
Proof.
  cbv zeta. unfold serve. destruct (handler_outcome req) as (w' & -> & _ & Hres).
  cbn [fst].
  destruct Hres as [(code & payload & hs & -> & Hcode) | (hs & ws & ->)];
    cbn [statusCode sent written].
  - split; [exact Hcode|]. left. split; [discriminate | reflexivity].
  - split; [unfold handler_status; auto|]. right. split; reflexivity.
Qed.

(** X5.  No request makes the handler call an upstream twice. *)
Theorem X5_at_most_one_upstream_call (req : Request) :
  length (fetched (served req)) <= 1.
Proof.
  unfold serve. destruct (handler_outcome req) as (w' & -> & Hlen & _).
  exact Hlen.
Qed.

End Answers.

(** ** The upstream call of a request *)

Section Calls.

Variable JSON_parse : jsstring -> option JSON.
Variable engine_message : engine_error -> jsstring.
Variable number_to_string : Q -> jsstring.
Variable env : gmap string jsstring.
Variable upstream : Call -> exn + Response.

Local Abbreviation served :=
  (serve JSON_parse engine_message number_to_string env upstream).
Local Abbreviation to_text :=
  (text_route JSON_parse engine_message number_to_string env upstream).
Local Abbreviation to_image :=
  (image_route JSON_parse engine_message number_to_string env upstream).
Local Abbreviation run_stream :=
  (stream_handler JSON_parse engine_message number_to_string upstream).
Local Abbreviation run_text :=
  (text_handler JSON_parse engine_message number_to_string upstream).

Lemma text_route_call (input : JSON) (key : jsstring) :
  let p := select_provider (own_prop "llm" input) in
  env !! credential_name p = Some key -> key <> [] ->
  fetched (fst (try_catch (to_text input) handler_catch new_World))
  = [text_call number_to_string p input key].
Proof.
  intros p Hk Hne. unfold try_catch. rewrite text_route_provider. cbv zeta.
  fold p. unfold bind at 1. unfold bind at 1.
  rewrite (require_key_present env p key new_World Hk Hne).
  pose proof (text_handler_outcome JSON_parse engine_message number_to_string
                upstream p input key new_World) as Hw.
  destruct (run_text p input key new_World) as [w1 [e|result]];
    cbn [fst] in Hw; subst w1.
  - rewrite handler_catch_before by reflexivity. reflexivity.
  - reflexivity.
Qed.

Lemma image_route_call (input : JSON) (key : jsstring) :
  let p := select_provider (own_prop "llm" input) in
  env !! credential_name p = Some key -> key <> [] ->
  fetched (fst (try_catch (to_image input) handler_catch new_World))
  = [stream_call number_to_string p input key].
Proof.
  intros p Hk Hne. unfold try_catch. rewrite image_route_provider. cbv zeta.
  fold p. unfold bind at 1. unfold bind at 1.
  rewrite (require_key_present env p key new_World Hk Hne).
  destruct (stream_handler_outcome JSON_parse engine_message number_to_string
              upstream p input key new_World) as (hs & ws & ps & ls & Hw).
  destruct (run_stream p input key new_World) as [w1 [e|[]]];
    cbn [fst] in Hw; subst w1.
  - destruct ws as [|fragment ws].
    + rewrite handler_catch_before by reflexivity. reflexivity.
    + rewrite handler_catch_after by reflexivity. reflexivity.
  - reflexivity.
Qed.


End Calls.

(** ** The relays on arbitrary streams *)

Section AnyStream.

Variable JSON_parse : jsstring -> option JSON.
Variable engine_message : engine_error -> jsstring.

Local Abbreviation relay_line := (openai_line JSON_parse engine_message).
Local Abbreviation relay := (openai_loop JSON_parse engine_message).
Local Abbreviation relay_chunk := (gemini_chunk JSON_parse engine_message).
Local Abbreviation gemini_relay := (gemini_loop JSON_parse engine_message).

(** What the OpenAI-compatible relay does depends on the bytes of the
    upstream body only, not on how they are cut into reads. *)
Lemma openai_loop_reads
    (rs1 rs2 : list (list Byte.byte)) (fin : ReadEnd) (w : World) :
  concat rs1 = concat rs2 ->
  relay rs1 fin new_TextDecoder [] w = relay rs2 fin new_TextDecoder [] w.
Proof.
  intros H.
  assert (Hend : relay rs1 EndOfStream new_TextDecoder [] w
                 = relay rs2 EndOfStream new_TextDecoder [] w).
  { rewrite !openai_loop_lines by reflexivity. now rewrite H. }
  destruct fin as [|e]; [exact Hend|].
  destruct (openai_loop_fails JSON_parse engine_message rs1 e new_TextDecoder [] w)
    as [-> _].
  destruct (openai_loop_fails JSON_parse engine_message rs2 e new_TextDecoder [] w)
    as [-> _].
  now rewrite Hend.
Qed.

Lemma truthy_write (v : JSValue) (w : World) :
  (exists ws, (if truthy v then res_write engine_message v else ret tt) w
              = (effect ws [] [] w, inr tt) /\
              fragments ws /\ length ws <= 1) \/
  (exists e, (if truthy v then res_write engine_message v else ret tt) w
             = (w, inl e)).
Proof.
  destruct (truthy v) eqn:Ht.
  - destruct v as [[| | |s| |]|]; try discriminate Ht;
      try (right; eexists; reflexivity).
    left. exists [s]. split; [apply res_write_effect|].
    split; [|cbn; lia]. constructor; [|constructor].
    intros ->. discriminate Ht.
  - left. exists []. split; [apply ret_effect|]. split; [constructor|cbn; lia].
Qed.

Lemma openai_try_tally (j : JSON) (w : World) :
  exists ws ls,
    try_catch
      (choices <- get_prop engine_message "choices" (Some j) ;;
       first <- get_index engine_message 0 choices ;;
       if truthy (opt_prop "content" (opt_prop "delta" first))
       then res_write engine_message (opt_prop "content" (opt_prop "delta" first))
       else ret tt)%js
      (fun _ => console_error "Error parsing stream JSON:") w
    = (effect ws [] ls w, inr tt) /\
    fragments ws /\ length ws + length ls <= 1.
Proof.
  assert (Hlog : exists ws ls,
             console_error "Error parsing stream JSON:" w
             = (effect ws [] ls w, inr tt) /\
             fragments ws /\ length ws + length ls <= 1).
  { exists [], [str "Error parsing stream JSON:"].
    split; [apply console_error_effect|]. split; [constructor|cbn; lia]. }
  unfold try_catch, bind.
  destruct (get_prop_cases engine_message "choices" (Some j) w)
    as [[e ->]|[choices ->]]; [exact Hlog|].
  destruct (get_index_cases engine_message 0 choices w) as [[e ->]|[first ->]];
    [exact Hlog|].
  destruct (truthy_write (opt_prop "content" (opt_prop "delta" first)) w)
    as [(ws & -> & Hws & Hlen)|[e ->]]; [|exact Hlog].
  exists ws, []. split; [reflexivity|]. split; [exact Hws|cbn; lia].
Qed.

Lemma openai_line_tally (line : jsstring) (w : World) :
  exists ws ps ls,
    relay_line line w = (effect ws ps ls w, inr tt) /\
    fragments ws /\
    Forall (fun p => is_sentinel p = false) ps /\
    length ws + length ls <= length ps.
Proof.
  unfold openai_line. cbv zeta.
  destruct (startsWith _ line).
  2:{ exists [], [], []. rewrite effect_nil.
      repeat split; try constructor. }
  fold (is_sentinel (substring 6 line)).
  destruct (is_sentinel (substring 6 line)) eqn:Hs.
  { exists [], [], []. rewrite effect_nil. repeat split; try constructor. }
  assert (Hp : Forall (fun p => is_sentinel p = false) [substring 6 line])
    by (repeat constructor; assumption).
  rewrite try_catch_bind. unfold JSON_parse_call.
  destruct (JSON_parse (substring 6 line)) as [j|].
  - destruct (openai_try_tally j
        (mkWorld (res w) (fetched w) (parsed w ++ [substring 6 line]) (logged w)))
      as (ws & ls & -> & Hws & Hlen).
    exists ws, [substring 6 line], ls.
    split; [unfold effect; cbn; now rewrite app_nil_r|].
    split; [exact Hws|]. split; [exact Hp | exact Hlen].
  - exists [], [substring 6 line], [str "Error parsing stream JSON:"].
    split.
    { rewrite console_error_effect. unfold effect. cbn.
      now rewrite !res_wrote_nil, !app_nil_r. }
    split; [constructor|]. split; [exact Hp | cbn; lia].
Qed.

Lemma for_each_line_tally (lines : list jsstring) (w : World) :
  exists ws ps ls,
    for_each relay_line lines w = (effect ws ps ls w, inr tt) /\
    fragments ws /\
    Forall (fun p => is_sentinel p = false) ps /\
    length ws + length ls <= length ps.
Proof.
  revert w. induction lines as [|line lines IH]; intros w.
  - exists [], [], []. cbn [for_each]. rewrite ret_effect.
    repeat split; try constructor.
  - cbn [for_each]. unfold bind.
    destruct (openai_line_tally line w) as (ws1 & ps1 & ls1 & -> & F1 & S1 & L1).
    destruct (IH (effect ws1 ps1 ls1 w)) as (ws2 & ps2 & ls2 & -> & F2 & S2 & L2).
    exists (ws1 ++ ws2), (ps1 ++ ps2), (ls1 ++ ls2).
    rewrite effect_effect. split; [reflexivity|].
    split; [apply Forall_app; split; assumption|].
    split; [apply Forall_app; split; assumption|].
    rewrite !length_app. lia.
Qed.

(** X8.  No upstream body makes the OpenAI-compatible relay throw: on
    any reads that end normally it returns, having only written
    fragments, called [JSON.parse] and logged.  Every fragment is a
    non-empty string, the [[DONE]] sentinel is never parsed, and each
    fragment and each log line comes from a parsed payload of its own. *)
Theorem X8_openai_relay_survives_any_stream
    (rs : list (list Byte.byte)) (td : TextDecoder) (buffer : jsstring)
    (w : World) :
  exists ws ps ls,
    relay rs EndOfStream td buffer w = (effect ws ps ls w, inr tt) /\
    fragments ws /\
    Forall (fun p => is_sentinel p = false) ps /\
    length ws + length ls <= length ps.
Proof.
  revert td buffer w. induction rs as [|value rs IH]; intros td buffer w.
  - exists [], [], []. cbn [openai_loop]. rewrite ret_effect.
    repeat split; try constructor.
  - cbn [openai_loop]. destruct (decode td value true) as [td1 t1].
    unfold bind.
    destruct (for_each_line_tally (pop_rest (split_lf (buffer ++ t1))) w)
      as (ws1 & ps1 & ls1 & -> & F1 & S1 & L1).
    destruct (IH td1 (pop_value (split_lf (buffer ++ t1))) (effect ws1 ps1 ls1 w))
      as (ws2 & ps2 & ls2 & -> & F2 & S2 & L2).
    exists (ws1 ++ ws2), (ps1 ++ ps2), (ls1 ++ ls2).
    rewrite effect_effect. split; [reflexivity|].
    split; [apply Forall_app; split; assumption|].
    split; [apply Forall_app; split; assumption|].
    rewrite !length_app. lia.
Qed.

Lemma gemini_chunk_tally (chunk : jsstring) (w : World) :
  exists ws ls,
    relay_chunk chunk w = (effect ws [strip_data_prefix chunk] ls w, inr tt) /\
    fragments ws /\ length ws + length ls <= 1.
Proof.
  unfold gemini_chunk. cbv zeta. rewrite try_catch_bind. unfold JSON_parse_call.
  set (w1 := mkWorld _ _ _ _).
  assert (Hlog : exists ws ls,
             console_error "Error parsing Gemini stream chunk:" w1
             = (effect ws [strip_data_prefix chunk] ls w, inr tt) /\
             fragments ws /\ length ws + length ls <= 1).
  { exists [], [str "Error parsing Gemini stream chunk:"].
    split; [|split; [constructor|cbn; lia]].
    rewrite console_error_effect. subst w1. unfold effect. cbn.
    now rewrite !res_wrote_nil, !app_nil_r. }
  destruct (JSON_parse (strip_data_prefix chunk)) as [j|]; [|exact Hlog].
  rewrite try_catch_bind.
  destruct (get_index_cases engine_message 0 (Some j) w1) as [[e ->]|[first ->]];
    [exact Hlog|].
  unfold try_catch.
  match goal with
  | |- context [truthy ?t] =>
      destruct (truthy_write t w1) as [(ws & -> & Hws & Hlen)|[e ->]];
      [|exact Hlog]
  end.
  exists ws, []. split; [|split; [exact Hws|cbn; lia]].
  subst w1. unfold effect. cbn. now rewrite !app_nil_r.
Qed.

(** X9.  The Gemini relay gives every read of the upstream body to
    [JSON.parse] once, decoded on its own and with a leading [data: ]
    removed, whatever the read holds; a read gives at most one
    non-empty fragment or one log line, and the loop throws only when a
    read fails. *)
Theorem X9_gemini_relay_parses_each_read_once
    (rs : list (list Byte.byte)) (fin : ReadEnd) (w : World) :
  exists ws ls,
    gemini_relay rs fin new_TextDecoder w =
    (effect ws (map read_text rs) ls w,
     match fin with EndOfStream => inr tt | ReadFails e => inl e end) /\
    fragments ws /\ length ws + length ls <= length rs.
Proof.
  assert (Hgen : forall td, td_do_not_flush td = false ->
            exists ws ls,
              gemini_relay rs fin td w =
              (effect ws (map read_text rs) ls w,
               match fin with EndOfStream => inr tt | ReadFails e => inl e end) /\
              fragments ws /\ length ws + length ls <= length rs).
  { revert w. induction rs as [|value rs IH]; intros w td Hf.
    - exists [], []. cbn [gemini_loop map]. rewrite effect_nil.
      split; [destruct fin; reflexivity|]. split; [constructor|cbn; lia].
    - destruct (gemini_loop_step JSON_parse engine_message value rs fin td w Hf)
        as (td' & Hf' & ->).
      unfold bind.
      destruct (gemini_chunk_tally (decode_all value) w)
        as (ws1 & ls1 & -> & F1 & L1).
      destruct (IH (effect ws1 [strip_data_prefix (decode_all value)] ls1 w) td' Hf')
        as (ws2 & ls2 & -> & F2 & L2).
      exists (ws1 ++ ws2), (ls1 ++ ls2). rewrite effect_effect.
      split; [reflexivity|].
      split; [apply Forall_app; split; assumption|].
      rewrite !length_app. cbn [length]. lia. }
  apply Hgen. reflexivity.
Qed.

End AnyStream.

(** ** Read boundaries *)

(** X7.  An OCR request served by an OpenAI-compatible provider gets the
    same response, fragment for fragment, however the provider's body
    is cut into reads: the relay carries the decoder state and the
    unfinished line from one read to the next. *)
Theorem X7_openai_response_ignores_read_boundaries
    (JSON_parse : jsstring -> option JSON)
    (engine_message : engine_error -> jsstring)
    (number_to_string : Q -> jsstring) (env : gmap string jsstring)
    (first second : Call -> exn + Response)
    (req : Request) (j : JSON) (key : jsstring) (st : N)
    (rs1 rs2 : list (list Byte.byte)) (fin : ReadEnd) :
  method req = Some (str "POST") ->
  req_body req = Some j -> j <> JNull ->
  truthy (own_prop "task" j) && truthy (own_prop "text" j) = false ->
  truthy (own_prop "image" j) = true ->
  let p := select_provider (own_prop "llm" j) in
  let call := stream_call number_to_string p j key in
  p <> Gemini ->
  env !! credential_name p = Some key -> key <> [] ->
  first call = inr (mkResponse st (Some (mkBody rs1 fin))) ->
  second call = inr (mkResponse st (Some (mkBody rs2 fin))) ->
  (200 <= st <= 299)%N ->
  concat rs1 = concat rs2 ->
  serve JSON_parse engine_message number_to_string env first req =
  serve JSON_parse engine_message number_to_string env second req.
Proof.
  intros Hm Hb Hj Htext Himage p call Hp Hkey Hne H1 H2 Hst Hcat.
  assert (Hok : forall rs, ok (mkResponse st (Some (mkBody rs fin))) = true).
  { intros rs. unfold ok. cbn [status].
    apply andb_true_intro. split; apply N.leb_le; lia. }
  rewrite (serve_stream _ _ _ _ first req j key st rs1 fin) by auto.
  rewrite (serve_stream _ _ _ _ second req j key st rs2 fin) by auto.
  fold p. fold call. unfold try_catch, bind.
  assert (Hloop : stream_loop JSON_parse engine_message p rs1 fin
                    (streaming call new_World) =
                  stream_loop JSON_parse engine_message p rs2 fin
                    (streaming call new_World)).
  { destruct p; [congruence| |]; cbn [stream_loop];
      now apply openai_loop_reads. }
  now rewrite Hloop.
Qed.

(** ** Text tasks *)

Lemma trimStart_head (s : jsstring) (c : N) :
  head (trimStart s) = Some c -> is_js_space c = false.
Proof.
  induction s as [|a s IH]; [discriminate|].
  cbn [trimStart]. destruct (is_js_space a) eqn:Ha; [exact IH|].
  cbn [head]. intros [= <-]. exact Ha.
Qed.

Lemma trimStart_suffix (s : jsstring) : exists pre, s = pre ++ trimStart s.
Proof.
  induction s as [|a s [pre IH]]; [exists []; reflexivity|].
  cbn [trimStart]. destruct (is_js_space a).
  - exists (a :: pre). cbn [app]. now f_equal.
  - exists []. reflexivity.
Qed.

Lemma last_rev_head (u : jsstring) : last (rev u) = head u.
Proof. destruct u as [|a u]; [reflexivity|]. cbn [rev head]. apply last_snoc. Qed.

Lemma head_app_some (a b : jsstring) (c : N) :
  head a = Some c -> head (a ++ b) = Some c.
Proof. destruct a; [discriminate | trivial]. Qed.

(** [trim] leaves no white space at either end. *)
Lemma trim_trimmed (s : jsstring) : trimmed (trim s).
Proof.
  unfold trimmed, trim. intros c [H|H].
  - destruct (trimStart_suffix (rev (trimStart s))) as [pre Hpre].
    apply (f_equal (@rev N)) in Hpre.
    rewrite rev_involutive, rev_app_distr in Hpre.
    apply (trimStart_head s). rewrite Hpre. now apply head_app_some.
  - rewrite last_rev_head in H. now apply trimStart_head in H.
Qed.

Lemma trimmed_nil : trimmed [].
Proof. intros c [H|H]; discriminate H. Qed.

Lemma returns_ret {A} (a : A) (P : A -> Prop) : P a -> returns (ret a) P.
Proof. intros H w w' v [= _ <-]. exact H. Qed.

Lemma returns_bind {A B} (m : M A) (k : A -> M B) (Q : A -> Prop)
    (P : B -> Prop) :
  returns m Q -> (forall a, Q a -> returns (k a) P) -> returns (bind m k) P.
Proof.
  intros Hm Hk w w' v. unfold bind.
  destruct (m w) as [w1 [e|a]] eqn:E; [discriminate|].
  apply (Hk a (Hm _ _ _ E)).
Qed.

Lemma returns_any {A} (m : M A) : returns m (fun _ => True).
Proof. intros w w' v _. exact I. Qed.

Section TextTasks.

Variable JSON_parse : jsstring -> option JSON.
Variable engine_message : engine_error -> jsstring.
Variable number_to_string : Q -> jsstring.
Variable env : gmap string jsstring.
Variable upstream : Call -> exn + Response.

Local Abbreviation served :=
  (serve JSON_parse engine_message number_to_string env upstream).
Local Abbreviation to_text :=
  (text_route JSON_parse engine_message number_to_string env upstream).
Local Abbreviation run_text :=
  (text_handler JSON_parse engine_message number_to_string upstream).
Local Abbreviation text_call_of := (text_call number_to_string).

(** [content?.trim() || ''] is a string without white space at its ends. *)
Lemma trim_or_empty (v : JSValue) :
  returns (content <- opt_trim engine_message v ;; ret (or_empty content))%js
          (fun r => exists s, r = JStr s /\ trimmed s).
Proof.
  apply (returns_bind _ _
           (fun r => r = None \/ exists s, r = Some (JStr (trim s)))).
  - intros w w' r. destruct v as [[| | |s| |]|]; cbn;
      intros [= _ <-]; eauto.
  - intros r [->|[s ->]]; apply returns_ret.
    + exists []. split; [reflexivity | apply trimmed_nil].
    + unfold or_empty. destruct (truthy _).
      * exists (trim s). split; [reflexivity | apply trim_trimmed].
      * exists []. split; [reflexivity | apply trimmed_nil].
Qed.

Lemma text_handler_returns (p : Provider) (input : JSON) (key : jsstring) :
  returns (run_text p input key) (fun r => exists s, r = JStr s /\ trimmed s).
Proof.
  destruct p; cbn [text_handler];
    unfold handleGeminiText, handleOpenAICompatibleText; cbv zeta;
    (eapply returns_bind; [apply returns_any|]); intros r _;
    (eapply returns_bind; [apply returns_any|]); intros _ _;
    (eapply returns_bind; [apply returns_any|]); intros json _;
    (eapply returns_bind; [apply returns_any|]); intros v _.
  - apply trim_or_empty.
  - eapply returns_bind; [apply returns_any|]. intros first _.
    apply trim_or_empty.
  - eapply returns_bind; [apply returns_any|]. intros first _.
    apply trim_or_empty.
Qed.

(** X10.  A text task is answered with nothing streamed and in one of
    two ways: 200 with [{ result }], where [result] is a string with no
    white space at either end (possibly empty), or 500 with an error
    message. *)
Theorem X10_text_task_answer_is_a_trimmed_string (req : Request) (j : JSON) :
  method req = Some (str "POST") ->
  req_body req = Some j -> j <> JNull ->
  truthy (own_prop "task" j) && truthy (own_prop "text" j) = true ->
  (exists s, trimmed s /\
     res (served req) = replied 200 (JObj [(str "result", JStr s)]) new_Res) \/
  (exists message,
     res (served req) =
     replied 500 (error_body (str "Error processing your request: " ++ message))
             new_Res).
Proof.
  intros Hm Hb Hj Htext. unfold serve.
  rewrite (handler_routes _ _ _ _ _ req j new_World Hm Hb Hj), Htext.
  unfold try_catch. rewrite text_route_provider. cbv zeta. unfold bind.
  destruct (require_key_cases env (select_provider (own_prop "llm" j)) new_World)
    as [(k & _ & _ & ->) | (e & ->)].
  - pose proof (text_handler_outcome JSON_parse engine_message number_to_string
                  upstream (select_provider (own_prop "llm" j)) j k
                  new_World) as Hw.
    pose proof (text_handler_returns (select_provider (own_prop "llm" j)) j k
                  new_World) as Hr.
    destruct (run_text _ j k new_World) as [w1 [e|result]];
      cbn [fst] in Hw; subst w1.
    + rewrite handler_catch_before by reflexivity.
      right. eexists. reflexivity.
    + destruct (Hr _ _ eq_refl) as (s & -> & Hs).
      left. exists s. split; [exact Hs | reflexivity].
  - rewrite handler_catch_before by reflexivity.
    right. eexists. reflexivity.
Qed.

(** A non-success status: the text handler throws the status and the
    body text. *)
Lemma text_handler_status_error (p : Provider) (input : JSON) (key : jsstring)
    (resp : Response) (t : jsstring) (w : World) :
  upstream (text_call_of p input key) = inr resp ->
  ok resp = false -> body_text resp = inr t ->
  run_text p input key w =
  (mkWorld (res w) (fetched w ++ [text_call_of p input key]) (parsed w) (logged w),
   inl (JsError (str (upstream_error_label p) ++ show_N (status resp)
                 ++ str " " ++ t))).
Proof.
  intros Hu Hok Ht.
  destruct p;
    cbn [text_handler text_call text_url text_model upstream_error_label] in *.
  all: unfold handleGeminiText, handleOpenAICompatibleText; cbv zeta.
  all: unfold bind at 1, fetch; cbv zeta.
  all: rewrite Hu.
  all: unfold bind at 1, check_ok; rewrite Hok.
  all: unfold bind at 1, response_text; rewrite Ht.
  all: reflexivity.
Qed.

(** A success status with a JSON body that holds a string at the path:
    the text handler returns the string trimmed. *)
Lemma text_handler_success (p : Provider) (input : JSON) (key : jsstring)
    (resp : Response) (t : jsstring) (json : JSON) (s : jsstring) (w : World) :
  upstream (text_call_of p input key) = inr resp ->
  ok resp = true -> body_text resp = inr t ->
  JSON_parse t = Some json ->
  text_answer p json = Some (JStr s) ->
  run_text p input key w =
  (mkWorld (res w) (fetched w ++ [text_call_of p input key]) (parsed w) (logged w),
   inr (JStr (trim s))).
Proof.
  intros Hu Hok Ht Hj Ha.
  assert (Hor : or_empty (Some (JStr (trim s))) = JStr (trim s)).
  { unfold or_empty, truthy, jsstring_eqb.
    destruct (trim s) as [|c0 s0]; reflexivity. }
  destruct p;
    cbn [text_handler text_call text_url text_model text_answer] in *.
  all: unfold handleGeminiText, handleOpenAICompatibleText; cbv zeta.
  all: unfold bind at 1, fetch; cbv zeta.
  all: rewrite Hu.
  all: unfold bind at 1, check_ok; rewrite Hok.
  all: unfold ret at 1; unfold bind at 1, response_json.
  all: unfold bind at 1, response_text; rewrite Ht.
  all: unfold ret at 1; rewrite Hj; unfold ret at 1.
  all: unfold bind at 1, get_prop.
  all: destruct json as [| | | | |fields]; try discriminate Ha.
  all: unfold ret at 1.
  - cbn [own_prop] in *. unfold bind at 1. rewrite Ha.
    cbn [opt_trim]. unfold ret. now rewrite Hor.
  - cbn [own_prop] in *. unfold bind at 1, get_index.
    destruct (obj_get (str "choices") fields) as [choices|];
      [|discriminate Ha].
    destruct choices; try discriminate Ha.
    all: unfold ret at 1; unfold bind at 1.
    all: cbn [opt_index] in Ha; rewrite Ha.
    all: cbn [opt_trim]; unfold ret; now rewrite Hor.
  - cbn [own_prop] in *. unfold bind at 1, get_index.
    destruct (obj_get (str "choices") fields) as [choices|];
      [|discriminate Ha].
    destruct choices; try discriminate Ha.
    all: unfold ret at 1; unfold bind at 1.
    all: cbn [opt_index] in Ha; rewrite Ha.
    all: cbn [opt_trim]; unfold ret; now rewrite Hor.
Qed.



(** X13.  A task other than ['summarize'] and ['title'] is not refused:
    [getTextTaskPrompt] returns nothing for it, and the provider is
    called with a message that has no prompt in it. *)
Theorem X13_unknown_task_is_sent_without_a_prompt
    (req : Request) (j : JSON) (key : jsstring) :
  method req = Some (str "POST") ->
  req_body req = Some j -> j <> JNull ->
  truthy (own_prop "task" j) && truthy (own_prop "text" j) = true ->
  own_prop "task" j <> Some (JStr (str "summarize")) ->
  own_prop "task" j <> Some (JStr (str "title")) ->
  let p := select_provider (own_prop "llm" j) in
  env !! credential_name p = Some key -> key <> [] ->
  text_prompt number_to_string j = undefined /\
  fetched (served req) =
  [match p with
   | Gemini =>
       mkCall (gemini_text_url key) (str "POST") json_headers
         (JObj [(str "contents", JArr [JObj [(str "parts", JArr [JObj []])]])])
   | Deepseek | OpenAI =>
       mkCall (text_url p key) (str "POST") (bearer_headers key)
         (JObj [(str "model", JStr (str (text_model p)));
                (str "messages", JArr [JObj [(str "role", JStr (str "user"))]]);
                (str "stream", JBool false)])
   end].
Proof.
  intros Hm Hb Hj Htext Hs Ht p Hkey Hne.
  assert (Hp : text_prompt number_to_string j = undefined).
  { unfold text_prompt, getTextTaskPrompt, is_string, jsstring_eqb.
    destruct (own_prop "task" j) as [[| | |task| |]|]; try reflexivity.
    rewrite !bool_decide_eq_false_2; [reflexivity| |]; congruence. }
  split; [exact Hp|]. unfold serve.
  rewrite (handler_routes _ _ _ _ _ req j new_World Hm Hb Hj), Htext.
  rewrite (text_route_call JSON_parse engine_message number_to_string env
             upstream j key Hkey Hne).
  fold p. f_equal.
  destruct p; cbn [text_call text_url text_model];
    unfold gemini_text_payload, openai_text_payload; rewrite Hp; reflexivity.
Qed.

End TextTasks.

(** ** The client generator on any response *)

(** The generator's loop yields one chunk for every read, each read
    decoded on its own. *)
Lemma client_loop_chunks (rs : list (list Byte.byte)) (fin : ReadEnd)
    (td : TextDecoder) :
  td_do_not_flush td = false ->
  client_loop rs fin td =
  (map decode_all rs,
   match fin with EndOfStream => inr tt | ReadFails e => inl e end).
Proof.
  revert td. induction rs as [|value rs IH]; intros td Hf.
  - destruct fin; reflexivity.
  - cbn [client_loop map]. rewrite (decode_flushed td value Hf).
    unfold decode_all.
    pose proof (decode_flushed_after new_TextDecoder value) as Hafter.
    destruct (decode new_TextDecoder value false) as [td' chunk].
    cbn [fst snd] in *. now rewrite (IH td' Hafter).
Qed.

(** X14.  On a success status with a body, the generator yields one
    chunk for every read of the body, each read decoded on its own.
    When a read fails, the chunks of the reads before it have been
    yielded, and the generator throws the failure under the prefix
    [Extraction failed: ]. *)
Theorem X14_generator_yields_one_chunk_per_read
    (base64String mimeType context quality llm : jsstring)
    (backend : JSON -> exn + Response) (r : Response) (b : Body) :
  backend (extract_request base64String mimeType context quality llm) = inr r ->
  ok r = true -> body r = Some b ->
  extractTextFromImageStream (inr (base64String, mimeType)) context quality llm
    backend =
  (map decode_all (reads b),
   match finish b with
   | EndOfStream => inr tt
   | ReadFails e => inl (extract_catch e)
   end).
Proof.
  intros Hb Hok Hbody.
  unfold extractTextFromImageStream, extract_try.
  rewrite Hb, Hok, Hbody. cbn [negb].
  rewrite client_loop_chunks by reflexivity.
  destruct (finish b); reflexivity.
Qed.

(** Decoding ASCII bytes gives their codes. *)
Lemma run_bytes_ascii (bs : list Byte.byte) :
  forallb is_ascii bs = true ->
  run_bytes Utf8.init bs = (Utf8.init, map Byte.to_N bs).
Proof.
  induction bs as [|b bs IH]; [reflexivity|].
  cbn [forallb]. intros H. apply andb_prop in H as [Hb Hbs].
  cbn [run_bytes map]. unfold Utf8.handler, Utf8.lead.
  cbn [Utf8.bytes_needed Utf8.init]. unfold is_ascii in Hb.
  replace (0 =? 0)%N with true by reflexivity. rewrite Hb.
  now rewrite (IH Hbs).
Qed.

Lemma serialize_ascii (bom : bool) (bs : list Byte.byte) :
  forallb is_ascii bs = true ->
  snd (serialize bom (map Byte.to_N bs)) = map Byte.to_N bs.
Proof.
  revert bom. induction bs as [|b bs IH]; intros bom; [reflexivity|].
  cbn [forallb]. intros H. apply andb_prop in H as [Hb Hbs].
  cbn [map serialize]. unfold is_ascii in Hb. apply N.leb_le in Hb.
  replace (Byte.to_N b =? 0xFEFF)%N with false
    by (symmetry; apply N.eqb_neq; lia).
  rewrite andb_false_r. specialize (IH true Hbs).
  destruct (serialize true (map Byte.to_N bs)) as [b' out]. cbn [snd] in *.
  unfold Utf8.utf16.
  replace (Byte.to_N b <? 0x10000)%N with true
    by (symmetry; apply N.ltb_lt; lia).
  cbn [app]. now rewrite IH.
Qed.

Lemma decode_all_ascii (bs : list Byte.byte) :
  forallb is_ascii bs = true -> decode_all bs = map Byte.to_N bs.
Proof.
  intros H. unfold decode_all, decode. cbn [td_do_not_flush new_TextDecoder].
  rewrite (run_bytes_ascii bs H). unfold Utf8.finish.
  cbn [Utf8.bytes_needed Utf8.init].
  replace (0 =? 0)%N with true by reflexivity. rewrite app_nil_r.
  pose proof (serialize_ascii false bs H) as Hs.
  destruct (serialize false (map Byte.to_N bs)) as [b' out]. exact Hs.
Qed.

(** X15.  On a body of ASCII bytes the chunks the generator yields
    concatenate to the text of the whole body, however the body is cut
    into reads. *)
Theorem X15_ascii_chunks_concatenate_to_the_text
    (rs : list (list Byte.byte)) (fin : ReadEnd) :
  forallb (forallb is_ascii) rs = true ->
  concat (fst (client_loop rs fin new_TextDecoder)) = decode_all (concat rs) /\
  decode_all (concat rs) = map Byte.to_N (concat rs).
Proof.
  intros H. rewrite client_loop_chunks by reflexivity. cbn [fst].
  assert (Hall : forallb is_ascii (concat rs) = true).
  { induction rs as [|value rs IH]; [reflexivity|].
    cbn [forallb concat] in *. apply andb_prop in H as [Hv Hrs].
    rewrite forallb_app, Hv. now apply IH. }
  rewrite (decode_all_ascii _ Hall). split; [|reflexivity].
  induction rs as [|value rs IH]; [reflexivity|].
  cbn [forallb concat map] in *. apply andb_prop in H as [Hv Hrs].
  rewrite forallb_app in Hall. apply andb_prop in Hall as [_ Hall].
  rewrite map_app, (decode_all_ascii _ Hv). now rewrite IH.
Qed.

(** ** An extraction in the component *)

Lemma consume_all (chunks : list jsstring) (isFirstChunk : bool)
    (fullExtractedText : jsstring) (st : AppState) :
  consume chunks isFirstChunk fullExtractedText st =
  (fullExtractedText ++ concat chunks,
   setLivingDocument
     (fun prevDoc =>
        match chunks with
        | [] => prevDoc
        | _ :: _ =>
            prevDoc ++ (if isFirstChunk then separator_after prevDoc else [])
            ++ concat chunks
        end) st).
Proof.
  revert isFirstChunk fullExtractedText st.
  induction chunks as [|chunk rest IH]; intros isFirstChunk fullExtractedText st.
  - cbn [consume concat]. rewrite app_nil_r. now destruct st.
  - cbn [consume]. rewrite IH. cbn [concat]. rewrite <- app_assoc.
    f_equal.
    destruct st as [iu dt doc il ist ism eh oc oq sl hu t ex].
    destruct isFirstChunk, rest as [|next rest]; unfold setLivingDocument;
      cbn [imageUrl documentTitle livingDocument isLoading isSuggestingTitle
           isSummarizing extractionHistory ocrContext ocrQuality selectedLlm
           hasUnsavedChanges toast expandedHistoryId concat app];
      rewrite <- ?app_assoc, ?app_nil_r; reflexivity.
Qed.

(** A file the handler accepts. *)
Lemma handleFileReady_accepted
    (stream : jsstring -> jsstring -> jsstring -> Generated)
    (tempImageUrl : jsstring) (now : N) (stamp : jsstring) (toast_now : N)
    (file : File.t) (st : AppState) :
  startsWith (str "image/") (File.type file) = true ->
  (File.size file <= MAX_FILE_SIZE)%N ->
  let run := stream (ocrContext st) (ocrQuality st) (selectedLlm st) in
  let text := concat (fst run) in
  let recorded :=
    match snd run with
    | inr _ => truthy (Some (JStr text))
    | inl _ => false
    end in
  handleFileReady stream tempImageUrl now stamp toast_now (Some file) st =
  mkApp None (documentTitle st)
        (match fst run with
         | [] => livingDocument st
         | _ :: _ =>
             livingDocument st ++ separator_after (livingDocument st) ++ text
         end)
        false (isSuggestingTitle st) (isSummarizing st)
        (if recorded then HistoryItem.mk now stamp text :: extractionHistory st
         else extractionHistory st)
        (ocrContext st) (ocrQuality st) (selectedLlm st)
        (recorded || hasUnsavedChanges st)
        (Some (match snd run with
               | inr _ =>
                   if truthy (Some (JStr text))
                   then mkToast toast_now (str "Text extracted successfully!")
                                ToastSuccess
                   else mkToast toast_now (str "Extraction resulted in empty text.")
                                ToastInfo
               | inl (JsError message) => mkToast toast_now message ToastError
               | inl NonError =>
                   mkToast toast_now (str "An unknown error occurred.") ToastError
               end))
        (expandedHistoryId st).
Proof.
  intros Htype Hsize run text recorded. unfold handleFileReady.
  rewrite Htype. cbn [negb].
  replace (MAX_FILE_SIZE <? File.size file)%N with false
    by (symmetry; apply N.ltb_ge; exact Hsize).
  cbn [setImageUrl setIsLoading ocrContext ocrQuality selectedLlm].
  subst recorded text run.
  destruct (stream (ocrContext st) (ocrQuality st) (selectedLlm st))
    as [chunks outcome].
  rewrite consume_all. cbn [app fst snd].
  destruct outcome as [[message|]|[]];
    [reflexivity | reflexivity |].
  destruct (truthy (Some (JStr (concat chunks)))); reflexivity.
Qed.

(** X16.  After an extraction the document is the document of before,
    then the rule when that one was not empty, then the chunks of the
    stream in order: what appending the whole text at once gives.  This
    holds whether the stream ends or fails; a stream without chunks
    leaves the document as it was. *)
Theorem X16_extraction_appends_the_chunks
    (stream : jsstring -> jsstring -> jsstring -> Generated)
    (tempImageUrl : jsstring) (now : N) (stamp : jsstring) (toast_now : N)
    (file : File.t) (st : AppState) :
  startsWith (str "image/") (File.type file) = true ->
  (File.size file <= MAX_FILE_SIZE)%N ->
  let chunks := fst (stream (ocrContext st) (ocrQuality st) (selectedLlm st)) in
  let after :=
    handleFileReady stream tempImageUrl now stamp toast_now (Some file) st in
  (chunks = [] -> livingDocument after = livingDocument st) /\
  (chunks <> [] ->
   livingDocument after =
     livingDocument st ++ separator_after (livingDocument st) ++ concat chunks /\
   livingDocument after =
     livingDocument (handleAppendToDocument toast_now (concat chunks) st)).
Proof.
  intros Htype Hsize chunks after. subst after.
  rewrite handleFileReady_accepted by assumption. cbv zeta.
  cbn [livingDocument]. fold chunks.
  split.
  - intros ->. reflexivity.
  - intros Hne. destruct chunks as [|chunk rest]; [congruence|].
    split; reflexivity.
Qed.

(** X17.  When the stream fails, the chunks it yielded before stay in
    the document, but nothing records them: the history and the
    unsaved-changes flag are as before.  The error's message is shown,
    and the loading state and the image are reset. *)
Theorem X17_failed_extraction_keeps_the_partial_text
    (stream : jsstring -> jsstring -> jsstring -> Generated)
    (tempImageUrl : jsstring) (now : N) (stamp : jsstring) (toast_now : N)
    (file : File.t) (st : AppState) (chunks : list jsstring) (message : jsstring) :
  startsWith (str "image/") (File.type file) = true ->
  (File.size file <= MAX_FILE_SIZE)%N ->
  stream (ocrContext st) (ocrQuality st) (selectedLlm st)
  = (chunks, inl (JsError message)) ->
  let after :=
    handleFileReady stream tempImageUrl now stamp toast_now (Some file) st in
  livingDocument after =
    match chunks with
    | [] => livingDocument st
    | _ :: _ =>
        livingDocument st ++ separator_after (livingDocument st) ++ concat chunks
    end /\
  extractionHistory after = extractionHistory st /\
  hasUnsavedChanges after = hasUnsavedChanges st /\
  toast after = Some (mkToast toast_now message ToastError) /\
  isLoading after = false /\ imageUrl after = None.
Proof.
  intros Htype Hsize Hrun after. subst after.
  rewrite handleFileReady_accepted by assumption. cbv zeta.
  rewrite Hrun. cbn. repeat split.
Qed.

(** X18.  When the stream ends, the extraction is recorded exactly when
    its text is not empty: the history gets one item in front, holding
    the whole text, and the document counts as changed.  The loading
    state and the image are reset either way. *)
Theorem X18_extraction_is_recorded_when_it_has_text
    (stream : jsstring -> jsstring -> jsstring -> Generated)
    (tempImageUrl : jsstring) (now : N) (stamp : jsstring) (toast_now : N)
    (file : File.t) (st : AppState) (chunks : list jsstring) :
  startsWith (str "image/") (File.type file) = true ->
  (File.size file <= MAX_FILE_SIZE)%N ->
  stream (ocrContext st) (ocrQuality st) (selectedLlm st) = (chunks, inr tt) ->
  let after :=
    handleFileReady stream tempImageUrl now stamp toast_now (Some file) st in
  (concat chunks <> [] ->
   extractionHistory after =
     HistoryItem.mk now stamp (concat chunks) :: extractionHistory st /\
   hasUnsavedChanges after = true) /\
  (concat chunks = [] ->
   extractionHistory after = extractionHistory st /\
   hasUnsavedChanges after = hasUnsavedChanges st) /\
  isLoading after = false /\ imageUrl after = None.
Proof.
  intros Htype Hsize Hrun after. subst after.
  rewrite handleFileReady_accepted by assumption. cbv zeta.
  rewrite Hrun. cbn [fst snd extractionHistory hasUnsavedChanges isLoading imageUrl].
  split; [|split; [|split; reflexivity]].
  - intros Hne. destruct (concat chunks) as [|c0 s0]; [congruence|].
    split; reflexivity.
  - intros ->. split; reflexivity.
Qed.

(** X19.  A file that is not an image, or one above 10 MB, starts no
    extraction: whatever the stream would be, only the toast changes. *)
Theorem X19_other_files_start_no_extraction
    (stream : jsstring -> jsstring -> jsstring -> Generated)
    (tempImageUrl : jsstring) (now : N) (stamp : jsstring) (toast_now : N)
    (file : File.t) (st : AppState) :
  startsWith (str "image/") (File.type file) = false \/
  (MAX_FILE_SIZE < File.size file)%N ->
  exists message,
    handleFileReady stream tempImageUrl now stamp toast_now (Some file) st =
    setToast (Some (mkToast toast_now message ToastError)) st.
Proof.
  intros H. unfold handleFileReady.
  destruct (startsWith (str "image/") (File.type file)) eqn:Htype; cbn [negb].
  - destruct H as [H|H]; [discriminate|].
    replace (MAX_FILE_SIZE <? File.size file)%N with true
      by (symmetry; apply N.ltb_lt; exact H).
    eexists. reflexivity.
  - eexists. reflexivity.
Qed.

(** ** The simulation script against the backend *)

Section Simulation.

Variable JSON_parse : jsstring -> option JSON.
Variable engine_message : engine_error -> jsstring.
Variable number_to_string : Q -> jsstring.
Variable upstream : Call -> exn + Response.

Lemma bind_returns_as {A B} (m : M A) (k1 k2 : A -> M B) (w w' : World) (v : B) :
  (forall a w1, k1 a w1 = (w', inr v) -> k2 a w1 = (w', inr v)) ->
  bind m k1 w = (w', inr v) -> bind m k2 w = (w', inr v).
Proof.
  intros Hk. unfold bind. destruct (m w) as [w1 [e|a]]; [trivial | apply Hk].
Qed.

(** X22.  On the two tasks the backend knows, the script's copy of the
    text handler returns what the backend's handler returns, after the
    same call, whenever the backend's handler returns.  (The script
    reads [choices?.[0]] where the backend reads [choices[0]], and sends
    the title prompt for any other task.) *)
Theorem X22_simulation_returns_what_the_backend_returns
    (input : JSON) (apiUrl model : string) (key : jsstring)
    (w w' : World) (v : JSON) :
  is_string "summarize" (own_prop "task" input)
  || is_string "title" (own_prop "task" input) = true ->
  handleOpenAICompatibleText JSON_parse engine_message number_to_string upstream
    input apiUrl model key w = (w', inr v) ->
  Mock.handleOpenAICompatibleText JSON_parse engine_message number_to_string
    upstream input apiUrl model key w = (w', inr v).
Proof.
  intros Htask.
  unfold handleOpenAICompatibleText, Mock.handleOpenAICompatibleText.
  cbv zeta.
  assert (Hp : Mock.getTextTaskPrompt number_to_string (own_prop "task" input)
                 (own_prop "text" input) = text_prompt number_to_string input).
  { unfold Mock.getTextTaskPrompt, text_prompt, getTextTaskPrompt.
    destruct (is_string "summarize" (own_prop "task" input)); [reflexivity|].
    cbn [orb] in Htask. now rewrite Htask. }
  rewrite Hp. fold (openai_text_payload number_to_string input model).
  apply bind_returns_as. intros apiResponse w1.
  apply bind_returns_as. intros _ w2.
  apply bind_returns_as. intros json w3.
  apply bind_returns_as. intros choices w4.
  unfold bind at 1.
  destruct choices as [[| | | | |]|]; cbn [get_index engine_throw throw ret];
    try discriminate; trivial.
Qed.

End Simulation.

(** ** Binarization of any buffer *)

Lemma binarize_pixel_lookup (data : list Byte.byte) (i c : nat) :
  c < 3 -> i + c < length data ->
  binarize_pixel data i !! (i + c) = Some (pixel_color data i).
Proof.
  intros Hc Hlen. unfold binarize_pixel. fold (pixel_color data i).
  destruct c as [|[|[|c]]]; [| | |lia].
  - rewrite Nat.add_0_r in *. rewrite !list_lookup_insert_ne by lia.
    apply list_lookup_insert_eq. lia.
  - rewrite list_lookup_insert_ne by lia.
    apply list_lookup_insert_eq. rewrite length_insert. lia.
  - apply list_lookup_insert_eq. rewrite !length_insert. lia.
Qed.

Lemma pixel_color_other (data : list Byte.byte) (i k : nat) :
  i + 4 <= k -> pixel_color (binarize_pixel data i) k = pixel_color data k.
Proof.
  intros H. unfold pixel_color.
  now rewrite !binarize_pixel_other by lia.
Qed.

(** Every byte of the outcome: the three colour bytes of a group of
    four hold the group's colour, the fourth is kept. *)
Lemma binarize_from_lookup (n fuel i c : nat) (data : list Byte.byte) :
  n < fuel -> c < 4 -> i + 4 * n + c < length data ->
  binarize_from fuel i data !! (i + 4 * n + c) =
  if c <? 3 then Some (pixel_color data (i + 4 * n))
  else data !! (i + 4 * n + c).
Proof.
  revert fuel i data. induction n as [|n IH]; intros fuel i data Hn Hc Hlen.
  - destruct fuel as [|fuel]; [lia|]. cbn [binarize_from].
    rewrite Nat.mul_0_r, Nat.add_0_r in *.
    assert (Hi : (i <? length data) = true) by (apply Nat.ltb_lt; lia).
    rewrite Hi, binarize_from_below by lia.
    destruct (c <? 3) eqn:E.
    + apply Nat.ltb_lt in E. now apply binarize_pixel_lookup.
    + apply Nat.ltb_ge in E. apply binarize_pixel_other. lia.
  - destruct fuel as [|fuel]; [lia|]. cbn [binarize_from].
    assert (Hi : (i <? length data) = true) by (apply Nat.ltb_lt; lia).
    rewrite Hi.
    replace (i + 4 * S n) with (i + 4 + 4 * n) in * by lia.
    rewrite IH by (rewrite ?binarize_pixel_length; lia).
    rewrite pixel_color_other by lia.
    rewrite binarize_pixel_other by lia. reflexivity.
Qed.

Lemma binarize_lookup (data : list Byte.byte) (n c : nat) :
  c < 4 -> 4 * n + c < length data ->
  binarize data !! (4 * n + c) =
  if c <? 3 then Some (pixel_color data (4 * n)) else data !! (4 * n + c).
Proof.
  intros Hc Hlen. unfold binarize.
  apply (binarize_from_lookup n (length data) 0 c data); cbn [Nat.add]; lia.
Qed.

Lemma pixel_color_cases (data : list Byte.byte) (i : nat) :
  pixel_color data i = Byte.xff \/ pixel_color data i = Byte.x00.
Proof.
  unfold pixel_color.
  destruct (data !! i), (data !! (i + 1)), (data !! (i + 2)); auto.
  destruct (avg_gt_128 _); auto.
Qed.

(** The colour of a group that was binarized is the colour it has. *)
Lemma pixel_color_binarize (data : list Byte.byte) (n : nat) :
  pixel_color (binarize data) (4 * n) = pixel_color data (4 * n).
Proof.
  destruct (decide (4 * n + 2 < length data)) as [Hlen|Hlen].
  - unfold pixel_color at 1.
    pose proof (binarize_lookup data n 0) as H0.
    pose proof (binarize_lookup data n 1) as H1.
    pose proof (binarize_lookup data n 2) as H2.
    rewrite Nat.add_0_r in H0.
    rewrite H0, H1, H2 by lia. cbn [Nat.ltb Nat.leb].
    destruct (pixel_color_cases data (4 * n)) as [-> | ->];
      vm_compute; reflexivity.
  - assert (Hout : binarize data !! (4 * n + 2) = None).
    { apply lookup_ge_None. unfold binarize. rewrite binarize_from_length. lia. }
    assert (Hin : data !! (4 * n + 2) = None) by (apply lookup_ge_None; lia).
    unfold pixel_color. rewrite Hout, Hin.
    destruct (binarize data !! (4 * n)), (binarize data !! (4 * n + 1)),
      (data !! (4 * n)), (data !! (4 * n + 1)); reflexivity.
Qed.

(** X23.  Binarizing a buffer that was binarized changes nothing, for a
    buffer of any length. *)
Theorem X23_binarize_is_idempotent (data : list Byte.byte) :
  binarize (binarize data) = binarize data.
Proof.
  assert (Hlen : length (binarize data) = length data)
    by (unfold binarize; apply binarize_from_length).
  apply list_eq. intros j.
  destruct (decide (j < length data)) as [Hj|Hj].
  - assert (Hdiv : j = 4 * (j / 4) + j mod 4) by apply Nat.div_mod_eq.
    assert (Hc : j mod 4 < 4) by (apply Nat.mod_upper_bound; lia).
    rewrite Hdiv.
    rewrite (binarize_lookup (binarize data)) by lia.
    rewrite (binarize_lookup data) by lia.
    rewrite pixel_color_binarize.
    destruct (j mod 4 <? 3); reflexivity.
  - rewrite !(proj2 (lookup_ge_None _ _)); [reflexivity | |].
    + lia.
    + unfold binarize at 1. rewrite binarize_from_length. lia.
Qed.

(** ** [sanitizeHtml] *)

Lemma remove_from_skip (re : jsstring -> option nat) (k : nat) (s : jsstring) :
  remove_from re k s = remove_from re 0 (drop k s).
Proof.
  revert k. induction s as [|c s IH]; intros k.
  - now destruct k.
  - destruct k as [|k]; [reflexivity|]. cbn [remove_from drop]. apply IH.
Qed.

Lemma remove_from_sublist (re : jsstring -> option nat) (k : nat) (s : jsstring) :
  sublist (remove_from re k s) s.
Proof.
  revert k. induction s as [|c s IH]; intros k; [constructor|].
  cbn [remove_from]. destruct k as [|k].
  - destruct (re (c :: s)) as [n|].
    + apply sublist_cons, IH.
    + apply sublist_skip, IH.
  - apply sublist_cons, IH.
Qed.

(** Where no match starts inside [a], the pass keeps [a]. *)
Lemma remove_all_keeps (re : jsstring -> option nat) (a b : jsstring) :
  (forall a1 a2, a = a1 ++ a2 -> a2 <> [] -> re (a2 ++ b) = None) ->
  remove_all re (a ++ b) = a ++ remove_all re b.
Proof.
  unfold remove_all. induction a as [|c a IH]; intros H; [reflexivity|].
  cbn [app remove_from].
  assert (H0 : re (c :: a ++ b) = None)
    by (apply (H [] (c :: a)); [reflexivity | discriminate]).
  rewrite H0. f_equal. apply IH. intros a1 a2 -> Hne.
  apply (H (c :: a1) a2); [reflexivity | exact Hne].
Qed.

(** A match at the head is taken out. *)
Lemma remove_all_match (re : jsstring -> option nat) (m b : jsstring) :
  m <> [] -> re (m ++ b) = Some (length m) ->
  remove_all re (m ++ b) = remove_all re b.
Proof.
  unfold remove_all. destruct m as [|c m]; [congruence|]. intros _ H.
  cbn [app remove_from] in *. rewrite H. cbn [length pred].
  rewrite remove_from_skip. now rewrite drop_app_length.
Qed.

Lemma starts_ci_app (p a x : jsstring) :
  starts_ci p a = true -> starts_ci p (a ++ x) = true.
Proof.
  revert a. induction p as [|c p IH]; intros a; [reflexivity|].
  destruct a as [|d a]; [discriminate|]. cbn [starts_ci app].
  intros H. apply andb_prop in H as [Hc Hp]. now rewrite Hc, IH.
Qed.

(** A pattern that matches at the head of [a ++ b] matches inside [a],
    or its tail from some place on matches at the head of [b]. *)
Lemma starts_ci_straddle (p a b : jsstring) :
  starts_ci p (a ++ b) = true ->
  starts_ci p a = true \/
  (length a < length p /\ starts_ci (drop (length a) p) b = true).
Proof.
  revert a. induction p as [|c p IH]; intros a H; [left; reflexivity|].
  destruct a as [|d a].
  - right. split; [cbn; lia | exact H].
  - cbn [starts_ci app] in H. apply andb_prop in H as [Hc Hp].
    destruct (IH a Hp) as [Ha | [Hlen Hd]].
    + left. cbn [starts_ci]. now rewrite Hc, Ha.
    + right. split; [cbn [length]; lia | exact Hd].
Qed.

Lemma occurs_ci_suffix (p a1 a2 : jsstring) :
  occurs_ci p (a1 ++ a2) = false -> occurs_ci p a2 = false.
Proof.
  induction a1 as [|c a1 IH]; [trivial|].
  cbn [app occurs_ci]. intros H. apply orb_false_elim in H as [_ H]. now apply IH.
Qed.

Lemma occurs_ci_starts (p s : jsstring) :
  occurs_ci p s = false -> starts_ci p s = false.
Proof.
  destruct s; cbn [occurs_ci]; intros H; now apply orb_false_elim in H as [H _].
Qed.

(** A pattern whose first code unit comes nowhere else in it does not
    match across the start of a text that begins with that code unit. *)
Lemma no_straddle (p a2 b : jsstring) (h c0 : N) :
  (forall k, 0 < k < length p ->
             starts_ci (drop k p) (c0 :: b) = false) ->
  starts_ci p a2 = false -> a2 <> [] ->
  starts_ci p (a2 ++ c0 :: b) = false.
Proof.
  intros Hk Ha Hne.
  destruct (starts_ci p (a2 ++ c0 :: b)) eqn:E; [|reflexivity].
  destruct (starts_ci_straddle _ _ _ E) as [H | [Hlen H]]; [congruence|].
  rewrite Hk in H; [discriminate|].
  destruct a2; [congruence | cbn [length] in *; lia].
Qed.

Lemma head_once (tl b : jsstring) (h c0 : N) :
  forallb (fun c => negb (eq_ci c h)) tl = true -> eq_ci h c0 = true ->
  forall k, 0 < k < length (h :: tl) ->
            starts_ci (drop k (h :: tl)) (c0 :: b) = false.
Proof.
  intros Htl Hh k Hk. destruct k as [|k]; [lia|]. cbn [drop length] in *.
  assert (Hlt : k < length tl) by lia. clear Hk.
  revert k Hlt. induction tl as [|d tl IH]; intros k Hlt; [cbn in Hlt; lia|].
  cbn [forallb] in Htl. apply andb_prop in Htl as [Hd Htl].
  destruct k as [|k].
  - cbn [drop starts_ci]. unfold eq_ci in *.
    apply N.eqb_eq in Hh. rewrite <- Hh.
    apply negb_true_iff in Hd. now rewrite Hd.
  - cbn [drop]. apply IH; [assumption | cbn [length] in Hlt; lia].
Qed.

Lemma remove_all_none (re : jsstring -> option nat) (s : jsstring) :
  (forall a1 a2, s = a1 ++ a2 -> a2 <> [] -> re a2 = None) ->
  remove_all re s = s.
Proof.
  intros H. rewrite <- (app_nil_r s) at 1.
  rewrite remove_all_keeps; [now rewrite app_nil_r|].
  intros a1 a2 Hs Hne. rewrite app_nil_r. now apply (H a1).
Qed.

Lemma match_script_none (s : jsstring) :
  starts_ci (str "<script") s = false -> match_script s = None.
Proof. intros H. unfold match_script. now rewrite H. Qed.

Lemma match_handler_none (s : jsstring) :
  starts_ci (str " on") s = false -> match_handler s = None.
Proof. intros H. unfold match_handler. now rewrite H. Qed.

Lemma remove_all_absent (p : jsstring) (re : jsstring -> option nat)
    (s : jsstring) :
  (forall t, starts_ci p t = false -> re t = None) ->
  occurs_ci p s = false -> remove_all re s = s.
Proof.
  intros Hre H. apply remove_all_none. intros a1 a2 -> _.
  apply Hre, occurs_ci_starts, (occurs_ci_suffix p a1), H.
Qed.

(** X24.  [sanitizeHtml] only takes code units out: what it returns is
    what is left of its argument, in order; for an argument that is not
    a string it returns the empty string. *)
Theorem X24_sanitizeHtml_only_removes (html : JSValue) :
  match html with
  | Some (JStr s) => sublist (sanitizeHtml html) s
  | _ => sanitizeHtml html = []
  end.
Proof.
  destruct html as [[| | |s| |]|]; try reflexivity.
  cbn [sanitizeHtml]. unfold remove_all.
  etransitivity; apply remove_from_sublist.
Qed.

(** X25.  A text in which neither [<script] nor [ on] occurs, in any
    case of the letters, is returned as it is. *)
Theorem X25_sanitizeHtml_keeps_a_clean_text (s : jsstring) :
  occurs_ci (str "<script") s = false ->
  occurs_ci (str " on") s = false ->
  sanitizeHtml (Some (JStr s)) = s.
Proof.
  intros Hs Hh. cbn [sanitizeHtml].
  rewrite (remove_all_absent (str "<script") match_script s match_script_none Hs).
  apply (remove_all_absent (str " on") match_handler s match_handler_none Hh).
Qed.

Lemma drop_app_more {A} (a x : list A) (n : nat) :
  drop (length a + n) (a ++ x) = drop n x.
Proof. induction a as [|c a IH]; [reflexivity | exact IH]. Qed.

Lemma through_gt_attrs (attrs x : jsstring) :
  forallb (fun c => negb (c =? 62)%N) attrs = true ->
  through_gt (attrs ++ 62%N :: x) = Some (length attrs + 1).
Proof.
  induction attrs as [|c attrs IH]; [reflexivity|].
  cbn [forallb]. intros H. apply andb_prop in H as [Hc H].
  cbn [app through_gt length]. apply negb_true_iff in Hc.
  rewrite Hc, (IH H). reflexivity.
Qed.

Lemma through_close_body (body rest : jsstring) :
  (forall b1 b2, body = b1 ++ b2 -> b2 <> [] ->
                 starts_ci (str "</script>") (b2 ++ rest) = false) ->
  starts_ci (str "</script>") rest = true ->
  through_close (body ++ rest) = Some (length body + 9).
Proof.
  intros Hb Hr. induction body as [|c body IH].
  - destruct rest as [|c rest]; [discriminate Hr|].
    cbn [app through_close length]. now rewrite Hr.
  - cbn [app through_close length].
    assert (H0 : starts_ci (str "</script>") (c :: body ++ rest) = false)
      by (apply (Hb [] (c :: body)); [reflexivity | discriminate]).
    rewrite H0, IH; [reflexivity|].
    intros b1 b2 -> Hne. apply (Hb (c :: b1) b2); [reflexivity | exact Hne].
Qed.

Lemma word_ends_attrs (attrs x : jsstring) :
  word_ends attrs = true -> word_ends (attrs ++ 62%N :: x) = true.
Proof. destruct attrs; [reflexivity | trivial]. Qed.

(** The head of a text that a pattern matches. *)
Lemma starts_ci_head (h : N) (tl s : jsstring) :
  starts_ci (h :: tl) s = true ->
  exists c0 s', s = c0 :: s' /\ eq_ci h c0 = true.
Proof.
  destruct s as [|c0 s']; [discriminate|]. cbn [starts_ci]. intros H.
  apply andb_prop in H as [H _]. eauto.
Qed.

(** A script element whose start tag, attributes, content and end tag
    are as the expression wants them is one match. *)
Lemma match_script_element (open attrs body close post : jsstring) :
  starts_ci (str "<script") open = true -> length open = 7 ->
  forallb (fun c => negb (c =? 62)%N) attrs = true -> word_ends attrs = true ->
  occurs_ci (str "</script>") body = false ->
  starts_ci (str "</script>") close = true -> length close = 9 ->
  match_script (open ++ attrs ++ 62%N :: body ++ close ++ post) =
  Some (length (open ++ attrs ++ 62%N :: body ++ close)).
Proof.
  intros Hopen Hlo Hattrs Hword Hbody Hclose Hlc. unfold match_script.
  rewrite (starts_ci_app _ _ _ Hopen).
  assert (Hd : forall n x, drop (7 + n) (open ++ x) = drop n x)
    by (intros n x; rewrite <- Hlo; apply drop_app_more).
  rewrite (Hd 0), drop_0.
  rewrite (word_ends_attrs _ _ Hword). cbn [andb].
  rewrite (through_gt_attrs _ _ Hattrs).
  rewrite Hd, drop_app_more. cbn [drop]. rewrite drop_0.
  rewrite through_close_body.
  - f_equal. rewrite !length_app. cbn [length]. rewrite !length_app. lia.
  - intros b1 b2 -> Hne.
    destruct (starts_ci_head _ _ _ Hclose) as (c0 & close' & -> & Hc0).
    cbn [app]. apply (no_straddle _ _ _ 60%N).
    + apply head_once; [vm_compute; reflexivity | exact Hc0].
    + apply occurs_ci_starts, (occurs_ci_suffix _ b1), Hbody.
    + exact Hne.
  - now apply starts_ci_app.
Qed.

(** X26.  A script element is taken out whole, and nothing else: the
    start tag in any case with attributes up to its [>], the content up
    to the first end tag, inside a text that has no other [<script]
    and, without the element, no [ on]. *)
Theorem X26_sanitizeHtml_removes_a_script_element
    (pre open attrs body close post : jsstring) :
  occurs_ci (str "<script") pre = false ->
  starts_ci (str "<script") open = true -> length open = 7 ->
  forallb (fun c => negb (c =? 62)%N) attrs = true -> word_ends attrs = true ->
  occurs_ci (str "</script>") body = false ->
  starts_ci (str "</script>") close = true -> length close = 9 ->
  occurs_ci (str "<script") post = false ->
  occurs_ci (str " on") (pre ++ post) = false ->
  sanitizeHtml
    (Some (JStr (pre ++ open ++ attrs ++ [62%N] ++ body ++ close ++ post)))
  = pre ++ post.
Proof.
  intros Hpre Hopen Hlo Hattrs Hword Hbody Hclose Hlc Hpost Hon.
  cbn [sanitizeHtml app].
  assert (Hscripts :
            remove_all match_script
              (pre ++ open ++ attrs ++ 62%N :: body ++ close ++ post)
            = pre ++ post).
  { rewrite remove_all_keeps.
    - f_equal.
      replace (open ++ attrs ++ 62%N :: body ++ close ++ post)
        with ((open ++ attrs ++ 62%N :: body ++ close) ++ post)
        by (now rewrite <- !app_assoc, <- app_comm_cons, <- !app_assoc).
      rewrite remove_all_match.
      + apply (remove_all_absent (str "<script") match_script post
                 match_script_none Hpost).
      + destruct open; [discriminate | discriminate].
      + rewrite <- !app_assoc, <- app_comm_cons, <- !app_assoc.
        now apply match_script_element.
    - intros a1 a2 -> Hne. apply match_script_none.
      destruct (starts_ci_head _ _ _ Hopen) as (c0 & open' & -> & Hc0).
      cbn [app]. apply (no_straddle _ _ _ 60%N).
      + apply head_once; [vm_compute; reflexivity | exact Hc0].
      + apply occurs_ci_starts, (occurs_ci_suffix _ a1), Hpre.
      + exact Hne. }
  rewrite Hscripts.
  apply (remove_all_absent (str " on") match_handler (pre ++ post)
           match_handler_none Hon).
Qed.

Lemma word_run_name (name x : jsstring) :
  forallb is_word name = true -> word_run (name ++ 61%N :: x) = length name.
Proof.
  induction name as [|c name IH]; [reflexivity|].
  cbn [forallb]. intros H. apply andb_prop in H as [Hc H].
  cbn [app word_run length]. now rewrite Hc, (IH H).
Qed.

Lemma through_quote_value (q : N) (value x : jsstring) :
  forallb (fun c => negb (c =? q)%N && negb (is_line_terminator c)) value = true ->
  through_quote q (value ++ q :: x) = Some (length value + 1).
Proof.
  induction value as [|c value IH].
  - intros _. cbn [app through_quote length]. now rewrite N.eqb_refl.
  - cbn [forallb]. intros H. apply andb_prop in H as [Hc H].
    apply andb_prop in Hc as [Hq Hl].
    apply negb_true_iff in Hq. apply negb_true_iff in Hl.
    cbn [app through_quote length]. now rewrite Hq, Hl, (IH H).
Qed.

(** An event-handler attribute with a quoted value is one match. *)
Lemma match_handler_attribute (start name value post : jsstring) (q : N) :
  starts_ci (str " on") start = true -> length start = 3 ->
  name <> [] -> forallb is_word name = true ->
  q = 34%N \/ q = 39%N ->
  forallb (fun c => negb (c =? q)%N && negb (is_line_terminator c)) value = true ->
  match_handler (start ++ name ++ 61%N :: q :: value ++ q :: post) =
  Some (length (start ++ name ++ 61%N :: q :: value ++ [q])).
Proof.
  intros Hstart Hls Hne Hname Hq Hvalue. unfold match_handler.
  rewrite (starts_ci_app _ _ _ Hstart). cbv zeta.
  assert (Hd : forall n x, drop (3 + n) (start ++ x) = drop n x)
    by (intros n x; rewrite <- Hls; apply drop_app_more).
  rewrite (Hd 0), drop_0, (word_run_name _ _ Hname).
  destruct name as [|c name]; [congruence|]. cbn [length].
  rewrite Hd.
  replace (drop (S (length name)) ((c :: name) ++ 61%N :: q :: value ++ q :: post))
    with (61%N :: q :: value ++ q :: post)
    by (change (S (length name)) with (length (c :: name));
        now rewrite <- (Nat.add_0_r (length (c :: name))), drop_app_more, drop_0).
  replace (61 =? 61)%N with true by reflexivity.
  unfold value_length.
  replace ((q =? 34) || (q =? 39))%N with true
    by (destruct Hq as [-> | ->]; reflexivity).
  rewrite (through_quote_value _ _ _ Hvalue).
  f_equal. rewrite !length_app. cbn [length]. rewrite !length_app.
  cbn [length]. lia.
Qed.

(** X27.  An event-handler attribute with a quoted value is taken out
    whole, and nothing else: a space, [on] in any case, a name, [=] and
    the value between two quotes of one kind, on one line, inside a
    text that has no [<script] and no other [ on]. *)
Theorem X27_sanitizeHtml_removes_a_quoted_handler
    (pre start name value post : jsstring) (q : N) :
  let html := pre ++ start ++ name ++ [61%N] ++ [q] ++ value ++ [q] ++ post in
  occurs_ci (str "<script") html = false ->
  occurs_ci (str " on") pre = false ->
  starts_ci (str " on") start = true -> length start = 3 ->
  name <> [] -> forallb is_word name = true ->
  q = 34%N \/ q = 39%N ->
  forallb (fun c => negb (c =? q)%N && negb (is_line_terminator c)) value = true ->
  occurs_ci (str " on") post = false ->
  sanitizeHtml (Some (JStr html)) = pre ++ post.
Proof.
  intros html Hscript Hpre Hstart Hls Hne Hname Hq Hvalue Hpost. subst html.
  cbn [sanitizeHtml app] in *.
  rewrite (remove_all_absent (str "<script") match_script _ match_script_none
             Hscript).
  rewrite remove_all_keeps.
  - f_equal.
    replace (start ++ name ++ 61%N :: q :: value ++ q :: post)
      with ((start ++ name ++ 61%N :: q :: value ++ [q]) ++ post)
      by (now rewrite <- !app_assoc, <- !app_comm_cons, <- !app_assoc).
    rewrite remove_all_match.
    + apply (remove_all_absent (str " on") match_handler post
               match_handler_none Hpost).
    + destruct start; discriminate.
    + rewrite <- !app_assoc, <- !app_comm_cons, <- !app_assoc.
      now apply match_handler_attribute.
  - intros a1 a2 -> Hne2. apply match_handler_none.
    destruct (starts_ci_head _ _ _ Hstart) as (c0 & start' & -> & Hc0).
    cbn [app]. apply (no_straddle _ _ _ 32%N).
    + apply head_once; [vm_compute; reflexivity | exact Hc0].
    + apply occurs_ci_starts, (occurs_ci_suffix _ a1), Hpre.
    + exact Hne2.
Qed.

(** ** A summary in the component *)

Section SummaryBlock.

Variable JSON_parse : jsstring -> option JSON.
Variable engine_message : engine_error -> jsstring.
Variable number_to_string : Q -> jsstring.
Variable textContent : jsstring -> jsstring.

Local Abbreviation summarize :=
  (handleSummarize JSON_parse engine_message number_to_string textContent).

Lemma or_empty_text (s : jsstring) :
  (if truthy (Some (JStr s)) then s else []) = s.
Proof. destruct s; reflexivity. Qed.


End SummaryBlock.

(** ** An extraction from the backend's answer to the document *)

(** The stream [handleFileReady] consumes, for an image that was
    preprocessed to [base64String] and [mimeType]. *)
Lemma extraction_run (base64String mimeType context quality llm : jsstring)
    (backend : JSON -> exn + Response) (r : Response) :
  backend (extract_request base64String mimeType context quality llm) = inr r ->
  extractTextFromImageStream (inr (base64String, mimeType)) context quality llm
    backend =
  if ok r then
    match body r with
    | Some b =>
        (map decode_all (reads b),
         match finish b with
         | EndOfStream => inr tt
         | ReadFails e => inl (extract_catch e)
         end)
    | None => ([], inl (JsError (str "Extraction failed: Response body is empty.")))
    end
  else
    ([], match body_text r with
         | inr t => inl (JsError (str "Extraction failed: Backend error: "
                                  ++ show_N (status r) ++ str " " ++ t))
         | inl e => inl (extract_catch e)
         end).
Proof.
  intros Hb. unfold extractTextFromImageStream, extract_try. rewrite Hb.
  destruct (ok r); cbn [negb].
  - destruct (body r) as [b|]; [|reflexivity].
    rewrite client_loop_chunks by reflexivity. destruct (finish b); reflexivity.
  - destruct (body_text r); reflexivity.
Qed.

(** X20.  From the backend's answer to the document: when the backend
    answers the extraction request of the current context, quality and
    provider with success and its body ends, the document gets the
    rule, when it was not empty, and the text of every read of the
    body, each read decoded on its own; the history gets that text as
    one item when it is not empty. *)
Theorem X20_answer_of_the_backend_reaches_the_document
    (base64String mimeType : jsstring) (backend : JSON -> exn + Response)
    (tempImageUrl : jsstring) (now : N) (stamp : jsstring) (toast_now : N)
    (file : File.t) (st : AppState) (r : Response) (rs : list (list Byte.byte)) :
  startsWith (str "image/") (File.type file) = true ->
  (File.size file <= MAX_FILE_SIZE)%N ->
  backend (extract_request base64String mimeType (ocrContext st) (ocrQuality st)
             (selectedLlm st)) = inr r ->
  ok r = true -> body r = Some (mkBody rs EndOfStream) ->
  let text := concat (map decode_all rs) in
  let after :=
    handleFileReady
      (fun context quality llm =>
         extractTextFromImageStream (inr (base64String, mimeType)) context
           quality llm backend)
      tempImageUrl now stamp toast_now (Some file) st in
  livingDocument after =
    match rs with
    | [] => livingDocument st
    | _ :: _ => livingDocument st ++ separator_after (livingDocument st) ++ text
    end /\
  extractionHistory after =
    match text with
    | [] => extractionHistory st
    | _ :: _ => HistoryItem.mk now stamp text :: extractionHistory st
    end /\
  isLoading after = false /\ imageUrl after = None.
Proof.
  intros Htype Hsize Hb Hok Hbody text after. subst after text.
  rewrite handleFileReady_accepted by assumption. cbv zeta.
  rewrite (extraction_run _ _ _ _ _ _ r Hb), Hok, Hbody.
  cbn [reads finish fst snd livingDocument extractionHistory isLoading imageUrl].
  split; [|split; [|split; reflexivity]].
  - destruct rs; reflexivity.
  - destruct (concat (map decode_all rs)); reflexivity.
Qed.

(** X21.  A non-success status of the backend never touches the
    document: document, history and unsaved-changes flag are as before,
    the toast shows the status and the body text of the backend under
    the two prefixes of the generator, and the loading state and the
    image are reset. *)
Theorem X21_backend_error_leaves_the_document
    (base64String mimeType : jsstring) (backend : JSON -> exn + Response)
    (tempImageUrl : jsstring) (now : N) (stamp : jsstring) (toast_now : N)
    (file : File.t) (st : AppState) (r : Response) (t : jsstring) :
  startsWith (str "image/") (File.type file) = true ->
  (File.size file <= MAX_FILE_SIZE)%N ->
  backend (extract_request base64String mimeType (ocrContext st) (ocrQuality st)
             (selectedLlm st)) = inr r ->
  ok r = false -> body_text r = inr t ->
  handleFileReady
    (fun context quality llm =>
       extractTextFromImageStream (inr (base64String, mimeType)) context
         quality llm backend)
    tempImageUrl now stamp toast_now (Some file) st =
  setToast
    (Some (mkToast toast_now
             (str "Extraction failed: Backend error: " ++ show_N (status r)
              ++ str " " ++ t) ToastError))
    (setImageUrl None (setIsLoading false st)).
Proof.
  intros Htype Hsize Hb Hok Ht.
  rewrite handleFileReady_accepted by assumption. cbv zeta.
  rewrite (extraction_run _ _ _ _ _ _ r Hb), Hok, Ht. reflexivity.
Qed.

(** ** The further properties on the sample inputs *)

Lemma X1_sample_request :
  serve RefJSON.parse Sample.engine Sample.number Sample.all_keys
    Sample.unreachable (mkRequest (Some (str "GET")) None) =
  mkWorld (mkRes true 405 [(str "Allow", [str "POST"])] []
                 (Some (error_body (str "Method Not Allowed"))) true)
          [] [] [].
Proof.
  apply (X1_other_methods_are_answered_405 RefJSON.parse Sample.engine
           Sample.number Sample.all_keys Sample.unreachable
           (mkRequest (Some (str "GET")) None)).
  vm_compute. discriminate.
Defined.

Lemma X2_sample_request :
  let served := serve RefJSON.parse Sample.engine Sample.number Sample.all_keys
                  Sample.unreachable (mkRequest (Some (str "POST")) None) in
  served = failed (Sample.engine NullishRead) new_World /\
  statusCode (res served) = 500%N /\
  fetched served = [].
Proof.
  apply (X2_post_without_body_is_answered_500 RefJSON.parse Sample.engine
           Sample.number Sample.all_keys Sample.unreachable
           (mkRequest (Some (str "POST")) None));
    [reflexivity | left; reflexivity].
Defined.


Lemma X7_sample_request :
  serve RefJSON.parse Sample.engine Sample.number Sample.all_keys
    (Sample.answers 200 Sample.reads EndOfStream) (Sample.ocr_request "openai") =
  serve RefJSON.parse Sample.engine Sample.number Sample.all_keys
    (Sample.answers 200 [Sample.wire] EndOfStream) (Sample.ocr_request "openai").
Proof.
  apply (X7_openai_response_ignores_read_boundaries RefJSON.parse Sample.engine
           Sample.number Sample.all_keys
           (Sample.answers 200 Sample.reads EndOfStream)
           (Sample.answers 200 [Sample.wire] EndOfStream)
           (Sample.ocr_request "openai") (Sample.ocr_body "openai")
           (str "o-key") 200 Sample.reads [Sample.wire] EndOfStream);
    first [reflexivity | discriminate | lia | (vm_compute; reflexivity)
          | (vm_compute; discriminate)].
Defined.

Lemma X10_sample_request :
  let served := serve RefJSON.parse Sample.engine Sample.number Sample.all_keys
                  (Sample.answers 200 [TextSample.openai_wire] EndOfStream)
                  (TextSample.request "title" "deepseek") in
  (exists s, trimmed s /\
     res served = replied 200 (JObj [(str "result", JStr s)]) new_Res) \/
  (exists message,
     res served =
     replied 500 (error_body (str "Error processing your request: " ++ message))
             new_Res).
Proof.
  apply (X10_text_task_answer_is_a_trimmed_string RefJSON.parse Sample.engine
           Sample.number Sample.all_keys
           (Sample.answers 200 [TextSample.openai_wire] EndOfStream)
           (TextSample.request "title" "deepseek")
           (TextSample.body "title" "deepseek"));
    first [reflexivity | discriminate].
Defined.



Lemma X13_sample_request :
  let j := TextSample.body "translate" "gemini" in
  text_prompt Sample.number j = undefined /\
  fetched (serve RefJSON.parse Sample.engine Sample.number Sample.all_keys
             Sample.unreachable (TextSample.request "translate" "gemini")) =
  [match select_provider (own_prop "llm" j) with
   | Gemini =>
       mkCall (gemini_text_url (str "g-key")) (str "POST") json_headers
         (JObj [(str "contents", JArr [JObj [(str "parts", JArr [JObj []])]])])
   | Deepseek | OpenAI =>
       mkCall (text_url (select_provider (own_prop "llm" j)) (str "g-key"))
         (str "POST") (bearer_headers (str "g-key"))
         (JObj [(str "model",
                 JStr (str (text_model (select_provider (own_prop "llm" j)))));
                (str "messages", JArr [JObj [(str "role", JStr (str "user"))]]);
                (str "stream", JBool false)])
   end].
Proof.
  apply (X13_unknown_task_is_sent_without_a_prompt RefJSON.parse Sample.engine
           Sample.number Sample.all_keys Sample.unreachable
           (TextSample.request "translate" "gemini")
           (TextSample.body "translate" "gemini") (str "g-key"));
    first [reflexivity | discriminate | (vm_compute; reflexivity)
          | (vm_compute; discriminate)].
Defined.

Lemma X14_sample_stream :
  extractTextFromImageStream (inr (str "AAAA", str "image/png"))
    (str "general") (str "standard") (str "openai")
    (TextSample.backend 200 Sample.reads (ReadFails (JsError (str "terminated")))) =
  (map decode_all Sample.reads,
   inl (extract_catch (JsError (str "terminated")))).
Proof.
  apply (X14_generator_yields_one_chunk_per_read (str "AAAA") (str "image/png")
           (str "general") (str "standard") (str "openai")
           (TextSample.backend 200 Sample.reads
              (ReadFails (JsError (str "terminated"))))
           (mkResponse 200
              (Some (mkBody Sample.reads (ReadFails (JsError (str "terminated"))))))
           (mkBody Sample.reads (ReadFails (JsError (str "terminated")))));
    reflexivity.
Defined.

Lemma X15_sample_stream :
  let rs := [bytes "<p>Hel"; bytes "lo</p>"] in
  concat (fst (client_loop rs EndOfStream new_TextDecoder)) = decode_all (concat rs) /\
  decode_all (concat rs) = map Byte.to_N (concat rs).
Proof.
  apply (X15_ascii_chunks_concatenate_to_the_text
           [bytes "<p>Hel"; bytes "lo</p>"] EndOfStream).
  vm_compute. reflexivity.
Defined.

Lemma X16_sample_extraction :
  let st := initial_state in
  let chunks := fst (TextSample.ending (ocrContext st) (ocrQuality st)
                       (selectedLlm st)) in
  let after :=
    handleFileReady TextSample.ending (str "blob:1") 7 (str "today") 8
      (Some TextSample.image) st in
  (chunks = [] -> livingDocument after = livingDocument st) /\
  (chunks <> [] ->
   livingDocument after =
     livingDocument st ++ separator_after (livingDocument st) ++ concat chunks /\
   livingDocument after =
     livingDocument (handleAppendToDocument 8 (concat chunks) st)).
Proof.
  apply (X16_extraction_appends_the_chunks TextSample.ending (str "blob:1") 7
           (str "today") 8 TextSample.image initial_state);
    [reflexivity | vm_compute; discriminate].
Defined.

Lemma X17_sample_extraction :
  let st := initial_state in
  let after :=
    handleFileReady TextSample.failing (str "blob:1") 7 (str "today") 8
      (Some TextSample.image) st in
  livingDocument after =
    match TextSample.chunks with
    | [] => livingDocument st
    | _ :: _ =>
        livingDocument st ++ separator_after (livingDocument st)
        ++ concat TextSample.chunks
    end /\
  extractionHistory after = extractionHistory st /\
  hasUnsavedChanges after = hasUnsavedChanges st /\
  toast after =
    Some (mkToast 8 (str "Extraction failed: terminated") ToastError) /\
  isLoading after = false /\ imageUrl after = None.
Proof.
  apply (X17_failed_extraction_keeps_the_partial_text TextSample.failing
           (str "blob:1") 7 (str "today") 8 TextSample.image initial_state
           TextSample.chunks (str "Extraction failed: terminated"));
    [reflexivity | vm_compute; discriminate | reflexivity].
Defined.

Lemma X18_sample_extraction :
  let st := initial_state in
  let after :=
    handleFileReady TextSample.ending (str "blob:1") 7 (str "today") 8
      (Some TextSample.image) st in
  (concat TextSample.chunks <> [] ->
   extractionHistory after =
     HistoryItem.mk 7 (str "today") (concat TextSample.chunks)
     :: extractionHistory st /\
   hasUnsavedChanges after = true) /\
  (concat TextSample.chunks = [] ->
   extractionHistory after = extractionHistory st /\
   hasUnsavedChanges after = hasUnsavedChanges st) /\
  isLoading after = false /\ imageUrl after = None.
Proof.
  apply (X18_extraction_is_recorded_when_it_has_text TextSample.ending
           (str "blob:1") 7 (str "today") 8 TextSample.image initial_state
           TextSample.chunks);
    [reflexivity | vm_compute; discriminate | reflexivity].
Defined.

Lemma X19_sample_extraction :
  exists message,
    handleFileReady TextSample.ending (str "blob:1") 7 (str "today") 8
      (Some TextSample.document) initial_state =
    setToast (Some (mkToast 8 message ToastError)) initial_state.
Proof.
  apply (X19_other_files_start_no_extraction TextSample.ending (str "blob:1") 7
           (str "today") 8 TextSample.document initial_state).
  left. reflexivity.
Defined.

Lemma X22_sample_call :
  let j := TextSample.body "title" "deepseek" in
  Mock.handleOpenAICompatibleText RefJSON.parse Sample.engine Sample.number
    (Sample.answers 200 [TextSample.openai_wire] EndOfStream)
    j "https://api.deepseek.com/chat/completions" "deepseek-chat" (str "d-key")
    new_World =
  (mkWorld new_Res [text_call Sample.number Deepseek j (str "d-key")] [] [],
   inr (JStr (str "A Title"))).
Proof.
  apply (X22_simulation_returns_what_the_backend_returns RefJSON.parse
           Sample.engine Sample.number
           (Sample.answers 200 [TextSample.openai_wire] EndOfStream)
           (TextSample.body "title" "deepseek")
           "https://api.deepseek.com/chat/completions" "deepseek-chat"
           (str "d-key") new_World);
    vm_compute; reflexivity.
Defined.

Lemma X25_sample_text :
  sanitizeHtml (Some (JStr (str "<p>Caf</p><ul><li>one</li></ul>")))
  = str "<p>Caf</p><ul><li>one</li></ul>".
Proof.
  apply (X25_sanitizeHtml_keeps_a_clean_text
           (str "<p>Caf</p><ul><li>one</li></ul>"));
    vm_compute; reflexivity.
Defined.

Lemma X26_sample_text :
  sanitizeHtml
    (Some (JStr (str "<p>a</p>" ++ str "<SCRIPT" ++ str " src='x'" ++ [62%N]
                 ++ str "alert(1)" ++ str "</Script>" ++ str "<p>b</p>")))
  = str "<p>a</p>" ++ str "<p>b</p>".
Proof.
  apply (X26_sanitizeHtml_removes_a_script_element (str "<p>a</p>")
           (str "<SCRIPT") (str " src='x'") (str "alert(1)") (str "</Script>")
           (str "<p>b</p>"));
    vm_compute; reflexivity.
Defined.

Lemma X27_sample_text :
  sanitizeHtml
    (Some (JStr (str "<a href=x" ++ str " ON" ++ str "click" ++ [61%N] ++ [39%N]
                 ++ str "alert(1)" ++ [39%N] ++ str ">link</a>")))
  = str "<a href=x" ++ str ">link</a>".
Proof.
  apply (X27_sanitizeHtml_removes_a_quoted_handler (str "<a href=x")
           (str " ON") (str "click") (str "alert(1)") (str ">link</a>") 39%N);
    first [ (vm_compute; reflexivity) | (vm_compute; discriminate)
          | (right; reflexivity) ].
Defined.


Lemma X20_sample_extraction :
  let backend := TextSample.backend 200 [bytes "<p>Hel"; bytes "lo</p>"] EndOfStream in
  let rs := [bytes "<p>Hel"; bytes "lo</p>"] in
  let st := initial_state in
  let text := concat (map decode_all rs) in
  let after :=
    handleFileReady
      (fun context quality llm =>
         extractTextFromImageStream (inr (str "AAAA", str "image/png")) context
           quality llm backend)
      (str "blob:1") 7 (str "today") 8 (Some TextSample.image) st in
  livingDocument after =
    match rs with
    | [] => livingDocument st
    | _ :: _ => livingDocument st ++ separator_after (livingDocument st) ++ text
    end /\
  extractionHistory after =
    match text with
    | [] => extractionHistory st
    | _ :: _ => HistoryItem.mk 7 (str "today") text :: extractionHistory st
    end /\
  isLoading after = false /\ imageUrl after = None.
Proof.
  apply (X20_answer_of_the_backend_reaches_the_document (str "AAAA")
           (str "image/png")
           (TextSample.backend 200 [bytes "<p>Hel"; bytes "lo</p>"] EndOfStream)
           (str "blob:1") 7 (str "today") 8 TextSample.image initial_state
           (mkResponse 200
              (Some (mkBody [bytes "<p>Hel"; bytes "lo</p>"] EndOfStream)))
           [bytes "<p>Hel"; bytes "lo</p>"]);
    first [reflexivity | (vm_compute; discriminate)].
Defined.

Lemma X21_sample_extraction :
  handleFileReady
    (fun context quality llm =>
       extractTextFromImageStream (inr (str "AAAA", str "image/png")) context
         quality llm (TextSample.backend 500 [bytes "oops"] EndOfStream))
    (str "blob:1") 7 (str "today") 8 (Some TextSample.image) initial_state =
  setToast
    (Some (mkToast 8
             (str "Extraction failed: Backend error: " ++ show_N 500
              ++ str " " ++ str "oops") ToastError))
    (setImageUrl None (setIsLoading false initial_state)).
Proof.
  apply (X21_backend_error_leaves_the_document (str "AAAA") (str "image/png")
           (TextSample.backend 500 [bytes "oops"] EndOfStream)
           (str "blob:1") 7 (str "today") 8 TextSample.image initial_state
           (mkResponse 500 (Some (mkBody [bytes "oops"] EndOfStream)))
           (str "oops"));
    first [reflexivity | (vm_compute; discriminate) | (vm_compute; reflexivity)].
Defined.
